(** * WalB: block-level write-ahead-log driver

    A shallow embedding of the control path of the WalB kernel module
    ([module/walb.c], stored as the second half of [src/module/none_req.c])
    and of the log-device layout header ([src/include/walb_log_device.h]),
    with the properties of the specification proved about it.

    Conventions.
    - C integers are [Z] with the wrap-around written out: [to_u64],
      [to_u32] for the unsigned types, [to_int] for [int] and [to_i64] for
      [loff_t] (two's complement, as the kernel is built with wrapping
      signed arithmetic).
    - A division or remainder by zero is a trap: the function returns
      [None].  [BUG()] and a failed [ASSERT] of a debug build are traps too.
    - The kernel objects the driver mutates ([struct walb_dev] and what hangs
      off it) are one record that is passed in and returned.
    - The outcome of every operation that can fail for reasons outside the
      driver (memory allocation, sector I/O, [bdget_disk], ...) and the
      output of the random number generator are inputs: the record [env]. *)

From stdpp Require Import gmap strings list.
From Stdlib Require Import ZArith Lia.

Open Scope Z_scope.

(** ** C integer types *)

Definition to_u64 (x : Z) : Z := x mod 2 ^ 64.
Definition to_u32 (x : Z) : Z := x mod 2 ^ 32.
Definition to_int (x : Z) : Z := (x + 2 ^ 31) mod 2 ^ 32 - 2 ^ 31.
Definition to_i64 (x : Z) : Z := (x + 2 ^ 63) mod 2 ^ 64 - 2 ^ 63.

Definition is_u64 (x : Z) : Prop := 0 ≤ x < 2 ^ 64.
Definition is_u32 (x : Z) : Prop := 0 ≤ x < 2 ^ 32.
Definition is_int (x : Z) : Prop := - 2 ^ 31 ≤ x < 2 ^ 31.

Definition INT_MAX : Z := 2 ^ 31 - 1.

(** Unsigned division and remainder; [/] and [%] of C on unsigned operands. *)
Definition c_udiv (a b : Z) : option Z := if b =? 0 then None else Some (a / b).
Definition c_umod (a b : Z) : option Z := if b =? 0 then None else Some (a mod b).

(** Division of two [int]s: truncation toward zero. *)
Definition c_sdiv (a b : Z) : option Z :=
  if b =? 0 then None else Some (to_int (Z.quot a b)).

(** The ceiling of [n / t] for a positive [t], on mathematical integers. *)
Definition ceil_div (n t : Z) : Z := - ((- n) / t).

(** ** Build configuration

    [PAGE_SIZE] comes from the kernel headers; [WALB_DEBUG] turns [ASSERT]
    into a check that stops the kernel; [WALB_FAST_ALGORITHM] selects the
    variant of the write pipeline that keeps a separate completed lsid. *)

Record build : Type := {
  PAGE_SIZE : Z;
  WALB_DEBUG : bool;
  WALB_FAST_ALGORITHM : bool
}.

Definition build_ok (cfg : build) : Prop := 0 < PAGE_SIZE cfg < 2 ^ 31.

(** [ASSERT(cond)]: nothing in a release build; in a debug build the
    condition is evaluated (which may itself trap) and must hold. *)
Definition ASSERT (cfg : build) (cond : option bool) : option unit :=
  if WALB_DEBUG cfg then
    match cond with
    | Some true => Some tt
    | _ => None
    end
  else Some tt.

(** ** The log device layout ([walb_log_device.h]) *)

Definition UUID_SIZE : Z := 16.

(** [struct walb_super_sector]; the fields of the header in use by the
    module ([name] and [log_checksum_salt] included). *)
Record walb_super_sector : Type := {
  checksum : Z;
  sector_size : Z;
  snapshot_metadata_size : Z;
  uuid : list Z;
  name : string;
  super_ring_buffer_size : Z;
  oldest_lsid : Z;
  written_lsid : Z;
  device_size : Z;
  super_log_checksum_salt : Z
}.

(** [struct walb_snapshot_record] of [walb_log_device.h]: 8 + 8 + 64 = 80
    bytes.  The entries of the snapshot store are modelled with it. *)
Record walb_snapshot_record : Type := {
  lsid : Z;
  timestamp : Z;
  snapshot_name : string
}.

Definition sizeof_walb_snapshot_record_t : Z := 80.

(** [struct walb_snapshot_sector]: checksum and bitmap, 4 + 4 bytes, then
    the records. *)
Definition sizeof_walb_snapshot_sector_t : Z := 8.

(** The subtraction and the division are done in [size_t] (64 bits, as
    the kernel has it on the machines the module is built for), the result
    is stored in an [int]. *)
Definition max_n_snapshots_in_sector (sector_size : Z) : Z :=
  let size :=
    to_int (to_u64 (to_u64 sector_size - sizeof_walb_snapshot_sector_t)
            / sizeof_walb_snapshot_record_t) in
  if size <? 32 then size else 32.

Definition get_metadata_size (cfg : build) (sector_size n_snapshots : Z)
  : option Z :=
  _ ← ASSERT cfg (r ← c_umod (PAGE_SIZE cfg) (to_u64 sector_size);
                  Some ((r =? 0) && (to_u64 sector_size <=? PAGE_SIZE cfg)));
  let t := max_n_snapshots_in_sector sector_size in
  c_sdiv (to_int (to_int (n_snapshots + t) - 1)) t.

(** [PAGE_SIZE] is an [unsigned long]: the [int] is converted before the
    remainder and the division. *)
Definition get_super_sector0_offset (cfg : build) (sector_size : Z) : option Z :=
  _ ← ASSERT cfg (r ← c_umod (PAGE_SIZE cfg) (to_u64 sector_size);
                  Some (r =? 0));
  c_udiv (PAGE_SIZE cfg) (to_u64 sector_size).

Definition get_metadata_offset (cfg : build) (sector_size : Z) : option Z :=
  off ← get_super_sector0_offset cfg sector_size;
  Some (to_u64 (off + 1)).

Definition get_super_sector1_offset (cfg : build) (sector_size n_snapshots : Z)
  : option Z :=
  off ← get_metadata_offset cfg sector_size;
  n ← get_metadata_size cfg sector_size n_snapshots;
  Some (to_u64 (off + to_u64 n)).

Definition get_ring_buffer_offset (cfg : build) (sector_size n_snapshots : Z)
  : option Z :=
  off ← get_super_sector1_offset cfg sector_size n_snapshots;
  Some (to_u64 (off + 1)).

(** The [_2] family reads the sector size (a [u32], passed as an [int]) and
    the metadata size from a super sector. *)
Definition get_super_sector0_offset_2 (cfg : build) (super_sect : walb_super_sector)
  : option Z :=
  get_super_sector0_offset cfg (to_int (sector_size super_sect)).

Definition get_metadata_offset_2 (cfg : build) (super_sect : walb_super_sector)
  : option Z :=
  get_metadata_offset cfg (to_int (sector_size super_sect)).

Definition get_super_sector1_offset_2 (cfg : build) (super_sect : walb_super_sector)
  : option Z :=
  off ← get_metadata_offset cfg (to_int (sector_size super_sect));
  Some (to_u64 (off + snapshot_metadata_size super_sect)).

Definition get_ring_buffer_offset_2 (cfg : build) (super_sect : walb_super_sector)
  : option Z :=
  off ← get_super_sector1_offset_2 cfg super_sect;
  Some (to_u64 (off + 1)).

(** ** Constants of the module *)

Definition EFAULT : Z := 14.
Definition LOGICAL_BLOCK_SIZE : Z := 512.

(** Modelled from the spec: the constants of [walb/log_record.h], which is
    not among the sources.  "[INVALID_LSID = 2^64-1]"; [MAX_LSID] is the
    largest lsid below it, so that [MAX_LSID + 1] closes the half-open range
    of all valid lsids. *)
Definition INVALID_LSID : Z := 2 ^ 64 - 1.
Definition MAX_LSID : Z := 2 ^ 64 - 2.

(** ** The driver state ([struct walb_dev]) *)

(** [struct lsid_set]. *)
Record lsid_set : Type := {
  latest : Z;
  flush : Z;
  completed : Z;
  permanent : Z;
  written : Z;
  prev_written : Z;
  oldest : Z
}.

(** For [(walb_dev * )->freeze_state]. *)
Inductive freeze_state_t : Type :=
  | FRZ_MELTED
  | FRZ_FREEZED
  | FRZ_FREEZED_WITH_TIMEOUT.

(** State of the checkpointing task ([wdev->cpd.state]). *)
Inductive cp_state_t : Type :=
  | CP_STOPPED
  | CP_RUNNING.

(** A backing block device: its size in logical blocks
    ([bd_part->nr_sects]), the super sector last written to it, and the
    contents of the other sectors, by offset in physical blocks.  A sector
    is its bytes. *)
Record block_device : Type := {
  nr_sects : Z;
  bd_super : option walb_super_sector;
  bd_sectors : gmap Z (list Z)
}.

(** [struct gendisk]: the capacity in logical blocks and the size in bytes
    of the inode of its block device. *)
Record gendisk : Type := {
  capacity : Z;
  i_size : Z
}.

(** Error kinds of the snapshot store and of the engine. *)
Inductive error_kind : Type :=
  | IoError
  | ChecksumError
  | InvalidLsid
  | LogOverflow
  | ReadOnly
  | NameConflict
  | NotFound
  | Busy
  | InvalidArgument.

Record walb_dev : Type := {
  lsids : lsid_set;
  lsuper0 : walb_super_sector;
  ring_buffer_size : Z;
  ring_buffer_off : Z;
  log_checksum_salt : Z;
  physical_bs : Z;
  n_snapshots : Z;
  ldev_size : Z;
  ddev_size : Z;
  size : Z;
  ldev : block_device;
  ddev : block_device;
  gd : gendisk;
  log_gd : gendisk;
  is_read_only : bool;
  freeze_state : freeze_state_t;
  freeze_dwork : option Z;
  cpd : cp_state_t;
  iocore_frozen : bool;
  log_overflow : bool;
  snapd : list walb_snapshot_record
}.

(** Assignments to one field of [struct walb_dev]. *)
Definition set_lsids (v : lsid_set) (w : walb_dev) : walb_dev :=
  {| lsids := v; lsuper0 := lsuper0 w;
     ring_buffer_size := ring_buffer_size w;
     ring_buffer_off := ring_buffer_off w;
     log_checksum_salt := log_checksum_salt w; physical_bs := physical_bs w;
     n_snapshots := n_snapshots w; ldev_size := ldev_size w;
     ddev_size := ddev_size w; size := size w; ldev := ldev w;
     ddev := ddev w; gd := gd w; log_gd := log_gd w;
     is_read_only := is_read_only w; freeze_state := freeze_state w;
     freeze_dwork := freeze_dwork w; cpd := cpd w;
     iocore_frozen := iocore_frozen w; log_overflow := log_overflow w;
     snapd := snapd w |}.

Definition set_lsuper0 (v : walb_super_sector) (w : walb_dev) : walb_dev :=
  {| lsids := lsids w; lsuper0 := v; ring_buffer_size := ring_buffer_size w;
     ring_buffer_off := ring_buffer_off w;
     log_checksum_salt := log_checksum_salt w; physical_bs := physical_bs w;
     n_snapshots := n_snapshots w; ldev_size := ldev_size w;
     ddev_size := ddev_size w; size := size w; ldev := ldev w;
     ddev := ddev w; gd := gd w; log_gd := log_gd w;
     is_read_only := is_read_only w; freeze_state := freeze_state w;
     freeze_dwork := freeze_dwork w; cpd := cpd w;
     iocore_frozen := iocore_frozen w; log_overflow := log_overflow w;
     snapd := snapd w |}.

Definition set_ring_buffer_size (v : Z) (w : walb_dev) : walb_dev :=
  {| lsids := lsids w; lsuper0 := lsuper0 w; ring_buffer_size := v;
     ring_buffer_off := ring_buffer_off w;
     log_checksum_salt := log_checksum_salt w; physical_bs := physical_bs w;
     n_snapshots := n_snapshots w; ldev_size := ldev_size w;
     ddev_size := ddev_size w; size := size w; ldev := ldev w;
     ddev := ddev w; gd := gd w; log_gd := log_gd w;
     is_read_only := is_read_only w; freeze_state := freeze_state w;
     freeze_dwork := freeze_dwork w; cpd := cpd w;
     iocore_frozen := iocore_frozen w; log_overflow := log_overflow w;
     snapd := snapd w |}.

Definition set_log_checksum_salt (v : Z) (w : walb_dev) : walb_dev :=
  {| lsids := lsids w; lsuper0 := lsuper0 w;
     ring_buffer_size := ring_buffer_size w;
     ring_buffer_off := ring_buffer_off w; log_checksum_salt := v;
     physical_bs := physical_bs w; n_snapshots := n_snapshots w;
     ldev_size := ldev_size w; ddev_size := ddev_size w; size := size w;
     ldev := ldev w; ddev := ddev w; gd := gd w; log_gd := log_gd w;
     is_read_only := is_read_only w; freeze_state := freeze_state w;
     freeze_dwork := freeze_dwork w; cpd := cpd w;
     iocore_frozen := iocore_frozen w; log_overflow := log_overflow w;
     snapd := snapd w |}.

Definition set_ldev_size (v : Z) (w : walb_dev) : walb_dev :=
  {| lsids := lsids w; lsuper0 := lsuper0 w;
     ring_buffer_size := ring_buffer_size w;
     ring_buffer_off := ring_buffer_off w;
     log_checksum_salt := log_checksum_salt w; physical_bs := physical_bs w;
     n_snapshots := n_snapshots w; ldev_size := v; ddev_size := ddev_size w;
     size := size w; ldev := ldev w; ddev := ddev w; gd := gd w;
     log_gd := log_gd w; is_read_only := is_read_only w;
     freeze_state := freeze_state w; freeze_dwork := freeze_dwork w;
     cpd := cpd w; iocore_frozen := iocore_frozen w;
     log_overflow := log_overflow w; snapd := snapd w |}.

Definition set_ddev_size (v : Z) (w : walb_dev) : walb_dev :=
  {| lsids := lsids w; lsuper0 := lsuper0 w;
     ring_buffer_size := ring_buffer_size w;
     ring_buffer_off := ring_buffer_off w;
     log_checksum_salt := log_checksum_salt w; physical_bs := physical_bs w;
     n_snapshots := n_snapshots w; ldev_size := ldev_size w; ddev_size := v;
     size := size w; ldev := ldev w; ddev := ddev w; gd := gd w;
     log_gd := log_gd w; is_read_only := is_read_only w;
     freeze_state := freeze_state w; freeze_dwork := freeze_dwork w;
     cpd := cpd w; iocore_frozen := iocore_frozen w;
     log_overflow := log_overflow w; snapd := snapd w |}.

Definition set_size (v : Z) (w : walb_dev) : walb_dev :=
  {| lsids := lsids w; lsuper0 := lsuper0 w;
     ring_buffer_size := ring_buffer_size w;
     ring_buffer_off := ring_buffer_off w;
     log_checksum_salt := log_checksum_salt w; physical_bs := physical_bs w;
     n_snapshots := n_snapshots w; ldev_size := ldev_size w;
     ddev_size := ddev_size w; size := v; ldev := ldev w; ddev := ddev w;
     gd := gd w; log_gd := log_gd w; is_read_only := is_read_only w;
     freeze_state := freeze_state w; freeze_dwork := freeze_dwork w;
     cpd := cpd w; iocore_frozen := iocore_frozen w;
     log_overflow := log_overflow w; snapd := snapd w |}.

Definition set_ldev (v : block_device) (w : walb_dev) : walb_dev :=
  {| lsids := lsids w; lsuper0 := lsuper0 w;
     ring_buffer_size := ring_buffer_size w;
     ring_buffer_off := ring_buffer_off w;
     log_checksum_salt := log_checksum_salt w; physical_bs := physical_bs w;
     n_snapshots := n_snapshots w; ldev_size := ldev_size w;
     ddev_size := ddev_size w; size := size w; ldev := v; ddev := ddev w;
     gd := gd w; log_gd := log_gd w; is_read_only := is_read_only w;
     freeze_state := freeze_state w; freeze_dwork := freeze_dwork w;
     cpd := cpd w; iocore_frozen := iocore_frozen w;
     log_overflow := log_overflow w; snapd := snapd w |}.

Definition set_ddev (v : block_device) (w : walb_dev) : walb_dev :=
  {| lsids := lsids w; lsuper0 := lsuper0 w;
     ring_buffer_size := ring_buffer_size w;
     ring_buffer_off := ring_buffer_off w;
     log_checksum_salt := log_checksum_salt w; physical_bs := physical_bs w;
     n_snapshots := n_snapshots w; ldev_size := ldev_size w;
     ddev_size := ddev_size w; size := size w; ldev := ldev w; ddev := v;
     gd := gd w; log_gd := log_gd w; is_read_only := is_read_only w;
     freeze_state := freeze_state w; freeze_dwork := freeze_dwork w;
     cpd := cpd w; iocore_frozen := iocore_frozen w;
     log_overflow := log_overflow w; snapd := snapd w |}.

Definition set_gd (v : gendisk) (w : walb_dev) : walb_dev :=
  {| lsids := lsids w; lsuper0 := lsuper0 w;
     ring_buffer_size := ring_buffer_size w;
     ring_buffer_off := ring_buffer_off w;
     log_checksum_salt := log_checksum_salt w; physical_bs := physical_bs w;
     n_snapshots := n_snapshots w; ldev_size := ldev_size w;
     ddev_size := ddev_size w; size := size w; ldev := ldev w;
     ddev := ddev w; gd := v; log_gd := log_gd w;
     is_read_only := is_read_only w; freeze_state := freeze_state w;
     freeze_dwork := freeze_dwork w; cpd := cpd w;
     iocore_frozen := iocore_frozen w; log_overflow := log_overflow w;
     snapd := snapd w |}.

Definition set_log_gd (v : gendisk) (w : walb_dev) : walb_dev :=
  {| lsids := lsids w; lsuper0 := lsuper0 w;
     ring_buffer_size := ring_buffer_size w;
     ring_buffer_off := ring_buffer_off w;
     log_checksum_salt := log_checksum_salt w; physical_bs := physical_bs w;
     n_snapshots := n_snapshots w; ldev_size := ldev_size w;
     ddev_size := ddev_size w; size := size w; ldev := ldev w;
     ddev := ddev w; gd := gd w; log_gd := v; is_read_only := is_read_only w;
     freeze_state := freeze_state w; freeze_dwork := freeze_dwork w;
     cpd := cpd w; iocore_frozen := iocore_frozen w;
     log_overflow := log_overflow w; snapd := snapd w |}.

Definition set_is_read_only (v : bool) (w : walb_dev) : walb_dev :=
  {| lsids := lsids w; lsuper0 := lsuper0 w;
     ring_buffer_size := ring_buffer_size w;
     ring_buffer_off := ring_buffer_off w;
     log_checksum_salt := log_checksum_salt w; physical_bs := physical_bs w;
     n_snapshots := n_snapshots w; ldev_size := ldev_size w;
     ddev_size := ddev_size w; size := size w; ldev := ldev w;
     ddev := ddev w; gd := gd w; log_gd := log_gd w; is_read_only := v;
     freeze_state := freeze_state w; freeze_dwork := freeze_dwork w;
     cpd := cpd w; iocore_frozen := iocore_frozen w;
     log_overflow := log_overflow w; snapd := snapd w |}.

Definition set_freeze_state (v : freeze_state_t) (w : walb_dev) : walb_dev :=
  {| lsids := lsids w; lsuper0 := lsuper0 w;
     ring_buffer_size := ring_buffer_size w;
     ring_buffer_off := ring_buffer_off w;
     log_checksum_salt := log_checksum_salt w; physical_bs := physical_bs w;
     n_snapshots := n_snapshots w; ldev_size := ldev_size w;
     ddev_size := ddev_size w; size := size w; ldev := ldev w;
     ddev := ddev w; gd := gd w; log_gd := log_gd w;
     is_read_only := is_read_only w; freeze_state := v;
     freeze_dwork := freeze_dwork w; cpd := cpd w;
     iocore_frozen := iocore_frozen w; log_overflow := log_overflow w;
     snapd := snapd w |}.

Definition set_freeze_dwork (v : option Z) (w : walb_dev) : walb_dev :=
  {| lsids := lsids w; lsuper0 := lsuper0 w;
     ring_buffer_size := ring_buffer_size w;
     ring_buffer_off := ring_buffer_off w;
     log_checksum_salt := log_checksum_salt w; physical_bs := physical_bs w;
     n_snapshots := n_snapshots w; ldev_size := ldev_size w;
     ddev_size := ddev_size w; size := size w; ldev := ldev w;
     ddev := ddev w; gd := gd w; log_gd := log_gd w;
     is_read_only := is_read_only w; freeze_state := freeze_state w;
     freeze_dwork := v; cpd := cpd w; iocore_frozen := iocore_frozen w;
     log_overflow := log_overflow w; snapd := snapd w |}.

Definition set_cpd (v : cp_state_t) (w : walb_dev) : walb_dev :=
  {| lsids := lsids w; lsuper0 := lsuper0 w;
     ring_buffer_size := ring_buffer_size w;
     ring_buffer_off := ring_buffer_off w;
     log_checksum_salt := log_checksum_salt w; physical_bs := physical_bs w;
     n_snapshots := n_snapshots w; ldev_size := ldev_size w;
     ddev_size := ddev_size w; size := size w; ldev := ldev w;
     ddev := ddev w; gd := gd w; log_gd := log_gd w;
     is_read_only := is_read_only w; freeze_state := freeze_state w;
     freeze_dwork := freeze_dwork w; cpd := v;
     iocore_frozen := iocore_frozen w; log_overflow := log_overflow w;
     snapd := snapd w |}.

Definition set_iocore_frozen (v : bool) (w : walb_dev) : walb_dev :=
  {| lsids := lsids w; lsuper0 := lsuper0 w;
     ring_buffer_size := ring_buffer_size w;
     ring_buffer_off := ring_buffer_off w;
     log_checksum_salt := log_checksum_salt w; physical_bs := physical_bs w;
     n_snapshots := n_snapshots w; ldev_size := ldev_size w;
     ddev_size := ddev_size w; size := size w; ldev := ldev w;
     ddev := ddev w; gd := gd w; log_gd := log_gd w;
     is_read_only := is_read_only w; freeze_state := freeze_state w;
     freeze_dwork := freeze_dwork w; cpd := cpd w; iocore_frozen := v;
     log_overflow := log_overflow w; snapd := snapd w |}.

Definition set_log_overflow (v : bool) (w : walb_dev) : walb_dev :=
  {| lsids := lsids w; lsuper0 := lsuper0 w;
     ring_buffer_size := ring_buffer_size w;
     ring_buffer_off := ring_buffer_off w;
     log_checksum_salt := log_checksum_salt w; physical_bs := physical_bs w;
     n_snapshots := n_snapshots w; ldev_size := ldev_size w;
     ddev_size := ddev_size w; size := size w; ldev := ldev w;
     ddev := ddev w; gd := gd w; log_gd := log_gd w;
     is_read_only := is_read_only w; freeze_state := freeze_state w;
     freeze_dwork := freeze_dwork w; cpd := cpd w;
     iocore_frozen := iocore_frozen w; log_overflow := v; snapd := snapd w |}.

Definition set_snapd (v : list walb_snapshot_record) (w : walb_dev) : walb_dev :=
  {| lsids := lsids w; lsuper0 := lsuper0 w;
     ring_buffer_size := ring_buffer_size w;
     ring_buffer_off := ring_buffer_off w;
     log_checksum_salt := log_checksum_salt w; physical_bs := physical_bs w;
     n_snapshots := n_snapshots w; ldev_size := ldev_size w;
     ddev_size := ddev_size w; size := size w; ldev := ldev w;
     ddev := ddev w; gd := gd w; log_gd := log_gd w;
     is_read_only := is_read_only w; freeze_state := freeze_state w;
     freeze_dwork := freeze_dwork w; cpd := cpd w;
     iocore_frozen := iocore_frozen w; log_overflow := log_overflow w;
     snapd := v |}.

(** [struct walb_snapshot_record] as [walb.c] has it, from
    [walb/snapshot.h], which is not among the sources.  Modelled from the
    spec: the snapshot record is "(snapshot_id: u32, name: utf8[≤63],
    lsid: u64, timestamp: u64)", that is the record of [walb_log_device.h]
    with the [snapshot_id] that [ioctl_wdev_list_snapshot_from] reads;
    packed like the records of [walb_log_device.h], it takes
    8 + 8 + 4 + 64 = 84 bytes. *)
Module snapshot_h.

Record walb_snapshot_record : Type := {
  lsid : Z;
  timestamp : Z;
  snapshot_id : Z;
  name : string
}.

Definition sizeof_walb_snapshot_record : Z := 84.

End snapshot_h.

(** [struct walb_ctl]: the values an ioctl carries in and out.  [u2k_buf] is
    the user-to-kernel buffer read as a snapshot record of
    [walb/snapshot.h] ([None]: a null pointer). *)
Record walb_ctl : Type := {
  val_u64 : Z;
  val_u32 : Z;
  val_int : Z;
  error : option error_kind;
  u2k_buf_size : Z;
  u2k_buf : option snapshot_h.walb_snapshot_record
}.

(** What the world outside the driver answers during one operation:
    whether an allocation, a sector read or write, a super block sync, a
    snapshot sector write or [bdget_disk] succeeds, what
    [alldevs_update_uuid] returns, and the bytes [get_random_bytes] gives. *)
Record env : Type := {
  sector_alloc_ok : bool;
  sector_read_ok : bool;
  sector_write_ok : bool;
  sync_super_ok : bool;
  snapshot_write_ok : bool;
  bdget_disk_ok : bool;
  alldevs_update_uuid_ret : Z;
  random_uuid : list Z;
  random_salt : Z
}.

(** The log pack codec ([logpack.h], [walb/log_record.h]) and the snapshot
    name check ([walb/snapshot.h]) are not among the sources; the module is
    modelled over any implementation of them.  [redo_pack] is the work redo
    does on one valid pack: given the header and both devices it answers
    whether every record's payload verified, the header that describes the
    verified records, and the data device with these records applied. *)
Record helpers : Type := {
  is_valid_logpack_header_with_checksum : list Z → Z → Z → bool;
  logpack_lsid : list Z → Z;
  logpack_size : list Z → Z;
  redo_pack : list Z → block_device → block_device → bool * list Z * block_device;
  is_valid_snapshot_name : string → bool
}.

(** ** Code of the module that is not among the sources

    [super.c], [io.c], [checkpoint.c], [snapshot.c], [sector_io.c], [redo.c]
    and the headers [walb/block_size.h] and [walb/log_device.h] are called
    by [walb.c] but are not among the sources. *)

(** Modelled from the spec: [addr_pb] of [walb/block_size.h] is missing.
    "Logical sector = 512 B.  Physical block size = that of the backing
    devices": an address in logical blocks becomes one in physical blocks by
    dividing by the number of logical blocks in a physical block. *)
Definition addr_pb (pbs addr_lb : Z) : option Z :=
  n_lb_in_pb ← c_udiv pbs LOGICAL_BLOCK_SIZE;
  c_udiv addr_lb n_lb_in_pb.

(** Modelled from the spec: [get_offset_of_lsid_2] of [walb/log_device.h] is
    missing.  "[lsid_to_offset(lsid) = ring_start + (lsid mod ring_size)]",
    the ring starting at "[super1_offset + 1]". *)
Definition get_offset_of_lsid_2 (cfg : build) (super : walb_super_sector)
    (lsid : Z) : option Z :=
  off ← get_ring_buffer_offset_2 cfg super;
  r ← c_umod lsid (super_ring_buffer_size super);
  Some (to_u64 (off + r)).

(** Modelled from the spec: the sector I/O of [sector_io.c] is missing.
    "[read_sector(dev, sector_off) -> buf], [write_sector(dev, sector_off,
    buf)]"; a sector never written reads as zeros, and a sector allocated
    with [__GFP_ZERO] is [zero_sector]. *)
Definition zero_sector (pbs : Z) : list Z := replicate (Z.to_nat pbs) 0.

Definition sector_read (bdev : block_device) (pbs off : Z) : list Z :=
  default (zero_sector pbs) (bd_sectors bdev !! off).

Definition sector_write (bdev : block_device) (off : Z) (sect : list Z)
  : block_device :=
  {| nr_sects := nr_sects bdev; bd_super := bd_super bdev;
     bd_sectors := <[off := sect]> (bd_sectors bdev) |}.

Definition write_super (bdev : block_device) (super : walb_super_sector)
  : block_device :=
  {| nr_sects := nr_sects bdev; bd_super := Some super;
     bd_sectors := bd_sectors bdev |}.

(** Modelled from the spec: [walb_sync_super_block] of [super.c] is missing.
    "[sync_super(wdev)]: snapshots the current LSID set into the in-memory
    super image under the super-lock, then delegates to [write_super]"; the
    image takes "[oldest_lsid] and [written_lsid]" and the size of the
    exposed device. *)
Definition walb_sync_super_block (e : env) (wdev : walb_dev) : bool * walb_dev :=
  let super := lsuper0 wdev in
  let super :=
    {| checksum := checksum super; sector_size := sector_size super;
       snapshot_metadata_size := snapshot_metadata_size super;
       uuid := uuid super; name := name super;
       super_ring_buffer_size := super_ring_buffer_size super;
       oldest_lsid := oldest (lsids wdev);
       written_lsid := written (lsids wdev);
       device_size := size wdev;
       super_log_checksum_salt := super_log_checksum_salt super |} in
  let wdev := set_lsuper0 super wdev in
  if sync_super_ok e
  then (true, set_ldev (write_super (ldev wdev) super) wdev)
  else (false, wdev).

(** Modelled from the spec: the write pipeline of [io.c] is missing.
    "Freeze: pause pack stage, drain in-flight"; "melt: resume pack stage";
    the "sticky [log_overflow] flag"; the "read-only latch". *)
Definition iocore_freeze (wdev : walb_dev) : walb_dev := set_iocore_frozen true wdev.
Definition iocore_melt (wdev : walb_dev) : walb_dev := set_iocore_frozen false wdev.
Definition iocore_set_readonly (wdev : walb_dev) : walb_dev := set_is_read_only true wdev.
Definition iocore_clear_log_overflow (wdev : walb_dev) : walb_dev :=
  set_log_overflow false wdev.
Definition iocore_is_log_overflow (wdev : walb_dev) : Z :=
  if log_overflow wdev then 1 else 0.

(** Modelled from the spec: the checkpoint loop of [checkpoint.c] is
    missing.  Freezing "pauses checkpointing", melting "resumes" it. *)
Definition stop_checkpointing (wdev : walb_dev) : walb_dev := set_cpd CP_STOPPED wdev.
Definition start_checkpointing (wdev : walb_dev) : walb_dev := set_cpd CP_RUNNING wdev.

(** Modelled from the spec: the snapshot store of [snapshot.c] is missing.
    The store is the list of its records; it has room for
    [snapshot_metadata_size] sectors of [max_n_snapshots_in_sector] records.
    "[add(name, lsid, timestamp)] fails if name exists, lsid invalid, or all
    sectors full"; "[del_range(lsid0, lsid1)] removes all whose [lsid] is in
    [[lsid0, lsid1)]; returns count"; "any mutation flushes the affected
    sector(s); a write failure marks the engine read-only". *)
Definition snapshot_n_records (snapd : list walb_snapshot_record) : Z :=
  Z.of_nat (length snapd).

Definition snapshot_capacity (wdev : walb_dev) : Z :=
  snapshot_metadata_size (lsuper0 wdev)
  * max_n_snapshots_in_sector (to_int (physical_bs wdev)).

Definition snapshot_add (e : env) (wdev : walb_dev) (name : string)
    (lsid timestamp : Z) : option error_kind * walb_dev :=
  if existsb (λ r, String.eqb (snapshot_name r) name) (snapd wdev)
  then (Some NameConflict, wdev)
  else if lsid =? INVALID_LSID then (Some InvalidLsid, wdev)
  else if snapshot_capacity wdev <=? snapshot_n_records (snapd wdev)
  then (Some Busy, wdev)
  else if negb (snapshot_write_ok e)
  then (Some IoError, set_is_read_only true wdev)
  else
    (None,
     set_snapd (snapd wdev ++ [ {| lsid := lsid; timestamp := timestamp;
                                   snapshot_name := name |} ]) wdev).

Definition lsid_in_range (lsid0 lsid1 : Z) (r : walb_snapshot_record) : bool :=
  (lsid0 <=? lsid r) && (lsid r <? lsid1).

Definition snapshot_del_range (e : env) (wdev : walb_dev) (lsid0 lsid1 : Z)
  : Z * walb_dev :=
  let hit := List.filter (lsid_in_range lsid0 lsid1) (snapd wdev) in
  match hit with
  | [] => (0, wdev)
  | _ :: _ =>
      if negb (snapshot_write_ok e)
      then (-1, set_is_read_only true wdev)
      else
        (Z.of_nat (length hit),
         set_snapd
           (List.filter (λ r, negb (lsid_in_range lsid0 lsid1 r)) (snapd wdev))
           wdev)
  end.

(** No record of the store carries the lsid that stands for "none". *)
Definition snapd_ok (snapd : list walb_snapshot_record) : Prop :=
  Forall (λ r, 0 ≤ lsid r < INVALID_LSID) snapd.

(** Modelled from the spec: [execute_redo] of [redo.c] is missing.
    "Starting at [written_lsid], it iteratively reads the log-pack header at
    [lsid_to_offset(lsid)], validates with the current salt, reads the
    payload, applies each non-padding data record to the data device, and
    advances a local cursor.  Stop conditions: header checksum fails or
    [logpack_lsid <> cursor]: end of log; payload checksum fails for record
    k: apply records 0..k-1, write back a truncated, re-checksummed header,
    and stop.  After stopping, set [written = permanent = completed = latest
    = flush = cursor], persist super."  The scan reads at most as many packs
    as the ring has sectors. *)
Fixpoint redo_loop (cfg : build) (hlp : helpers) (e : env) (fuel : nat)
    (super : walb_super_sector) (pbs salt : Z) (ldev ddev : block_device)
    (cursor : Z) : option (bool * (Z * block_device * block_device)) :=
  match fuel with
  | O => Some (false, (cursor, ldev, ddev))
  | S fuel =>
      off ← get_offset_of_lsid_2 cfg super cursor;
      if negb (sector_read_ok e) then Some (false, (cursor, ldev, ddev))
      else
        let logh := sector_read ldev pbs off in
        if negb (is_valid_logpack_header_with_checksum hlp logh pbs salt)
           || negb (logpack_lsid hlp logh =? cursor)
        then Some (true, (cursor, ldev, ddev))
        else
          let '(full, logh', ddev') := redo_pack hlp logh ldev ddev in
          if full
          then redo_loop cfg hlp e fuel super pbs salt ldev ddev'
                 (to_u64 (cursor + logpack_size hlp logh))
          else if sector_write_ok e
          then Some (true, (to_u64 (cursor + logpack_size hlp logh'),
                            sector_write ldev off logh', ddev'))
          else Some (false, (cursor, ldev, ddev'))
  end.

Definition execute_redo (cfg : build) (hlp : helpers) (e : env)
    (wdev : walb_dev) : option (bool * walb_dev) :=
  r ← redo_loop cfg hlp e (S (Z.to_nat (ring_buffer_size wdev)))
        (lsuper0 wdev) (physical_bs wdev) (log_checksum_salt wdev)
        (ldev wdev) (ddev wdev) (written (lsids wdev));
  let '(ok, (cursor, ldev', ddev')) := r in
  if negb ok then Some (false, wdev)
  else
    let wdev := set_ddev ddev' (set_ldev ldev' wdev) in
    let wdev :=
      set_lsids
        {| latest := cursor; flush := cursor; completed := cursor;
           permanent := cursor; written := cursor;
           prev_written := prev_written (lsids wdev);
           oldest := oldest (lsids wdev) |} wdev in
    Some (walb_sync_super_block e wdev).

(** ** The module ([walb.c]) *)

(** Check logpack of the given lsid exists: 1 if valid, or 0. *)
Definition walb_check_lsid_valid (cfg : build) (hlp : helpers) (e : env)
    (wdev : walb_dev) (lsid : Z) : option Z :=
  if negb (sector_alloc_ok e) then Some 0
  else
    off ← get_offset_of_lsid_2 cfg (lsuper0 wdev) lsid;
    if negb (sector_read_ok e) then Some 0
    else
      let logh := sector_read (ldev wdev) (physical_bs wdev) off in
      if negb (is_valid_logpack_header_with_checksum hlp logh
                 (physical_bs wdev) (log_checksum_salt wdev))
      then Some 0
      else if negb (logpack_lsid hlp logh =? lsid) then Some 0
      else Some 1.

Definition get_written_lsid (wdev : walb_dev) : Z := written (lsids wdev).

Definition get_permanent_lsid (wdev : walb_dev) : Z := permanent (lsids wdev).

Definition get_completed_lsid (cfg : build) (wdev : walb_dev) : Z :=
  if WALB_FAST_ALGORITHM cfg then completed (lsids wdev)
  else get_written_lsid wdev.

Definition get_log_capacity (wdev : walb_dev) : Z := ring_buffer_size wdev.

Definition ioctl_wdev_get_oldest_lsid (wdev : walb_dev) (ctl : walb_ctl)
  : Z * walb_ctl :=
  (0, {| val_u64 := oldest (lsids wdev); val_u32 := val_u32 ctl;
         val_int := val_int ctl; error := error ctl;
         u2k_buf_size := u2k_buf_size ctl; u2k_buf := u2k_buf ctl |}).

Definition set_oldest (lsid : Z) (l : lsid_set) : lsid_set :=
  {| latest := latest l; flush := flush l; completed := completed l;
     permanent := permanent l; written := written l;
     prev_written := prev_written l; oldest := lsid |}.

Definition ioctl_wdev_set_oldest_lsid (cfg : build) (hlp : helpers) (e : env)
    (wdev : walb_dev) (ctl : walb_ctl) : option (Z * walb_dev) :=
  let lsid := val_u64 ctl in
  let written_lsid := written (lsids wdev) in
  let oldest_lsid := oldest (lsids wdev) in
  valid ←
    (if lsid =? written_lsid then Some true
     else if (oldest_lsid <=? lsid) && (lsid <? written_lsid)
     then v ← walb_check_lsid_valid cfg hlp e wdev lsid; Some (negb (v =? 0))
     else Some false);
  if negb valid then Some (- EFAULT, wdev)
  else
    let wdev := set_lsids (set_oldest lsid (lsids wdev)) wdev in
    let '(ok, wdev) := walb_sync_super_block e wdev in
    if negb ok then Some (- EFAULT, wdev) else Some (0, wdev).

(** The record of the buffer is updated in place; the control data go back
    to the caller. *)
Definition ioctl_wdev_create_snapshot (cfg : build) (hlp : helpers) (e : env)
    (wdev : walb_dev) (ctl : walb_ctl) : option (Z * walb_dev * walb_ctl) :=
  if u2k_buf_size ctl <? snapshot_h.sizeof_walb_snapshot_record
  then Some (- EFAULT, wdev, ctl)
  else
    match u2k_buf ctl with
    | None => Some (- EFAULT, wdev, ctl)
    | Some srec =>
        srec ←
          (if snapshot_h.lsid srec =? INVALID_LSID
           then
             let srec :=
               {| snapshot_h.lsid := get_completed_lsid cfg wdev;
                  snapshot_h.timestamp := snapshot_h.timestamp srec;
                  snapshot_h.snapshot_id := snapshot_h.snapshot_id srec;
                  snapshot_h.name := snapshot_h.name srec |} in
             _ ← ASSERT cfg (Some (negb (snapshot_h.lsid srec =? INVALID_LSID)));
             Some srec
           else Some srec);
        let ctl := {| val_u64 := val_u64 ctl; val_u32 := val_u32 ctl;
                      val_int := val_int ctl; error := error ctl;
                      u2k_buf_size := u2k_buf_size ctl;
                      u2k_buf := Some srec |} in
        if negb (is_valid_snapshot_name hlp (snapshot_h.name srec))
        then Some (- EFAULT, wdev, ctl)
        else
          let '(err, wdev) :=
            snapshot_add e wdev (snapshot_h.name srec) (snapshot_h.lsid srec)
              (snapshot_h.timestamp srec) in
          match err with
          | Some k =>
              Some (- EFAULT, wdev,
                    {| val_u64 := val_u64 ctl; val_u32 := val_u32 ctl;
                       val_int := val_int ctl; error := Some k;
                       u2k_buf_size := u2k_buf_size ctl;
                       u2k_buf := u2k_buf ctl |})
          | None => Some (0, wdev, ctl)
          end
    end.

(** Resize disk: true in success, or false.  Shrinking and growing both
    leave the inode of the block device with the new size in bytes. *)
Definition resize_disk (e : env) (gd : gendisk) (new_size : Z) : bool * gendisk :=
  let old_size := capacity gd in
  if old_size =? new_size then (true, gd)
  else
    let gd := {| capacity := new_size; i_size := i_size gd |} in
    if negb (bdget_disk_ok e) then (false, gd)
    else (true, {| capacity := new_size;
                   i_size := to_i64 (to_i64 new_size * LOGICAL_BLOCK_SIZE) |}).

Definition ioctl_wdev_resize (e : env) (wdev : walb_dev) (ctl : walb_ctl)
  : Z * walb_dev :=
  let old_size := capacity (gd wdev) in
  let new_size := val_u64 ctl in
  let ddev_size := nr_sects (ddev wdev) in
  let new_size := if new_size =? 0 then ddev_size else new_size in
  if new_size <? old_size then (- EFAULT, wdev)
  else if ddev_size <? new_size then (- EFAULT, wdev)
  else if new_size =? old_size then (0, wdev)
  else
    let wdev := set_ddev_size ddev_size (set_size new_size wdev) in
    let '(ok, gd') := resize_disk e (gd wdev) new_size in
    let wdev := set_gd gd' wdev in
    if negb ok then (- EFAULT, wdev)
    else
      let '(ok, wdev) := walb_sync_super_block e wdev in
      if negb ok then (- EFAULT, wdev) else (0, wdev).

(** Invalidate lsid inside ring buffer. *)
Definition invalidate_lsid (cfg : build) (e : env) (wdev : walb_dev) (lsid : Z)
  : option (bool * walb_dev) :=
  _ ← ASSERT cfg (Some (negb (lsid =? INVALID_LSID)));
  if negb (sector_alloc_ok e) then Some (false, wdev)
  else
    off ← get_offset_of_lsid_2 cfg (lsuper0 wdev) lsid;
    if sector_write_ok e
    then Some (true,
               set_ldev (sector_write (ldev wdev) off
                           (zero_sector (physical_bs wdev))) wdev)
    else Some (false, iocore_set_readonly wdev).

Definition backup_lsid_set (wdev : walb_dev) : lsid_set := lsids wdev.

Definition restore_lsid_set (wdev : walb_dev) (lsids : lsid_set) : walb_dev :=
  set_lsids lsids wdev.

(** The exits of [ioctl_wdev_clear_log]: the labels [error1] and [error2]. *)
Definition clear_log_error1 (wdev : walb_dev) : Z * walb_dev :=
  (- EFAULT, iocore_melt (start_checkpointing wdev)).

Definition clear_log_error2 (wdev : walb_dev) (lsids : lsid_set)
    (old_ring_buffer_size : Z) : Z * walb_dev :=
  clear_log_error1
    (set_ring_buffer_size old_ring_buffer_size (restore_lsid_set wdev lsids)).

(** [ioctl_wdev_clear_log] from "Generate new uuid and salt" on. *)
Definition clear_log_commit (cfg : build) (e : env) (wdev : walb_dev)
    (lsids : lsid_set) (old_ring_buffer_size : Z) : option (Z * walb_dev) :=
  let new_uuid := random_uuid e in
  let new_salt := to_u32 (random_salt e) in
  let wdev := set_log_checksum_salt new_salt wdev in
  let super := lsuper0 wdev in
  let old_uuid := uuid super in
  let super :=
    {| checksum := checksum super; sector_size := sector_size super;
       snapshot_metadata_size := snapshot_metadata_size super;
       uuid := new_uuid; name := name super;
       super_ring_buffer_size := ring_buffer_size wdev;
       oldest_lsid := oldest_lsid super; written_lsid := written_lsid super;
       device_size := device_size super;
       super_log_checksum_salt := new_salt |} in
  let wdev := set_lsuper0 super wdev in
  lsid0_off ← get_offset_of_lsid_2 cfg super 0;
  let '(ok, wdev) := walb_sync_super_block e wdev in
  if negb ok
  then Some (clear_log_error2 (iocore_set_readonly wdev) lsids
               old_ring_buffer_size)
  else if negb (alldevs_update_uuid_ret e =? 0)
  then Some (clear_log_error2 (iocore_set_readonly wdev) lsids
               old_ring_buffer_size)
  else
    r ← invalidate_lsid cfg e wdev 0;
    let '(ok, wdev) := r in
    if negb ok
    then Some (clear_log_error2 (iocore_set_readonly wdev) lsids
                 old_ring_buffer_size)
    else
      let '(n, wdev) := snapshot_del_range e wdev 0 (to_u64 (MAX_LSID + 1)) in
      if n <? 0
      then Some (clear_log_error2 (iocore_set_readonly wdev) lsids
                   old_ring_buffer_size)
      else
        _ ← ASSERT cfg (Some (snapshot_n_records (snapd wdev) =? 0));
        Some (0, iocore_melt (start_checkpointing
                                (iocore_clear_log_overflow wdev))).

(** Clear log and detect resize of log device. *)
Definition ioctl_wdev_clear_log (cfg : build) (e : env) (wdev : walb_dev)
    (ctl : walb_ctl) : option (Z * walb_dev) :=
  let pbs := physical_bs wdev in
  let wdev := stop_checkpointing (iocore_freeze wdev) in
  let old_ldev_size := ldev_size wdev in
  let new_ldev_size := nr_sects (ldev wdev) in
  if new_ldev_size <? old_ldev_size then Some (- EFAULT, wdev)
  else
    let old_ring_buffer_size := ring_buffer_size wdev in
    let lsids0 := backup_lsid_set wdev in
    let wdev :=
      set_lsids
        {| latest := 0; flush := 0;
           completed := if WALB_FAST_ALGORITHM cfg then 0
                        else completed (lsids wdev);
           permanent := 0; written := 0; prev_written := 0; oldest := 0 |}
        wdev in
    if old_ldev_size <? new_ldev_size
    then
      let '(ok, gd') := resize_disk e (log_gd wdev) new_ldev_size in
      let wdev := set_log_gd gd' wdev in
      if negb ok then Some (clear_log_error1 (iocore_set_readonly wdev))
      else
        let wdev := set_ldev_size new_ldev_size wdev in
        a ← addr_pb pbs new_ldev_size;
        off ← get_ring_buffer_offset cfg (to_int pbs) (n_snapshots wdev);
        clear_log_commit cfg e (set_ring_buffer_size (to_u64 (a - off)) wdev)
          lsids0 old_ring_buffer_size
    else clear_log_commit cfg e wdev lsids0 old_ring_buffer_size.

(** The delayed work [freeze_dwork] runs: melt a frozen device. *)
Definition task_melt (wdev : walb_dev) : walb_dev :=
  let wdev := set_freeze_dwork None wdev in
  match freeze_state wdev with
  | FRZ_MELTED => wdev
  | FRZ_FREEZED => wdev
  | FRZ_FREEZED_WITH_TIMEOUT =>
      set_freeze_state FRZ_MELTED (iocore_melt (start_checkpointing wdev))
  end.

(** Cancel the melt work if enqueued. *)
Definition cancel_melt_work (wdev : walb_dev) : walb_dev :=
  match freeze_state wdev with
  | FRZ_FREEZED_WITH_TIMEOUT =>
      set_freeze_dwork None (set_freeze_state FRZ_FREEZED wdev)
  | _ => wdev
  end.

(** Freeze if melted and enqueue a melting work if required.  The work is
    queued with its delay in milliseconds, [timeout_sec * 1000] computed in
    [u32]. *)
Definition freeze_if_melted (wdev : walb_dev) (timeout_sec : Z) : bool * walb_dev :=
  match freeze_state wdev with
  | FRZ_FREEZED_WITH_TIMEOUT => (false, wdev)
  | st =>
      let wdev :=
        match st with
        | FRZ_MELTED =>
            set_freeze_state FRZ_FREEZED
              (stop_checkpointing (iocore_freeze wdev))
        | _ => wdev
        end in
      if 0 <? timeout_sec
      then (true,
            set_freeze_state FRZ_FREEZED_WITH_TIMEOUT
              (set_freeze_dwork (Some (to_u32 (timeout_sec * 1000))) wdev))
      else (true, wdev)
  end.

(** Melt a device if frozen. *)
Definition melt_if_frozen (wdev : walb_dev) (restarts_checkpointing : bool)
  : bool * walb_dev :=
  let wdev := cancel_melt_work wdev in
  match freeze_state wdev with
  | FRZ_MELTED => (true, wdev)
  | FRZ_FREEZED =>
      let wdev :=
        if restarts_checkpointing then start_checkpointing wdev else wdev in
      (true, set_freeze_state FRZ_MELTED (iocore_melt wdev))
  | FRZ_FREEZED_WITH_TIMEOUT => (false, wdev)
  end.

Definition ioctl_wdev_freeze (wdev : walb_dev) (ctl : walb_ctl) : Z * walb_dev :=
  let timeout_sec := val_u32 ctl in
  let timeout_sec := if 86400 <? timeout_sec then 86400 else timeout_sec in
  let wdev := cancel_melt_work wdev in
  let '(ok, wdev) := freeze_if_melted wdev timeout_sec in
  if ok then (0, wdev) else (- EFAULT, wdev).

Definition ioctl_wdev_is_frozen (wdev : walb_dev) (ctl : walb_ctl) : Z * walb_ctl :=
  let is_frozen :=
    match freeze_state wdev with FRZ_MELTED => 0 | _ => 1 end in
  (0, {| val_u64 := val_u64 ctl; val_u32 := val_u32 ctl;
         val_int := is_frozen; error := error ctl;
         u2k_buf_size := u2k_buf_size ctl; u2k_buf := u2k_buf ctl |}).

Definition ioctl_wdev_melt (wdev : walb_dev) (ctl : walb_ctl) : Z * walb_dev :=
  let wdev := cancel_melt_work wdev in
  let '(ok, wdev) := melt_if_frozen wdev true in
  if ok then (0, wdev) else (- EFAULT, wdev).

(** [prepare_wdev], from the loaded super sector on: the lsids and sizes are
    taken from the super sector [super] that [walb_ldev_initialize] read
    into [wdev->lsuper0] of the zeroed [struct walb_dev], the two disks are
    given their capacities, and redo runs.  [walb_ldev_initialize] fails
    when the block size of the super sector (its [sector_size]; [walb.c]
    calls the member [physical_bs]) is not that of the devices.  The
    parameters of the write pipeline, the queues and the device name have
    no part in it.  [None]: a trap; [Some None]: the function returns
    [NULL]. *)
Definition prepare_wdev (cfg : build) (hlp : helpers) (e : env)
    (ldev ddev : block_device) (ldev_pbs ddev_pbs : Z)
    (super : walb_super_sector) (snapd : list walb_snapshot_record)
  : option (option walb_dev) :=
  if negb (ldev_pbs =? ddev_pbs) then Some None
  else if negb (sector_size super =? ldev_pbs) then Some None
  else
    ring_buffer_off ← get_ring_buffer_offset_2 cfg super;
    let wdev :=
      {| lsids := {| latest := written_lsid super; flush := 0;
                     completed := if WALB_FAST_ALGORITHM cfg
                                  then written_lsid super else 0;
                     permanent := written_lsid super;
                     written := written_lsid super;
                     prev_written := 0;
                     oldest := oldest_lsid super |};
         lsuper0 := super;
         ring_buffer_size := super_ring_buffer_size super;
         ring_buffer_off := ring_buffer_off;
         log_checksum_salt := super_log_checksum_salt super;
         physical_bs := ldev_pbs;
         n_snapshots := 0;
         ldev_size := nr_sects ldev;
         ddev_size := nr_sects ddev;
         size := device_size super;
         ldev := ldev; ddev := ddev;
         gd := {| capacity := device_size super; i_size := 0 |};
         log_gd := {| capacity := nr_sects ldev; i_size := 0 |};
         is_read_only := false;
         freeze_state := FRZ_MELTED;
         freeze_dwork := None;
         cpd := CP_STOPPED;
         iocore_frozen := false;
         log_overflow := false;
         snapd := snapd |} in
    if ddev_size wdev <? size wdev then Some None
    else
      r ← execute_redo cfg hlp e wdev;
      let '(retb, wdev) := r in
      if negb retb then Some None
      else
        _ ← ASSERT cfg (Some (written (lsids wdev) =? latest (lsids wdev)));
        _ ← ASSERT cfg (Some (written (lsids wdev) =? flush (lsids wdev)));
        _ ← ASSERT cfg (Some (negb (WALB_FAST_ALGORITHM cfg)
                              || (written (lsids wdev)
                                  =? completed (lsids wdev))));
        Some (Some wdev).

(** ** The properties of the specification, as it states them *)

(** A sector holds as many snapshot records as fit behind its header, 32 at
    most, and the metadata take the ceiling of [n_snapshots] over that. *)
Definition metadata_size_claim (cfg : build) (sector_size n_snapshots : Z) : Prop :=
  sizeof_walb_snapshot_sector_t + sizeof_walb_snapshot_record_t ≤ sector_size →
  max_n_snapshots_in_sector sector_size = Z.min ((sector_size - 8) / 80) 32
  ∧ max_n_snapshots_in_sector sector_size ≤ 32
  ∧ get_metadata_size cfg sector_size n_snapshots
    = Some (ceil_div n_snapshots (max_n_snapshots_in_sector sector_size)).

(** The sector at the ring-buffer offset of [lsid] holds a log-pack header
    that validates under the current salt and carries [lsid]. *)
Definition lsid_references_pack (cfg : build) (hlp : helpers) (wdev : walb_dev)
    (lsid : Z) : bool :=
  match get_offset_of_lsid_2 cfg (lsuper0 wdev) lsid with
  | Some off =>
      let logh := sector_read (ldev wdev) (physical_bs wdev) off in
      is_valid_logpack_header_with_checksum hlp logh (physical_bs wdev)
        (log_checksum_salt wdev)
      && (logpack_lsid hlp logh =? lsid)
  | None => false
  end.

(** "lsid must equal [written] or lie in [[oldest, written)] and reference
    a valid pack header". *)
Definition set_oldest_accepts (cfg : build) (hlp : helpers) (wdev : walb_dev)
    (lsid : Z) : bool :=
  (lsid =? written (lsids wdev))
  || ((oldest (lsids wdev) <=? lsid) && (lsid <? written (lsids wdev))
      && lsid_references_pack cfg hlp wdev lsid).

(** The super image of the device is the one on the log device. *)
Definition super_synced (wdev : walb_dev) : Prop :=
  bd_super (ldev wdev) = Some (lsuper0 wdev).

(** SET_OLDEST_LSID succeeds exactly on the accepted lsids; success sets
    [oldest] and syncs, rejection leaves [oldest] and returns an error. *)
Definition set_oldest_claim (cfg : build) (hlp : helpers) (e : env)
    (wdev : walb_dev) (ctl : walb_ctl) : Prop :=
  ∀ ret wdev', ioctl_wdev_set_oldest_lsid cfg hlp e wdev ctl = Some (ret, wdev') →
    (ret = 0 ↔ set_oldest_accepts cfg hlp wdev (val_u64 ctl) = true)
    ∧ (ret = 0 → oldest (lsids wdev') = val_u64 ctl ∧ super_synced wdev')
    ∧ (ret ≠ 0 → ret = - EFAULT ∧ oldest (lsids wdev') = oldest (lsids wdev)).

(** RESIZE: smaller than the exposed size fails and changes nothing, larger
    than the data device fails, equal succeeds without change, otherwise
    the size becomes [new_size] and the super block is synced; the exposed
    size stays within the data device. *)
Definition resize_claim (e : env) (wdev : walb_dev) (ctl : walb_ctl) : Prop :=
  let new_size := val_u64 ctl in
  let r := ioctl_wdev_resize e wdev ctl in
  (new_size < capacity (gd wdev) → r.1 ≠ 0 ∧ size (r.2) = size wdev)
  ∧ (nr_sects (ddev wdev) < new_size → r.1 ≠ 0)
  ∧ (new_size = capacity (gd wdev) → r.1 = 0 ∧ r.2 = wdev)
  ∧ (capacity (gd wdev) < new_size ≤ nr_sects (ddev wdev) →
     size (r.2) = new_size ∧ super_synced (r.2))
  ∧ (size wdev ≤ ddev_size wdev → size (r.2) ≤ ddev_size (r.2)).

(** MELT: it succeeds and leaves the device melted with the pack stage and
    checkpointing resumed; a scheduled melt is cancelled; on a melted
    device nothing changes; a second MELT changes nothing more. *)
Definition melt_claim (wdev : walb_dev) (ctl ctl' : walb_ctl) : Prop :=
  let r := ioctl_wdev_melt wdev ctl in
  r.1 = 0
  ∧ freeze_state (r.2) = FRZ_MELTED
  ∧ iocore_frozen (r.2) = false ∧ cpd (r.2) = CP_RUNNING
  ∧ (freeze_state wdev = FRZ_FREEZED_WITH_TIMEOUT → freeze_dwork (r.2) = None)
  ∧ (freeze_state wdev = FRZ_MELTED → r.2 = wdev)
  ∧ ioctl_wdev_melt (r.2) ctl' = (0, r.2).

(** What a successful CLEAR_LOG leaves behind, the freeze state apart. *)
Definition clear_log_done (cfg : build) (e : env) (wdev wdev' : walb_dev) : Prop :=
  latest (lsids wdev') = 0 ∧ flush (lsids wdev') = 0
  ∧ get_completed_lsid cfg wdev' = 0 ∧ permanent (lsids wdev') = 0
  ∧ written (lsids wdev') = 0 ∧ prev_written (lsids wdev') = 0
  ∧ oldest (lsids wdev') = 0
  ∧ uuid (lsuper0 wdev') = random_uuid e
  ∧ super_log_checksum_salt (lsuper0 wdev') = to_u32 (random_salt e)
  ∧ log_checksum_salt wdev' = to_u32 (random_salt e)
  ∧ super_synced wdev'
  ∧ (if ldev_size wdev <? nr_sects (ldev wdev)
     then ∃ a off,
         addr_pb (physical_bs wdev) (nr_sects (ldev wdev)) = Some a
         ∧ get_ring_buffer_offset cfg (to_int (physical_bs wdev))
             (n_snapshots wdev) = Some off
         ∧ ring_buffer_size wdev' = to_u64 (a - off)
     else ring_buffer_size wdev' = ring_buffer_size wdev)
  ∧ super_ring_buffer_size (lsuper0 wdev') = ring_buffer_size wdev'
  ∧ snapshot_n_records (snapd wdev') = 0
  ∧ (∃ off, get_offset_of_lsid_2 cfg (lsuper0 wdev') 0 = Some off
            ∧ bd_sectors (ldev wdev') !! off
              = Some (zero_sector (physical_bs wdev)))
  ∧ log_overflow wdev' = false
  ∧ cpd wdev' = CP_RUNNING ∧ iocore_frozen wdev' = false.

(** After a successful CLEAR_LOG all of the above, and the device is
    melted. *)
Definition clear_log_claim (cfg : build) (e : env) (wdev : walb_dev)
    (ctl : walb_ctl) : Prop :=
  ∀ wdev', ioctl_wdev_clear_log cfg e wdev ctl = Some (0, wdev') →
    clear_log_done cfg e wdev wdev' ∧ freeze_state wdev' = FRZ_MELTED.

(** The assertion on the sector size passes: always in a release build, and
    in a debug build for a sector size that divides the page size. *)
Definition sector_size_asserted (cfg : build) (sector_size : Z) : Prop :=
  WALB_DEBUG cfg = true →
  PAGE_SIZE cfg mod sector_size = 0 ∧ sector_size ≤ PAGE_SIZE cfg.

(** The check SET_OLDEST_LSID makes: the words of the specification, and
    the sector has to be allocated and read. *)
Definition set_oldest_checked (cfg : build) (hlp : helpers) (e : env)
    (wdev : walb_dev) (lsid : Z) : bool :=
  (lsid =? written (lsids wdev))
  || ((oldest (lsids wdev) <=? lsid) && (lsid <? written (lsids wdev))
      && (sector_alloc_ok e && sector_read_ok e
          && lsid_references_pack cfg hlp wdev lsid)).

(** ** More of the module ([walb.c]) *)

Definition ENOTTY : Z := 25.

(** [HDIO_GETGEO] of [linux/hdreg.h], 0x0301. *)
Definition HDIO_GETGEO : Z := 769.

Definition to_u16 (x : Z) : Z := x mod 2 ^ 16.

(** [struct hd_geometry] of [linux/hdreg.h]: [heads] and [sectors] are
    [unsigned char], [cylinders] is an [unsigned short], [start] an
    [unsigned long]. *)
Record hd_geometry : Type := {
  heads : Z;
  sectors : Z;
  cylinders : Z;
  start : Z
}.

(** The ioctl of the walblog device.  The size goes through a [long]; the
    mask and the shift are those of the source.  [copy_to_user_ok]: whether
    the geometry reaches the caller. *)
Definition walblog_ioctl (copy_to_user_ok : bool) (wdev : walb_dev) (cmd : Z)
  : Z * option hd_geometry :=
  if cmd =? HDIO_GETGEO then
    let size := to_i64 (ldev_size wdev) in
    let geo :=
      {| heads := 4; sectors := 16;
         cylinders := to_u16 (Z.shiftr (Z.land size (Z.lnot 63)) 6);
         start := 4 |} in
    if copy_to_user_ok then (0, Some geo) else (- EFAULT, None)
  else (- ENOTTY, None).

Definition set_val_u64 (v : Z) (ctl : walb_ctl) : walb_ctl :=
  {| val_u64 := v; val_u32 := val_u32 ctl; val_int := val_int ctl;
     error := error ctl; u2k_buf_size := u2k_buf_size ctl;
     u2k_buf := u2k_buf ctl |}.

Definition set_val_int (v : Z) (ctl : walb_ctl) : walb_ctl :=
  {| val_u64 := val_u64 ctl; val_u32 := val_u32 ctl; val_int := v;
     error := error ctl; u2k_buf_size := u2k_buf_size ctl;
     u2k_buf := u2k_buf ctl |}.

(** Get log usage [physical block]. *)
Definition get_log_usage (cfg : build) (wdev : walb_dev) : option Z :=
  let latest_lsid := latest (lsids wdev) in
  let oldest_lsid := oldest (lsids wdev) in
  _ ← ASSERT cfg (Some (oldest_lsid <=? latest_lsid));
  Some (to_u64 (latest_lsid - oldest_lsid)).

Definition ioctl_wdev_get_written_lsid (wdev : walb_dev) (ctl : walb_ctl)
  : Z * walb_ctl :=
  (0, set_val_u64 (get_written_lsid wdev) ctl).

Definition ioctl_wdev_get_permanent_lsid (wdev : walb_dev) (ctl : walb_ctl)
  : Z * walb_ctl :=
  (0, set_val_u64 (get_permanent_lsid wdev) ctl).

Definition ioctl_wdev_get_completed_lsid (cfg : build) (wdev : walb_dev)
    (ctl : walb_ctl) : Z * walb_ctl :=
  (0, set_val_u64 (get_completed_lsid cfg wdev) ctl).

Definition ioctl_wdev_get_log_usage (cfg : build) (wdev : walb_dev)
    (ctl : walb_ctl) : option (Z * walb_ctl) :=
  usage ← get_log_usage cfg wdev;
  Some (0, set_val_u64 usage ctl).

Definition ioctl_wdev_get_log_capacity (wdev : walb_dev) (ctl : walb_ctl)
  : Z * walb_ctl :=
  (0, set_val_u64 (get_log_capacity wdev) ctl).

Definition ioctl_wdev_is_log_overflow (wdev : walb_dev) (ctl : walb_ctl)
  : Z * walb_ctl :=
  (0, set_val_int (iocore_is_log_overflow wdev) ctl).

(** Modelled from the spec: [take_checkpoint] of [checkpoint.c] is missing.
    One checkpoint "snapshots [oldest_lsid] and [written_lsid] into the
    super image and calls [sync_super]". *)
Definition take_checkpoint (e : env) (wdev : walb_dev) : bool * walb_dev :=
  walb_sync_super_block e wdev.

(** Take a checkpoint immediately. *)
Definition ioctl_wdev_take_checkpoint (cfg : build) (e : env) (wdev : walb_dev)
    (ctl : walb_ctl) : option (Z * walb_dev) :=
  let wdev := stop_checkpointing wdev in
  _ ← ASSERT cfg (Some (match cpd wdev with CP_STOPPED => true | _ => false end));
  let '(ret, wdev) := take_checkpoint e wdev in
  if negb ret then Some (- EFAULT, set_is_read_only true wdev)
  else Some (0, start_checkpointing wdev).

(** The melt work is queued exactly in the state frozen-with-timeout. *)
Definition freeze_consistent (wdev : walb_dev) : Prop :=
  is_Some (freeze_dwork wdev) ↔ freeze_state wdev = FRZ_FREEZED_WITH_TIMEOUT.

(** The lsids and sizes of a device are in the range of their C types. *)
Definition lsids_u64 (l : lsid_set) : Prop :=
  is_u64 (latest l) ∧ is_u64 (oldest l).

(** ** Asynchronous IO of the log tools ([tool/wlog/aio_util.hpp])

    The objects [AioDataPtr] points to live in a heap, by address, so that
    the queues and the map of pending IOs share them as in the source.  What
    the kernel answers to [io_submit], [io_cancel] and [io_getevents] is an
    input.  A failed [assert] and the use of a null pointer end in [Abort];
    [ndebug] tells whether the asserts are compiled out.  The times are
    values of a clock that is read where the source reads it. *)

Module aio.

Definition UINT_MAX : Z := 2 ^ 32 - 1.

Inductive IoType : Type :=
  | IOTYPE_READ
  | IOTYPE_WRITE
  | IOTYPE_FLUSH.

(** [struct AioData]; the [iocb] is its fields [type], [oft], [size], [buf]
    and, as [iocb.data], the key. *)
Record AioData : Type := {
  key : Z;
  type : IoType;
  oft : Z;
  size : Z;
  buf : Z;
  beginTime : Z;
  endTime : Z;
  done : bool
}.

Inductive exn : Type :=
  | LibcError (errnum : Z)
  | RuntimeError
  | EofError.

(** [class Aio], with the key counter of its allocator and the heap. *)
Record Aio : Type := {
  queueSize_ : Z;
  key_ : Z;
  heap : gmap nat AioData;
  next_ptr : nat;
  submitQueue_ : list nat;
  pendingIOs_ : gmap Z nat;
  completedIOs_ : list nat;
  isMeasureTime_ : bool;
  released : bool
}.

(** How a member function ends: it returns, it throws, it aborts, or it
    waits for an event that does not come. *)
Inductive result (A : Type) : Type :=
  | Ok (a : A) (s : Aio)
  | Throw (ex : exn) (s : Aio)
  | Abort
  | Blocked (s : Aio).

Arguments Ok {A} a s.
Arguments Throw {A} ex s.
Arguments Abort {A}.
Arguments Blocked {A} s.

(** One completion event: the object whose [iocb] completed and the result
    of the IO. *)
Record io_event : Type := {
  obj : nat;
  res : Z
}.

(** One call of [io_getevents]: the clock after it, and an error code or
    the events it delivered. *)
Record getevents : Type := {
  ge_time : Z;
  ge_ret : Z + list io_event
}.

Definition set_done (b : bool) (t : Z) (d : AioData) : AioData :=
  {| key := key d; type := type d; oft := oft d; size := size d;
     buf := buf d; beginTime := beginTime d; endTime := t; done := b |}.

Definition set_beginTime (t : Z) (d : AioData) : AioData :=
  {| key := key d; type := type d; oft := oft d; size := size d;
     buf := buf d; beginTime := t; endTime := endTime d; done := done d |}.

Definition set_key_ (v : Z) (s : Aio) : Aio :=
  {| queueSize_ := queueSize_ s; key_ := v; heap := heap s;
     next_ptr := next_ptr s; submitQueue_ := submitQueue_ s;
     pendingIOs_ := pendingIOs_ s; completedIOs_ := completedIOs_ s;
     isMeasureTime_ := isMeasureTime_ s; released := released s |}.

Definition set_heap (v : gmap nat AioData) (s : Aio) : Aio :=
  {| queueSize_ := queueSize_ s; key_ := key_ s; heap := v;
     next_ptr := next_ptr s; submitQueue_ := submitQueue_ s;
     pendingIOs_ := pendingIOs_ s; completedIOs_ := completedIOs_ s;
     isMeasureTime_ := isMeasureTime_ s; released := released s |}.

Definition set_submitQueue_ (v : list nat) (s : Aio) : Aio :=
  {| queueSize_ := queueSize_ s; key_ := key_ s; heap := heap s;
     next_ptr := next_ptr s; submitQueue_ := v;
     pendingIOs_ := pendingIOs_ s; completedIOs_ := completedIOs_ s;
     isMeasureTime_ := isMeasureTime_ s; released := released s |}.

Definition set_pendingIOs_ (v : gmap Z nat) (s : Aio) : Aio :=
  {| queueSize_ := queueSize_ s; key_ := key_ s; heap := heap s;
     next_ptr := next_ptr s; submitQueue_ := submitQueue_ s;
     pendingIOs_ := v; completedIOs_ := completedIOs_ s;
     isMeasureTime_ := isMeasureTime_ s; released := released s |}.

Definition set_completedIOs_ (v : list nat) (s : Aio) : Aio :=
  {| queueSize_ := queueSize_ s; key_ := key_ s; heap := heap s;
     next_ptr := next_ptr s; submitQueue_ := submitQueue_ s;
     pendingIOs_ := pendingIOs_ s; completedIOs_ := v;
     isMeasureTime_ := isMeasureTime_ s; released := released s |}.

Definition set_released (v : bool) (s : Aio) : Aio :=
  {| queueSize_ := queueSize_ s; key_ := key_ s; heap := heap s;
     next_ptr := next_ptr s; submitQueue_ := submitQueue_ s;
     pendingIOs_ := pendingIOs_ s; completedIOs_ := completedIOs_ s;
     isMeasureTime_ := isMeasureTime_ s; released := v |}.

(** [AioDataAllocator::getKey]: the key returned and the next one. *)
Definition getKey (key_ : Z) : Z * Z :=
  (key_, if key_ =? UINT_MAX then to_u32 (key_ + 2) else to_u32 (key_ + 1)).

(** The key counter after [n] calls of [getKey]. *)
Definition key_after (n : nat) (key_ : Z) : Z :=
  Nat.iter n (λ k, (getKey k).2) key_.

(** [AioDataAllocator::alloc]: a new object, from the buffer or from the
    free store, that carries the next key. *)
Definition alloc (s : Aio) : nat * Aio :=
  let '(k, key') := getKey (key_ s) in
  let p := next_ptr s in
  let d := {| key := k; type := IOTYPE_READ; oft := 0; size := 0; buf := 0;
              beginTime := 0; endTime := 0; done := false |} in
  (p, {| queueSize_ := queueSize_ s; key_ := key';
         heap := <[p := d]> (heap s); next_ptr := S p;
         submitQueue_ := submitQueue_ s; pendingIOs_ := pendingIOs_ s;
         completedIOs_ := completedIOs_ s;
         isMeasureTime_ := isMeasureTime_ s; released := released s |}).

(** The constructor: [err] is what [io_queue_init] returns. *)
Definition Aio_new (ndebug : bool) (fd : Z) (queueSize : Z)
    (isMeasureTime : bool) (err : Z) : option (exn + Aio) :=
  if negb ndebug && ((fd <? 0) || (queueSize <=? 0)) then None
  else if err <? 0 then Some (inl (LibcError (- err)))
  else Some (inr {| queueSize_ := queueSize; key_ := 1; heap := ∅;
                    next_ptr := O; submitQueue_ := []; pendingIOs_ := ∅;
                    completedIOs_ := []; isMeasureTime_ := isMeasureTime;
                    released := false |}).

(** [release]: the queue is released once; a failed release may be tried
    again. *)
Definition release (err : Z) (s : Aio) : result unit :=
  if released s then Ok tt s
  else if err <? 0 then Throw (LibcError (- err)) s
  else Ok tt (set_released true s).

(** The three [prepare] functions differ in the fields they set. *)
Definition prepare (ndebug : bool) (ty : IoType) (oft size buf : Z) (s : Aio)
  : result Z :=
  if queueSize_ s <=? Z.of_nat (length (submitQueue_ s)) then Ok 0 s
  else
    let '(p, s) := alloc s in
    match heap s !! p with
    | None => Abort
    | Some d =>
        if negb ndebug && (key d =? 0) then Abort
        else
          let d := {| key := key d; type := ty; oft := oft; size := size;
                      buf := buf; beginTime := 0; endTime := 0;
                      done := false |} in
          Ok (key d)
             (set_heap (<[p := d]> (heap s))
                (set_submitQueue_ (submitQueue_ s ++ [p]) s))
    end.

Definition prepareRead (ndebug : bool) (oft size buf : Z) (s : Aio) : result Z :=
  prepare ndebug IOTYPE_READ oft size buf s.

Definition prepareWrite (ndebug : bool) (oft size buf : Z) (s : Aio) : result Z :=
  prepare ndebug IOTYPE_WRITE oft size buf s.

Definition prepareFlush (ndebug : bool) (s : Aio) : result Z :=
  prepare ndebug IOTYPE_FLUSH 0 0 0 s.

(** The first loop of [submit]: every prepared IO becomes pending.
    [insert] of a key that is there leaves the map as it is. *)
Fixpoint submit_move (ndebug : bool) (beginTime : Z) (q : list nat) (s : Aio)
  : option Aio :=
  match q with
  | [] => Some (set_submitQueue_ [] s)
  | p :: q =>
      match heap s !! p with
      | None => None
      | Some d =>
          let s := set_heap (<[p := set_beginTime beginTime d]> (heap s)) s in
          match pendingIOs_ s !! key d with
          | Some _ => if ndebug then submit_move ndebug beginTime q s else None
          | None =>
              submit_move ndebug beginTime q
                (set_pendingIOs_ (<[key d := p]> (pendingIOs_ s)) s)
          end
      end
  end.

(** The second loop of [submit]: [io_submit] until all are submitted. *)
Fixpoint submit_loop (rets : list Z) (todo : Z) (s : Aio) : result unit :=
  if todo <=? 0 then Ok tt s
  else
    match rets with
    | [] => Blocked s
    | err :: rets =>
        if err <? 0 then Throw (LibcError (- err)) s
        else submit_loop rets (todo - err) s
    end.

Definition submit (ndebug : bool) (now : Z) (rets : list Z) (s : Aio)
  : result unit :=
  let nr := Z.of_nat (length (submitQueue_ s)) in
  if nr =? 0 then Ok tt s
  else if negb ndebug && (queueSize_ s <? nr) then Abort
  else
    let beginTime := if isMeasureTime_ s then now else 0 in
    match submit_move ndebug beginTime (submitQueue_ s) s with
    | None => Abort
    | Some s => submit_loop rets nr s
    end.

(** [cancel]: [err] is what [io_cancel] returns. *)
Definition cancel (key : Z) (err : Z) (s : Aio) : result unit :=
  match pendingIOs_ s !! key with
  | None => Throw RuntimeError s
  | Some p0 => if err =? 0 then Ok tt s else Throw (LibcError err) s
  end.

(** What [wait_] and [waitOne_] do with one event that is no error: the
    object of the key is marked done and, if asked, erased from the pending
    IOs. *)
Definition complete (ndebug : bool) (isDelete : bool) (endTime : Z) (k : Z)
    (s : Aio) : option (nat * Aio) :=
  match pendingIOs_ s !! k with
  | None => None
  | Some ptr =>
      match heap s !! ptr with
      | None => None
      | Some d =>
          if negb ndebug && done d then None
          else
            let s := set_heap (<[ptr := set_done true endTime d]> (heap s)) s in
            Some (ptr,
                  if isDelete
                  then set_pendingIOs_ (delete k (pendingIOs_ s)) s
                  else s)
      end
  end.

Definition waitOne_ (ndebug : bool) (isDelete : bool) (r : getevents) (s : Aio)
  : result nat :=
  let endTime := if isMeasureTime_ s then ge_time r else 0 in
  match ge_ret r with
  | inl err => if err <? 0 then Throw (LibcError (- err)) s
               else Throw RuntimeError s
  | inr [event] =>
      match heap s !! obj event with
      | None => Abort
      | Some iocb =>
          if res event =? 0 then Throw EofError s
          else if negb (res event =? size iocb) then Throw RuntimeError s
          else
            match complete ndebug isDelete endTime (key iocb) s with
            | None => Abort
            | Some (ptr, s) => Ok ptr s
            end
      end
  | inr _ => Throw RuntimeError s
  end.

(** The events of one call of [io_getevents] in [wait_]. *)
Fixpoint wait_events (ndebug : bool) (isDelete : bool) (endTime : Z)
    (events : list io_event) (acc : list nat * bool * bool) (s : Aio)
  : option (list nat * bool * bool * Aio) :=
  match events with
  | [] => Some (acc, s)
  | event :: events =>
      let '(queue, isEofError, isOtherError) := acc in
      match heap s !! obj event with
      | None => None
      | Some iocb =>
          let isEofError := isEofError || (res event =? 0) in
          let isOtherError :=
            isOtherError
            || (negb (res event =? 0) && negb (res event =? size iocb)) in
          match complete ndebug isDelete endTime (key iocb) s with
          | None => None
          | Some (ptr, s) =>
              wait_events ndebug isDelete endTime events
                (queue ++ [ptr], isEofError, isOtherError) s
          end
      end
  end.

Fixpoint wait_loop (ndebug : bool) (isDelete : bool) (rs : list getevents)
    (todo : Z) (acc : list nat * bool * bool) (s : Aio)
  : result (list nat) :=
  if todo <=? 0 then
    let '(queue, isEofError, isOtherError) := acc in
    if isOtherError then Throw RuntimeError s
    else if isEofError then Throw EofError s
    else Ok queue s
  else
    match rs with
    | [] => Blocked s
    | r :: rs =>
        match ge_ret r with
        | inl err => if err <? 0 then Throw (LibcError (- err)) s
                     else Throw RuntimeError s
        | inr [] => Throw RuntimeError s
        | inr events =>
            let endTime := if isMeasureTime_ s then ge_time r else 0 in
            match wait_events ndebug isDelete endTime events acc s with
            | None => Abort
            | Some (acc, s) =>
                wait_loop ndebug isDelete rs
                  (todo - Z.of_nat (length events)) acc s
            end
        end
    end.

Definition wait_ (ndebug : bool) (nr : Z) (isDelete : bool)
    (rs : list getevents) (s : Aio) : result (list nat) :=
  wait_loop ndebug isDelete rs nr ([], false, false) s.

(** The loop of [waitFor]. *)
Fixpoint waitFor_loop (ndebug : bool) (p0 : nat) (rs : list getevents)
    (s : Aio) : result unit :=
  match heap s !! p0 with
  | None => Abort
  | Some d0 =>
      if done d0 then Ok tt s
      else
        match rs with
        | [] => Blocked s
        | r :: rs =>
            match waitOne_ ndebug false r s with
            | Ok p1 s =>
                match heap s !! p1 with
                | None => Abort
                | Some d1 =>
                    let s :=
                      set_heap (<[p1 := set_done true (endTime d1) d1]>
                                  (heap s)) s in
                    let s :=
                      if negb (Nat.eqb p0 p1)
                      then set_completedIOs_ (completedIOs_ s ++ [p1]) s
                      else s in
                    waitFor_loop ndebug p0 rs s
                end
            | Throw ex s => Throw ex s
            | Abort => Abort
            | Blocked s => Blocked s
            end
        end
  end.

Definition waitFor (ndebug : bool) (key : Z) (rs : list getevents) (s : Aio)
  : result unit :=
  match pendingIOs_ s !! key with
  | None => Throw RuntimeError s
  | Some p0 =>
      match waitFor_loop ndebug p0 rs s with
      | Ok _ s => Ok tt (set_pendingIOs_ (delete key (pendingIOs_ s)) s)
      | other => other
      end
  end.

Definition isCompleted (key : Z) (s : Aio) : result bool :=
  match pendingIOs_ s !! key with
  | None => Throw RuntimeError s
  | Some p0 =>
      match heap s !! p0 with
      | None => Abort
      | Some d => Ok (done d) s
      end
  end.

(** A completed IO leaves [completedIOs_]: its key, and the state without
    it. *)
Definition pop_completed (ndebug : bool) (p : nat) (rest : list nat) (s : Aio)
  : option (Z * Aio) :=
  match heap s !! p with
  | None => None
  | Some d =>
      if negb ndebug && negb (bool_decide (is_Some (pendingIOs_ s !! key d)))
      then None
      else
        Some (key d,
              set_pendingIOs_ (delete (key d) (pendingIOs_ s))
                (set_completedIOs_ rest s))
  end.

(** The first loop of [wait]: completed IOs first. *)
Fixpoint wait_completed (ndebug : bool) (fuel : nat) (nr : Z) (queue : list Z)
    (s : Aio) : option (Z * list Z * Aio) :=
  match fuel with
  | O => Some (nr, queue, s)
  | S fuel =>
      if nr <=? 0 then Some (nr, queue, s)
      else
        match completedIOs_ s with
        | [] => Some (nr, queue, s)
        | p :: rest =>
            match pop_completed ndebug p rest s with
            | None => None
            | Some (k, s) => wait_completed ndebug fuel (nr - 1) (queue ++ [k]) s
            end
        end
  end.

(** The keys of the objects [wait_] returned. *)
Definition keys_of (s : Aio) (ptrs : list nat) : option (list Z) :=
  mapM (λ p, key <$> heap s !! p) ptrs.

(** [wait]: the queue of the caller as it is left, and how the call ends.
    The keys of the completed IOs are in the queue before [wait_] can
    throw. *)
Definition wait (ndebug : bool) (nr : Z) (queue : list Z) (rs : list getevents)
    (s : Aio) : list Z * result unit :=
  match wait_completed ndebug (length (completedIOs_ s)) nr queue s with
  | None => (queue, Abort)
  | Some (nr, queue, s) =>
      if 0 <? nr then
        match wait_ ndebug nr true rs s with
        | Ok q s =>
            match keys_of s q with
            | None => (queue, Abort)
            | Some ks => (queue ++ ks, Ok tt s)
            end
        | Throw ex s => (queue, Throw ex s)
        | Abort => (queue, Abort)
        | Blocked s => (queue, Blocked s)
        end
      else (queue, Ok tt s)
  end.

Definition waitOne (ndebug : bool) (rs : list getevents) (s : Aio) : result Z :=
  match completedIOs_ s with
  | [] =>
      match rs with
      | [] => Blocked s
      | r :: _ =>
          match waitOne_ ndebug true r s with
          | Ok p s =>
              match heap s !! p with
              | None => Abort
              | Some d => Ok (key d) s
              end
          | Throw ex s => Throw ex s
          | Abort => Abort
          | Blocked s => Blocked s
          end
      end
  | p :: rest =>
      match pop_completed ndebug p rest s with
      | None => Abort
      | Some (k, s) => Ok k s
      end
  end.

(** Every pending key leads to an object that carries it. *)
Definition pending_consistent (s : Aio) : Prop :=
  map_Forall (λ k p, key <$> heap s !! p = Some k) (pendingIOs_ s).

(** The event [r] of [io_getevents] completes the IO at [p], which is
    pending and not done, with all of its bytes. *)
Definition completes (s : Aio) (r : getevents) (p : nat) : Prop :=
  ∃ d, heap s !! p = Some d
       ∧ done d = false
       ∧ pendingIOs_ s !! key d = Some p
       ∧ size d ≠ 0
       ∧ ge_ret r = inr [{| obj := p; res := size d |}].

(** The state a call leaves, if it leaves one. *)
Definition state_of {A : Type} (r : result A) (s0 : Aio) : Aio :=
  match r with
  | Ok _ s | Throw _ s | Blocked s => s
  | Abort => s0
  end.

End aio.

(** ** Data for the examples *)

(** A build for the examples: 4 KiB pages, debug checks on. *)
Definition cfg0 : build :=
  {| PAGE_SIZE := 4096; WALB_DEBUG := true; WALB_FAST_ALGORITHM := true |}.

(** A toy codec: a log-pack header sector is
    [1; salt; logpack_lsid; total_io_size; ...]. *)
Definition hlp0 : helpers :=
  {| is_valid_logpack_header_with_checksum := λ sect pbs salt,
       match sect with
       | tag :: s :: _ => (tag =? 1) && (s =? salt)
       | _ => false
       end;
     logpack_lsid := λ sect, nth 2 sect 0;
     logpack_size := λ sect, 1 + nth 3 sect 0;
     redo_pack := λ logh ldev ddev, (true, logh, ddev);
     is_valid_snapshot_name := λ s, negb (Nat.eqb (String.length s) 0) |}.

(** A log device of 4 KiB blocks with four snapshot sectors: the ring
    starts at block 1 + 1 + 4 + 1 = 7 and holds one pack of 1 + 8 blocks at
    lsid 0. *)
Definition super0 : walb_super_sector :=
  {| checksum := 0; sector_size := 4096; snapshot_metadata_size := 4;
     uuid := replicate 16 1; name := "0";
     super_ring_buffer_size := 1024; oldest_lsid := 0; written_lsid := 9;
     device_size := 2048; super_log_checksum_salt := 7 |}.

Definition ldev0 : block_device :=
  {| nr_sects := 16384; bd_super := Some super0;
     bd_sectors := {[ 7 := [1; 7; 0; 8] ]} |}.

Definition ddev0 : block_device :=
  {| nr_sects := 4096; bd_super := None; bd_sectors := ∅ |}.

Definition wdev0 : walb_dev :=
  {| lsids := {| latest := 9; flush := 9; completed := 9; permanent := 9;
                 written := 9; prev_written := 9; oldest := 0 |};
     lsuper0 := super0;
     ring_buffer_size := 1024; ring_buffer_off := 7;
     log_checksum_salt := 7; physical_bs := 4096; n_snapshots := 0;
     ldev_size := 16384; ddev_size := 4096; size := 2048;
     ldev := ldev0; ddev := ddev0;
     gd := {| capacity := 2048; i_size := 2048 * 512 |};
     log_gd := {| capacity := 16384; i_size := 16384 * 512 |};
     is_read_only := false;
     freeze_state := FRZ_MELTED; freeze_dwork := None;
     cpd := CP_RUNNING; iocore_frozen := false; log_overflow := true;
     snapd := [ {| lsid := 0; timestamp := 100; snapshot_name := "s1" |} ] |}.

(** The same device after FREEZE without a timeout. *)
Definition wdev0_frozen : walb_dev :=
  set_freeze_state FRZ_FREEZED (stop_checkpointing (iocore_freeze wdev0)).

(** The same device after its log device has grown to twice the size. *)
Definition wdev0_grown : walb_dev :=
  set_ldev {| nr_sects := 32768; bd_super := Some super0;
              bd_sectors := {[ 7 := [1; 7; 0; 8] ]} |} wdev0.

Definition env_ok : env :=
  {| sector_alloc_ok := true; sector_read_ok := true; sector_write_ok := true;
     sync_super_ok := true; snapshot_write_ok := true; bdget_disk_ok := true;
     alldevs_update_uuid_ret := 0;
     random_uuid := replicate 16 2; random_salt := 99 |}.

Definition env_sync_fails : env :=
  {| sector_alloc_ok := true; sector_read_ok := true; sector_write_ok := true;
     sync_super_ok := false; snapshot_write_ok := true; bdget_disk_ok := true;
     alldevs_update_uuid_ret := 0;
     random_uuid := replicate 16 2; random_salt := 99 |}.

Definition ctl_u64 (v : Z) : walb_ctl :=
  {| val_u64 := v; val_u32 := 0; val_int := 0; error := None;
     u2k_buf_size := 0; u2k_buf := None |}.

Definition ctl_u32 (v : Z) : walb_ctl :=
  {| val_u64 := 0; val_u32 := v; val_int := 0; error := None;
     u2k_buf_size := 0; u2k_buf := None |}.

Definition ctl_snapshot (srec : snapshot_h.walb_snapshot_record) : walb_ctl :=
  {| val_u64 := 0; val_u32 := 0; val_int := 0; error := None;
     u2k_buf_size := 84; u2k_buf := Some srec |}.

(** A request for a snapshot at the completed lsid. *)
Definition srec_s2 : snapshot_h.walb_snapshot_record :=
  {| snapshot_h.lsid := INVALID_LSID; snapshot_h.timestamp := 5;
     snapshot_h.snapshot_id := 0; snapshot_h.name := "s2" |}.

(** The device after a crash before the first checkpoint: the pack at lsid
    0 is on the log device, the super sector still says [written_lsid = 0]. *)
Definition super_crashed : walb_super_sector :=
  {| checksum := 0; sector_size := 4096; snapshot_metadata_size := 4;
     uuid := replicate 16 1; name := "0";
     super_ring_buffer_size := 1024; oldest_lsid := 0; written_lsid := 0;
     device_size := 2048; super_log_checksum_salt := 7 |}.

Definition ldev_crashed : block_device :=
  {| nr_sects := 16384; bd_super := Some super_crashed;
     bd_sectors := {[ 7 := [1; 7; 0; 8] ]} |}.

Definition wdev_restarted : walb_dev :=
  Eval vm_compute in
    match prepare_wdev cfg0 hlp0 env_ok ldev_crashed ddev0 4096 4096
            super_crashed [] with
    | Some (Some wdev) => wdev
    | _ => wdev0
    end.

(** The results of CLEAR_LOG on the grown device, with a working and with a
    failing super block sync, and on the frozen device. *)
Definition clear_log_result (e : env) (wdev : walb_dev) : Z * walb_dev :=
  default (0, wdev) (ioctl_wdev_clear_log cfg0 e wdev (ctl_u64 0)).

(** The device records a log device of 20000 sectors and finds 16384: the
    log device has shrunk.  CLEAR_LOG returns its error on it. *)
Definition wdev0_shrunk : walb_dev := set_ldev_size 20000 wdev0.

Definition wdev0_clear_failed : walb_dev :=
  (clear_log_result env_ok wdev0_shrunk).2.

(** The log tool opens a queue of four IOs, prepares a write and two
    reads, and submits them; then it waits for the last one while the
    first two complete. *)
Definition aio_new : aio.Aio :=
  {| aio.queueSize_ := 4; aio.key_ := 1; aio.heap := ∅; aio.next_ptr := O;
     aio.submitQueue_ := []; aio.pendingIOs_ := ∅; aio.completedIOs_ := [];
     aio.isMeasureTime_ := false; aio.released := false |}.

Definition aio_prepared : aio.Aio :=
  let s := aio.state_of (aio.prepareWrite false 0 512 100 aio_new) aio_new in
  let s := aio.state_of (aio.prepareRead false 512 512 200 s) aio_new in
  aio.state_of (aio.prepareRead false 1024 512 300 s) aio_new.

Definition aio_submitted : aio.Aio :=
  aio.state_of (aio.submit false 0 [3] aio_prepared) aio_new.

Definition aio_event (p : nat) (n : Z) : aio.getevents :=
  {| aio.ge_time := 0; aio.ge_ret := inr [{| aio.obj := p; aio.res := n |}] |}.

Definition aio_waited : aio.Aio :=
  aio.state_of
    (aio.waitFor false 3
       [aio_event 0 512; aio_event 1 512; aio_event 2 512] aio_submitted)
    aio_new.

(** * Properties *)

(** ** C integers *)

Lemma to_u64_small (x : Z) : is_u64 x → to_u64 x = x.
Proof. unfold is_u64, to_u64. intros H. apply Z.mod_small. lia. Qed.

Lemma to_u32_small (x : Z) : is_u32 x → to_u32 x = x.
Proof. unfold is_u32, to_u32. intros H. apply Z.mod_small. lia. Qed.

Lemma to_int_small (x : Z) : is_int x → to_int x = x.
Proof.
  unfold is_int, to_int. intros H.
  rewrite Z.mod_small; lia.
Qed.

Lemma to_u64_range (x : Z) : is_u64 (to_u64 x).
Proof. unfold is_u64, to_u64. apply Z.mod_pos_bound. lia. Qed.

Lemma to_u32_range (x : Z) : is_u32 (to_u32 x).
Proof. unfold is_u32, to_u32. apply Z.mod_pos_bound. lia. Qed.

(** For a positive divisor the rounded-up quotient of C is the ceiling. *)
Lemma ceil_div_round_up (n t : Z) : 0 < t → ceil_div n t = (n + t - 1) / t.
Proof.
  intros Ht. unfold ceil_div.
  pose proof (Z.div_mod (n + t - 1) t ltac:(lia)) as Hq.
  pose proof (Z.mod_pos_bound (n + t - 1) t Ht) as Hr.
  set (q := (n + t - 1) / t) in *. set (r := (n + t - 1) mod t) in *.
  assert (Hd : (- n) / t = - q).
  { symmetry. apply (Z.div_unique_pos (- n) t (- q) (t - 1 - r)); lia. }
  lia.
Qed.

(** ** The layout of the log device *)

Example max_n_4096 : max_n_snapshots_in_sector 4096 = 32.
Proof. reflexivity. Qed.

Example max_n_512 : max_n_snapshots_in_sector 512 = 6.
Proof. reflexivity. Qed.

Example metadata_size_4096 : get_metadata_size cfg0 4096 100 = Some 4.
Proof. reflexivity. Qed.

Example ring_offset_4096 : get_ring_buffer_offset cfg0 4096 100 = Some 7.
Proof. reflexivity. Qed.

Lemma max_n_snapshots_fits (sector_size : Z) :
  is_int sector_size → 88 ≤ sector_size →
  max_n_snapshots_in_sector sector_size = Z.min ((sector_size - 8) / 80) 32.
Proof.
  unfold is_int. intros Hint Hge. unfold max_n_snapshots_in_sector,
    sizeof_walb_snapshot_sector_t, sizeof_walb_snapshot_record_t.
  rewrite (to_u64_small sector_size) by (unfold is_u64; lia).
  rewrite (to_u64_small (sector_size - 8)) by (unfold is_u64; lia).
  assert (Hq : 1 ≤ (sector_size - 8) / 80 < 2 ^ 31).
  { split.
    - apply Z.div_le_lower_bound; lia.
    - apply Z.div_lt_upper_bound; lia. }
  rewrite to_int_small by (unfold is_int; lia).
  destruct (Z.ltb_spec ((sector_size - 8) / 80) 32); lia.
Qed.

Lemma max_n_snapshots_bounds (sector_size : Z) :
  is_int sector_size → 88 ≤ sector_size →
  1 ≤ max_n_snapshots_in_sector sector_size ≤ 32.
Proof.
  intros Hint Hge. rewrite max_n_snapshots_fits by done.
  assert (1 ≤ (sector_size - 8) / 80) by (apply Z.div_le_lower_bound; lia).
  lia.
Qed.

Lemma assert_sector_size (cfg : build) (sector_size : Z) (both : bool) :
  is_int sector_size → 0 < sector_size →
  sector_size_asserted cfg sector_size →
  ASSERT cfg (r ← c_umod (PAGE_SIZE cfg) (to_u64 sector_size);
              Some ((r =? 0)
                    && (if both then to_u64 sector_size <=? PAGE_SIZE cfg
                        else true)))
  = Some tt.
Proof.
  unfold is_int, sector_size_asserted, ASSERT. intros Hint Hpos Hok.
  destruct (WALB_DEBUG cfg); [|done].
  destruct (Hok eq_refl) as [Hmod Hle].
  rewrite to_u64_small by (unfold is_u64; lia).
  unfold c_umod. destruct (Z.eqb_spec sector_size 0); [lia|]. simpl.
  rewrite Hmod. simpl.
  destruct both; [|done].
  destruct (Z.leb_spec sector_size (PAGE_SIZE cfg)); [done|lia].
Qed.

Lemma get_metadata_size_no_overflow (cfg : build) (sector_size n_snapshots : Z) :
  is_int sector_size → 88 ≤ sector_size →
  sector_size_asserted cfg sector_size →
  0 ≤ n_snapshots →
  n_snapshots + max_n_snapshots_in_sector sector_size ≤ INT_MAX →
  get_metadata_size cfg sector_size n_snapshots
  = Some ((n_snapshots + max_n_snapshots_in_sector sector_size - 1)
          / max_n_snapshots_in_sector sector_size).
Proof.
  intros Hint Hge Hok Hn Hmax. unfold get_metadata_size.
  pose proof (assert_sector_size cfg sector_size true Hint ltac:(lia) Hok) as Ha.
  simpl in Ha. rewrite Ha. simpl.
  pose proof (max_n_snapshots_bounds sector_size Hint Hge) as Ht.
  set (t := max_n_snapshots_in_sector sector_size) in *.
  unfold INT_MAX in Hmax.
  rewrite (to_int_small (n_snapshots + t)) by (unfold is_int; lia).
  rewrite (to_int_small (n_snapshots + t - 1)) by (unfold is_int; lia).
  unfold c_sdiv. destruct (Z.eqb_spec t 0); [lia|].
  rewrite Z.quot_div_nonneg by lia.
  assert (0 ≤ (n_snapshots + t - 1) / t ≤ n_snapshots + t - 1).
  { split.
    - apply Z.div_pos; lia.
    - apply Z.div_le_upper_bound; nia. }
  rewrite to_int_small by (unfold is_int; lia). done.
Qed.

(** C9, amended.  For every sector size of at least 8 + 80 bytes a sector
    holds [min ((sector_size - 8) / 80, 32)] snapshot records, never more
    than 32; and for a sector size that passes the assertion of
    [get_metadata_size] and a number of snapshots from 0 up to [INT_MAX]
    less the capacity, [get_metadata_size] returns the ceiling of
    [n_snapshots] over that capacity. *)
Theorem metadata_size_ceiling (cfg : build) (sector_size n_snapshots : Z) :
  is_int sector_size →
  sizeof_walb_snapshot_sector_t + sizeof_walb_snapshot_record_t ≤ sector_size →
  sector_size_asserted cfg sector_size →
  0 ≤ n_snapshots →
  n_snapshots + max_n_snapshots_in_sector sector_size ≤ INT_MAX →
  max_n_snapshots_in_sector sector_size = Z.min ((sector_size - 8) / 80) 32
  ∧ max_n_snapshots_in_sector sector_size ≤ 32
  ∧ get_metadata_size cfg sector_size n_snapshots
    = Some (ceil_div n_snapshots (max_n_snapshots_in_sector sector_size)).
Proof.
  unfold sizeof_walb_snapshot_sector_t, sizeof_walb_snapshot_record_t.
  intros Hint Hge Hok Hn Hmax.
  pose proof (max_n_snapshots_bounds sector_size Hint ltac:(lia)) as Ht.
  split; [apply max_n_snapshots_fits; [done|lia]|].
  split; [lia|].
  rewrite ceil_div_round_up by lia.
  apply get_metadata_size_no_overflow; [done|lia|done..].
Qed.

(** C9 as stated fails where the rounding-up addition leaves [int]: for
    4 KiB sectors and [INT_MAX] snapshots the code returns -67108863, the
    ceiling is 67108864.  In a debug build it also fails for a sector size
    that does not divide the page size, such as 100, where the assertion
    stops the kernel. *)
Lemma metadata_size_claim_overflow :
  ¬ metadata_size_claim cfg0 4096 INT_MAX ∧ ¬ metadata_size_claim cfg0 100 5.
Proof.
  unfold metadata_size_claim. split; intros H.
  - destruct H as (_ & _ & H); [vm_compute; discriminate|].
    vm_compute in H. discriminate.
  - destruct H as (_ & _ & H); [vm_compute; discriminate|].
    vm_compute in H. discriminate.
Qed.

Example metadata_size_int_max :
  get_metadata_size cfg0 4096 INT_MAX = Some (-67108863)
  ∧ ceil_div INT_MAX (max_n_snapshots_in_sector 4096) = 67108864.
Proof. split; reflexivity. Qed.

(** Truncation toward zero is not the ceiling below [- capacity]. *)
Example metadata_size_negative :
  get_metadata_size cfg0 4096 (-33) = Some 0
  ∧ ceil_div (-33) (max_n_snapshots_in_sector 4096) = -1.
Proof. split; reflexivity. Qed.

(** Sector sizes below the header plus one record: no record fits, and
    [get_metadata_size] divides by zero. *)
Example metadata_size_small_sector :
  max_n_snapshots_in_sector 64 = 0 ∧ get_metadata_size cfg0 64 3 = None.
Proof. split; reflexivity. Qed.

Lemma metadata_size_ceiling_witness :
  max_n_snapshots_in_sector 4096 = Z.min ((4096 - 8) / 80) 32
  ∧ max_n_snapshots_in_sector 4096 ≤ 32
  ∧ get_metadata_size cfg0 4096 100
    = Some (ceil_div 100 (max_n_snapshots_in_sector 4096)).
Proof.
  apply (metadata_size_ceiling cfg0 4096 100).
  - unfold is_int. lia.
  - unfold sizeof_walb_snapshot_sector_t, sizeof_walb_snapshot_record_t. lia.
  - intros _. split; [reflexivity|]. unfold cfg0, PAGE_SIZE. lia.
  - lia.
  - vm_compute. discriminate.
Defined.

Lemma divides_page (cfg : build) (sector_size : Z) :
  build_ok cfg → 0 < sector_size → (sector_size | PAGE_SIZE cfg) →
  is_int sector_size
  ∧ PAGE_SIZE cfg mod sector_size = 0
  ∧ sector_size ≤ PAGE_SIZE cfg
  ∧ 1 ≤ PAGE_SIZE cfg / sector_size < 2 ^ 31.
Proof.
  unfold build_ok, is_int. intros Hcfg Hpos Hdiv.
  assert (Hle : sector_size ≤ PAGE_SIZE cfg) by (apply Z.divide_pos_le; [lia|done]).
  assert (Hmod : PAGE_SIZE cfg mod sector_size = 0)
    by (apply Z.mod_divide; [lia|done]).
  repeat split; try lia.
  - apply Z.div_le_lower_bound; lia.
  - apply Z.div_lt_upper_bound; nia.
Qed.

Lemma get_super_sector0_offset_divides (cfg : build) (sector_size : Z) :
  build_ok cfg → 0 < sector_size → (sector_size | PAGE_SIZE cfg) →
  get_super_sector0_offset cfg sector_size = Some (PAGE_SIZE cfg / sector_size).
Proof.
  intros Hcfg Hpos Hdiv.
  destruct (divides_page cfg sector_size Hcfg Hpos Hdiv) as (Hint & Hmod & Hle & Hq).
  unfold is_int in Hint.
  unfold get_super_sector0_offset, ASSERT, c_umod, c_udiv.
  rewrite to_u64_small by (unfold is_u64; lia).
  destruct (Z.eqb_spec sector_size 0); [lia|].
  destruct (WALB_DEBUG cfg); simpl; [|done].
  rewrite Hmod. done.
Qed.

Lemma get_metadata_offset_divides (cfg : build) (sector_size : Z) :
  build_ok cfg → 0 < sector_size → (sector_size | PAGE_SIZE cfg) →
  get_metadata_offset cfg sector_size = Some (PAGE_SIZE cfg / sector_size + 1).
Proof.
  intros Hcfg Hpos Hdiv.
  destruct (divides_page cfg sector_size Hcfg Hpos Hdiv) as (_ & _ & _ & Hq).
  unfold get_metadata_offset.
  rewrite get_super_sector0_offset_divides by done. simpl.
  rewrite to_u64_small by (unfold is_u64; lia). done.
Qed.

(** C8.  For every sector size that divides [PAGE_SIZE], super0 is at
    [PAGE_SIZE / sector_size], the metadata one sector later, super1
    [snapshot_metadata_size] sectors after that and the ring buffer one
    sector after super1; and the functions that take [n_snapshots] agree
    with those that take a super sector when [snapshot_metadata_size] is
    what [get_metadata_size] returns. *)
Theorem layout_offsets (cfg : build) (super_sect : walb_super_sector)
    (ssize n_snapshots : Z) :
  build_ok cfg →
  0 < ssize → (ssize | PAGE_SIZE cfg) →
  sector_size super_sect = ssize →
  is_u32 (snapshot_metadata_size super_sect) →
  let super0_off := PAGE_SIZE cfg / ssize in
  let metadata_off := super0_off + 1 in
  let super1_off := metadata_off + snapshot_metadata_size super_sect in
  let ring_off := super1_off + 1 in
  get_super_sector0_offset cfg ssize = Some super0_off
  ∧ get_metadata_offset cfg ssize = Some metadata_off
  ∧ get_super_sector0_offset_2 cfg super_sect = Some super0_off
  ∧ get_metadata_offset_2 cfg super_sect = Some metadata_off
  ∧ get_super_sector1_offset_2 cfg super_sect = Some super1_off
  ∧ get_ring_buffer_offset_2 cfg super_sect = Some ring_off
  ∧ (get_metadata_size cfg ssize n_snapshots
     = Some (snapshot_metadata_size super_sect) →
     get_super_sector1_offset cfg ssize n_snapshots = Some super1_off
     ∧ get_ring_buffer_offset cfg ssize n_snapshots = Some ring_off
     ∧ get_super_sector1_offset cfg ssize n_snapshots
       = get_super_sector1_offset_2 cfg super_sect
     ∧ get_ring_buffer_offset cfg ssize n_snapshots
       = get_ring_buffer_offset_2 cfg super_sect).
Proof.
  intros Hcfg Hpos Hdiv Hss Hmd. simpl.
  destruct (divides_page cfg ssize Hcfg Hpos Hdiv) as (Hint & _ & _ & Hq).
  unfold is_u32 in Hmd.
  pose proof (get_super_sector0_offset_divides cfg ssize Hcfg Hpos Hdiv) as H0.
  pose proof (get_metadata_offset_divides cfg ssize Hcfg Hpos Hdiv) as H1.
  assert (Hs1 : get_super_sector1_offset_2 cfg super_sect
                = Some (PAGE_SIZE cfg / ssize + 1
                        + snapshot_metadata_size super_sect)).
  { unfold get_super_sector1_offset_2. rewrite Hss, to_int_small, H1 by done.
    simpl. rewrite to_u64_small by (unfold is_u64; lia). done. }
  assert (Hr : get_ring_buffer_offset_2 cfg super_sect
               = Some (PAGE_SIZE cfg / ssize + 1
                       + snapshot_metadata_size super_sect + 1)).
  { unfold get_ring_buffer_offset_2. rewrite Hs1. simpl.
    rewrite to_u64_small by (unfold is_u64; lia). done. }
  split; [done|]. split; [done|].
  split; [unfold get_super_sector0_offset_2; by rewrite Hss, to_int_small|].
  split; [unfold get_metadata_offset_2; by rewrite Hss, to_int_small|].
  split; [done|]. split; [done|].
  intros Hm.
  assert (Hs1' : get_super_sector1_offset cfg ssize n_snapshots
                 = Some (PAGE_SIZE cfg / ssize + 1
                         + snapshot_metadata_size super_sect)).
  { unfold get_super_sector1_offset. rewrite H1, Hm. simpl.
    rewrite (to_u64_small (snapshot_metadata_size super_sect))
      by (unfold is_u64; lia).
    rewrite to_u64_small by (unfold is_u64; lia). done. }
  assert (Hr' : get_ring_buffer_offset cfg ssize n_snapshots
                = Some (PAGE_SIZE cfg / ssize + 1
                        + snapshot_metadata_size super_sect + 1)).
  { unfold get_ring_buffer_offset. rewrite Hs1'. simpl.
    rewrite to_u64_small by (unfold is_u64; lia). done. }
  rewrite Hs1', Hr', Hs1, Hr. done.
Qed.

Lemma layout_offsets_witness :
  get_super_sector0_offset cfg0 4096 = Some 1
  ∧ get_metadata_offset cfg0 4096 = Some 2
  ∧ get_super_sector0_offset_2 cfg0 super0 = Some 1
  ∧ get_metadata_offset_2 cfg0 super0 = Some 2
  ∧ get_super_sector1_offset_2 cfg0 super0 = Some 6
  ∧ get_ring_buffer_offset_2 cfg0 super0 = Some 7
  ∧ (get_metadata_size cfg0 4096 100 = Some 4 →
     get_super_sector1_offset cfg0 4096 100 = Some 6
     ∧ get_ring_buffer_offset cfg0 4096 100 = Some 7
     ∧ get_super_sector1_offset cfg0 4096 100
       = get_super_sector1_offset_2 cfg0 super0
     ∧ get_ring_buffer_offset cfg0 4096 100
       = get_ring_buffer_offset_2 cfg0 super0).
Proof.
  apply (layout_offsets cfg0 super0 4096 100).
  - unfold build_ok. simpl. lia.
  - lia.
  - exists 1. reflexivity.
  - reflexivity.
  - unfold is_u32. simpl. lia.
Defined.

(** ** Freeze and melt *)

Lemma cancel_melt_work_state (wdev : walb_dev) :
  freeze_state (cancel_melt_work wdev) ≠ FRZ_FREEZED_WITH_TIMEOUT.
Proof. unfold cancel_melt_work. destruct (freeze_state wdev) eqn:E; simpl; congruence. Qed.

Lemma clipped_timeout (v : Z) :
  (if 86400 <? v then 86400 else v) = Z.min v 86400.
Proof. destruct (Z.ltb_spec 86400 v); lia. Qed.

Lemma freeze_if_melted_spec (wdev : walb_dev) (timeout_sec : Z) :
  freeze_state wdev ≠ FRZ_FREEZED_WITH_TIMEOUT →
  0 ≤ timeout_sec ≤ 86400 →
  let r := freeze_if_melted wdev timeout_sec in
  r.1 = true
  ∧ (timeout_sec = 0 → freeze_state (r.2) = FRZ_FREEZED)
  ∧ (0 < timeout_sec →
     freeze_state (r.2) = FRZ_FREEZED_WITH_TIMEOUT
     ∧ freeze_dwork (r.2) = Some (timeout_sec * 1000))
  ∧ (freeze_state wdev = FRZ_MELTED →
     iocore_frozen (r.2) = true ∧ cpd (r.2) = CP_STOPPED).
Proof.
  intros Hst Ht. unfold freeze_if_melted.
  assert (Hms : to_u32 (timeout_sec * 1000) = timeout_sec * 1000)
    by (apply to_u32_small; unfold is_u32; lia).
  rewrite Hms.
  destruct (freeze_state wdev) eqn:E; [| |done];
    destruct (Z.ltb_spec 0 timeout_sec); simpl;
    repeat split; intros; try rewrite E; try done; try lia.
Qed.

(** C6.  The timeout FREEZE applies is the requested one clipped to 86400
    seconds; FREEZE with timeout 0 leaves the device frozen, FREEZE with a
    positive timeout leaves it frozen with timeout and the melt work queued
    with that delay. *)
Theorem freeze_timeout_clipped (wdev : walb_dev) (ctl : walb_ctl) :
  is_u32 (val_u32 ctl) →
  let timeout_sec := Z.min (val_u32 ctl) 86400 in
  let r := ioctl_wdev_freeze wdev ctl in
  timeout_sec ≤ 86400
  ∧ r = (let r' := freeze_if_melted (cancel_melt_work wdev) timeout_sec in
         (if r'.1 then 0 else - EFAULT, r'.2))
  ∧ r.1 = 0
  ∧ (val_u32 ctl = 0 → freeze_state (r.2) = FRZ_FREEZED)
  ∧ (0 < val_u32 ctl →
     freeze_state (r.2) = FRZ_FREEZED_WITH_TIMEOUT
     ∧ freeze_dwork (r.2) = Some (timeout_sec * 1000))
  ∧ (freeze_state wdev = FRZ_MELTED →
     iocore_frozen (r.2) = true ∧ cpd (r.2) = CP_STOPPED).
Proof.
  unfold is_u32. intros Hu. simpl.
  split; [lia|].
  unfold ioctl_wdev_freeze. rewrite clipped_timeout.
  pose proof (freeze_if_melted_spec (cancel_melt_work wdev)
                (Z.min (val_u32 ctl) 86400)
                (cancel_melt_work_state wdev) ltac:(lia)) as H.
  simpl in H.
  destruct (freeze_if_melted (cancel_melt_work wdev) (Z.min (val_u32 ctl) 86400))
    as [ok wdev'] eqn:E.
  simpl in *. destruct H as (-> & H0 & Hpos & Hm).
  split; [done|]. split; [done|].
  split; [intros Hz; apply H0; lia|].
  split; [intros Hz; apply Hpos; lia|].
  intros Hmelted. apply Hm.
  unfold cancel_melt_work. by rewrite Hmelted.
Qed.

Lemma freeze_timeout_clipped_witness :
  let r := ioctl_wdev_freeze wdev0 (ctl_u32 100000) in
  Z.min 100000 86400 ≤ 86400
  ∧ r = (let r' := freeze_if_melted (cancel_melt_work wdev0)
                     (Z.min 100000 86400) in
         (if r'.1 then 0 else - EFAULT, r'.2))
  ∧ r.1 = 0
  ∧ (100000 = 0 → freeze_state (r.2) = FRZ_FREEZED)
  ∧ (0 < 100000 →
     freeze_state (r.2) = FRZ_FREEZED_WITH_TIMEOUT
     ∧ freeze_dwork (r.2) = Some (Z.min 100000 86400 * 1000))
  ∧ (freeze_state wdev0 = FRZ_MELTED →
     iocore_frozen (r.2) = true ∧ cpd (r.2) = CP_STOPPED).
Proof.
  apply (freeze_timeout_clipped wdev0 (ctl_u32 100000)).
  unfold is_u32. simpl. lia.
Defined.

(** When the queued melt work runs, the device melts. *)
Lemma task_melt_melts (wdev : walb_dev) :
  freeze_state wdev = FRZ_FREEZED_WITH_TIMEOUT →
  freeze_state (task_melt wdev) = FRZ_MELTED
  ∧ iocore_frozen (task_melt wdev) = false
  ∧ cpd (task_melt wdev) = CP_RUNNING
  ∧ freeze_dwork (task_melt wdev) = None.
Proof. intros H. unfold task_melt. simpl. rewrite H. done. Qed.

Lemma melt_if_frozen_melted (wdev : walb_dev) (restarts_checkpointing : bool) :
  freeze_state wdev = FRZ_MELTED →
  melt_if_frozen wdev restarts_checkpointing = (true, wdev).
Proof.
  intros H. unfold melt_if_frozen, cancel_melt_work. by rewrite !H.
Qed.

Lemma ioctl_wdev_melt_melted (wdev : walb_dev) (ctl : walb_ctl) :
  freeze_state wdev = FRZ_MELTED → ioctl_wdev_melt wdev ctl = (0, wdev).
Proof.
  intros H. unfold ioctl_wdev_melt.
  assert (Hc : cancel_melt_work wdev = wdev)
    by (unfold cancel_melt_work; by rewrite H).
  rewrite Hc, melt_if_frozen_melted by done. done.
Qed.

(** C7, amended.  MELT succeeds and leaves the device melted; from a
    frozen device the pack stage and checkpointing are resumed and a queued
    melt work is cancelled; on a melted device nothing changes, so a pack
    stage and a checkpointing that something else has stopped stay
    stopped; and a second MELT changes nothing more. *)
Theorem melt_idempotent (wdev : walb_dev) (ctl ctl' : walb_ctl) :
  let r := ioctl_wdev_melt wdev ctl in
  r.1 = 0
  ∧ freeze_state (r.2) = FRZ_MELTED
  ∧ (freeze_state wdev ≠ FRZ_MELTED →
     iocore_frozen (r.2) = false ∧ cpd (r.2) = CP_RUNNING)
  ∧ (freeze_state wdev = FRZ_FREEZED_WITH_TIMEOUT → freeze_dwork (r.2) = None)
  ∧ (freeze_state wdev = FRZ_MELTED → r.2 = wdev)
  ∧ ioctl_wdev_melt (r.2) ctl' = (0, r.2).
Proof.
  simpl.
  assert (Hst : (ioctl_wdev_melt wdev ctl).1 = 0
                ∧ freeze_state ((ioctl_wdev_melt wdev ctl).2) = FRZ_MELTED
                ∧ (freeze_state wdev ≠ FRZ_MELTED →
                   iocore_frozen ((ioctl_wdev_melt wdev ctl).2) = false
                   ∧ cpd ((ioctl_wdev_melt wdev ctl).2) = CP_RUNNING)
                ∧ (freeze_state wdev = FRZ_FREEZED_WITH_TIMEOUT →
                   freeze_dwork ((ioctl_wdev_melt wdev ctl).2) = None)).
  { unfold ioctl_wdev_melt, melt_if_frozen, cancel_melt_work.
    destruct (freeze_state wdev) eqn:E; simpl; rewrite ?E; simpl; done. }
  destruct Hst as (H1 & H2 & H3 & H4).
  repeat split; try done; try (by apply H3).
  - intros Hm. by rewrite ioctl_wdev_melt_melted.
  - by apply ioctl_wdev_melt_melted.
Qed.

(** C7 as stated fails on the device that CLEAR_LOG leaves when the log
    device has shrunk: its freeze state is melted while the pack stage is
    frozen and checkpointing is stopped, and MELT returns 0 and resumes
    neither. *)
Lemma melt_claim_not_resumed :
  ioctl_wdev_clear_log cfg0 env_ok wdev0_shrunk (ctl_u64 0)
  = Some (- EFAULT, wdev0_clear_failed)
  ∧ freeze_state wdev0_clear_failed = FRZ_MELTED
  ∧ ioctl_wdev_melt wdev0_clear_failed (ctl_u64 0) = (0, wdev0_clear_failed)
  ∧ iocore_frozen wdev0_clear_failed = true
  ∧ cpd wdev0_clear_failed = CP_STOPPED
  ∧ ¬ melt_claim wdev0_clear_failed (ctl_u64 0) (ctl_u64 0).
Proof.
  split; [vm_compute; reflexivity|].
  split; [vm_compute; reflexivity|].
  split; [vm_compute; reflexivity|].
  split; [vm_compute; reflexivity|].
  split; [vm_compute; reflexivity|].
  intros (_ & _ & H & _). vm_compute in H. discriminate.
Qed.

(** ** RESIZE *)

(** C5, amended.  RESIZE only grows the device, and a request of 0 stands
    for the capacity of the data device.  With the new size read that way:
    smaller than the exposed size fails and changes nothing, larger than
    the data device fails and changes nothing, equal succeeds without
    change; otherwise the exposed size becomes the new size, and the
    request succeeds, with the super block synced, exactly when the disk
    resize and the super block sync succeed.  The exposed size stays within
    the data device in every case. *)
Theorem resize_grow_only (e : env) (wdev : walb_dev) (ctl : walb_ctl) :
  let old_size := capacity (gd wdev) in
  let ddev_cap := nr_sects (ddev wdev) in
  let new_size := if val_u64 ctl =? 0 then ddev_cap else val_u64 ctl in
  let r := ioctl_wdev_resize e wdev ctl in
  (new_size < old_size → r = (- EFAULT, wdev))
  ∧ (ddev_cap < new_size → r = (- EFAULT, wdev))
  ∧ (new_size = old_size → new_size ≤ ddev_cap → r = (0, wdev))
  ∧ (old_size < new_size ≤ ddev_cap →
     size (r.2) = new_size ∧ capacity (gd (r.2)) = new_size
     ∧ ddev_size (r.2) = ddev_cap
     ∧ (r.1 = 0 ↔ bdget_disk_ok e = true ∧ sync_super_ok e = true)
     ∧ (r.1 ≠ 0 → r.1 = - EFAULT)
     ∧ (r.1 = 0 → super_synced (r.2) ∧ device_size (lsuper0 (r.2)) = new_size))
  ∧ (size wdev ≤ ddev_size wdev → size (r.2) ≤ ddev_size (r.2)).
Proof.
  simpl. unfold ioctl_wdev_resize.
  set (new_size := if val_u64 ctl =? 0 then nr_sects (ddev wdev) else val_u64 ctl).
  destruct (Z.ltb_spec new_size (capacity (gd wdev))) as [Hlt|Hge].
  { repeat split; intros; simpl; try done; lia. }
  destruct (Z.ltb_spec (nr_sects (ddev wdev)) new_size) as [Hbig|Hfit].
  { repeat split; intros; simpl; try done; lia. }
  destruct (Z.eqb_spec new_size (capacity (gd wdev))) as [Heq|Hne].
  { repeat split; intros; simpl; try done; lia. }
  unfold resize_disk, walb_sync_super_block, super_synced. simpl.
  destruct (Z.eqb_spec (capacity (gd wdev)) new_size) as [Heq'|_]; [lia|].
  unfold EFAULT.
  destruct (bdget_disk_ok e), (sync_super_ok e); simpl;
    (split; [intros; lia|]); (split; [intros; lia|]); (split; [intros; lia|]);
    (split; [|intros; lia]);
    intros _; repeat split; try done; try lia; intros; try done; lia.
Qed.

(** C5 as stated fails on a request of 0, which grows the device to the
    size of the data device, and where the super block sync fails after
    the size has been changed. *)
Lemma resize_claim_fails :
  ¬ resize_claim env_ok wdev0 (ctl_u64 0)
  ∧ ¬ resize_claim env_sync_fails wdev0 (ctl_u64 3000).
Proof.
  split.
  - intros (H & _). destruct H as [H _]; [vm_compute; reflexivity|].
    apply H. vm_compute. reflexivity.
  - intros (_ & _ & _ & H & _).
    destruct H as [_ H]; [vm_compute; split; [reflexivity|discriminate]|].
    vm_compute in H. discriminate.
Qed.

(** ** SET_OLDEST_LSID *)

Lemma walb_check_lsid_valid_spec (cfg : build) (hlp : helpers) (e : env)
    (wdev : walb_dev) (lsid : Z) :
  is_Some (get_offset_of_lsid_2 cfg (lsuper0 wdev) lsid) →
  ∃ v, walb_check_lsid_valid cfg hlp e wdev lsid = Some v
       ∧ negb (v =? 0)
         = sector_alloc_ok e && sector_read_ok e
           && lsid_references_pack cfg hlp wdev lsid.
Proof.
  intros [off Hoff]. unfold walb_check_lsid_valid, lsid_references_pack.
  rewrite Hoff. simpl.
  destruct (sector_alloc_ok e); simpl; [|by exists 0].
  destruct (sector_read_ok e); simpl; [|by exists 0].
  destruct (is_valid_logpack_header_with_checksum hlp _ _ _); simpl;
    [|by exists 0].
  destruct (logpack_lsid hlp _ =? lsid); simpl; [by exists 1|by exists 0].
Qed.

(** C2, amended.  SET_OLDEST_LSID succeeds if and only if the lsid passes
    the check (it equals [written], or it lies in [[oldest, written)] and
    the sector at its ring-buffer offset can be allocated and read and
    holds a header that validates under the current salt with that
    [logpack_lsid]) and the super block sync succeeds.  Whenever the lsid
    passes the check [oldest] is set to it, also when the sync then fails
    and an error is returned; when it does not pass, the device is
    unchanged and an error is returned.  On success the super block is
    synced. *)
Theorem set_oldest_lsid_checked (cfg : build) (hlp : helpers) (e : env)
    (wdev : walb_dev) (ctl : walb_ctl) :
  is_Some (get_offset_of_lsid_2 cfg (lsuper0 wdev) (val_u64 ctl)) →
  ∃ ret wdev',
    ioctl_wdev_set_oldest_lsid cfg hlp e wdev ctl = Some (ret, wdev')
    ∧ (ret = 0 ↔ set_oldest_checked cfg hlp e wdev (val_u64 ctl) = true
                 ∧ sync_super_ok e = true)
    ∧ (ret ≠ 0 → ret = - EFAULT)
    ∧ (set_oldest_checked cfg hlp e wdev (val_u64 ctl) = true →
       oldest (lsids wdev') = val_u64 ctl
       ∧ oldest_lsid (lsuper0 wdev') = val_u64 ctl)
    ∧ (ret = 0 → super_synced wdev')
    ∧ (set_oldest_checked cfg hlp e wdev (val_u64 ctl) = false → wdev' = wdev).
Proof.
  intros Hoff.
  destruct (walb_check_lsid_valid_spec cfg hlp e wdev (val_u64 ctl) Hoff)
    as (v & Hv & Hvalid).
  unfold ioctl_wdev_set_oldest_lsid, set_oldest_checked.
  rewrite Hv, <- Hvalid. simpl.
  set (valid :=
         if val_u64 ctl =? written (lsids wdev) then Some true
         else if (oldest (lsids wdev) <=? val_u64 ctl)
                 && (val_u64 ctl <? written (lsids wdev))
              then Some (negb (v =? 0)) else Some false).
  set (checked :=
         (val_u64 ctl =? written (lsids wdev))
         || (oldest (lsids wdev) <=? val_u64 ctl)
            && (val_u64 ctl <? written (lsids wdev)) && negb (v =? 0)).
  assert (Hval : valid = Some checked).
  { unfold valid, checked.
    destruct (val_u64 ctl =? written (lsids wdev)); simpl; [done|].
    destruct ((oldest (lsids wdev) <=? val_u64 ctl)
              && (val_u64 ctl <? written (lsids wdev))); done. }
  rewrite Hval. simpl. unfold EFAULT, super_synced.
  destruct checked; simpl.
  - unfold walb_sync_super_block. destruct (sync_super_ok e); simpl.
    + eexists _, _. split; [done|]. simpl. repeat split; try done.
    + eexists _, _. split; [done|]. simpl.
      repeat split; try done; intros; try done; try lia.
  - eexists _, _. split; [done|].
    repeat split; try done; intros; try done; try lia.
Qed.

Lemma set_oldest_lsid_checked_witness :
  ∃ ret wdev',
    ioctl_wdev_set_oldest_lsid cfg0 hlp0 env_ok wdev0 (ctl_u64 0)
    = Some (ret, wdev')
    ∧ (ret = 0 ↔ set_oldest_checked cfg0 hlp0 env_ok wdev0 0 = true
                 ∧ sync_super_ok env_ok = true)
    ∧ (ret ≠ 0 → ret = - EFAULT)
    ∧ (set_oldest_checked cfg0 hlp0 env_ok wdev0 0 = true →
       oldest (lsids wdev') = 0 ∧ oldest_lsid (lsuper0 wdev') = 0)
    ∧ (ret = 0 → super_synced wdev')
    ∧ (set_oldest_checked cfg0 hlp0 env_ok wdev0 0 = false → wdev' = wdev0).
Proof.
  apply (set_oldest_lsid_checked cfg0 hlp0 env_ok wdev0 (ctl_u64 0)).
  exists 7. vm_compute. reflexivity.
Defined.

Example set_oldest_at_pack :
  set_oldest_checked cfg0 hlp0 env_ok wdev0 0 = true.
Proof. vm_compute. reflexivity. Qed.

(** C2 as stated fails where the super block sync fails: the lsid equals
    [written], yet the request returns an error, and [oldest] has moved
    from 0 to 9. *)
Lemma set_oldest_claim_sync_failure :
  ¬ set_oldest_claim cfg0 hlp0 env_sync_fails wdev0 (ctl_u64 9).
Proof.
  unfold set_oldest_claim. intros H.
  destruct (H (- EFAULT)
              (snd (walb_sync_super_block env_sync_fails
                      (set_lsids (set_oldest 9 (lsids wdev0)) wdev0))))
    as ([_ H1] & _ & _).
  - vm_compute. reflexivity.
  - assert (H2 : - EFAULT = 0) by (apply H1; vm_compute; reflexivity).
    vm_compute in H2. discriminate.
Qed.

(** ** CREATE_SNAPSHOT *)

(** C10.  CREATE_SNAPSHOT with a record whose lsid is [INVALID_LSID] adds
    the snapshot at the completed lsid of the device, which is
    [lsids.completed] with WALB_FAST_ALGORITHM and [lsids.written] without;
    with any other lsid it adds it at that lsid.  The record of the buffer
    carries the lsid used and is otherwise as it was, and the store is what
    [snapshot_add] makes of it.  A buffer smaller than the 84 bytes of the
    record is refused before the record is read. *)
Theorem create_snapshot_lsid (cfg : build) (hlp : helpers) (e : env)
    (wdev : walb_dev) (ctl : walb_ctl)
    (srec : snapshot_h.walb_snapshot_record) :
  u2k_buf ctl = Some srec →
  (WALB_DEBUG cfg = true → snapshot_h.lsid srec = INVALID_LSID →
   (if WALB_FAST_ALGORITHM cfg then completed (lsids wdev)
    else written (lsids wdev)) ≠ INVALID_LSID) →
  let used :=
    if snapshot_h.lsid srec =? INVALID_LSID
    then if WALB_FAST_ALGORITHM cfg then completed (lsids wdev)
         else written (lsids wdev)
    else snapshot_h.lsid srec in
  let added :=
    snapshot_add e wdev (snapshot_h.name srec) used
      (snapshot_h.timestamp srec) in
  (u2k_buf_size ctl < 84 →
   ioctl_wdev_create_snapshot cfg hlp e wdev ctl = Some (- EFAULT, wdev, ctl))
  ∧ (84 ≤ u2k_buf_size ctl →
     ∃ ret wdev' ctl',
       ioctl_wdev_create_snapshot cfg hlp e wdev ctl = Some (ret, wdev', ctl')
       ∧ u2k_buf ctl'
         = Some {| snapshot_h.lsid := used;
                   snapshot_h.timestamp := snapshot_h.timestamp srec;
                   snapshot_h.snapshot_id := snapshot_h.snapshot_id srec;
                   snapshot_h.name := snapshot_h.name srec |}
       ∧ (is_valid_snapshot_name hlp (snapshot_h.name srec) = false →
          ret = - EFAULT ∧ wdev' = wdev)
       ∧ (is_valid_snapshot_name hlp (snapshot_h.name srec) = true →
          wdev' = added.2
          ∧ error ctl'
            = match added.1 with Some k => Some k | None => error ctl end
          ∧ (ret = 0 ↔ added.1 = None) ∧ (ret ≠ 0 → ret = - EFAULT))
       ∧ (ret = 0 →
          snapd wdev'
          = snapd wdev ++ [ {| lsid := used;
                               timestamp := snapshot_h.timestamp srec;
                               snapshot_name := snapshot_h.name srec |} ])).
Proof.
  intros Hbuf Hdbg. simpl.
  unfold ioctl_wdev_create_snapshot, snapshot_h.sizeof_walb_snapshot_record.
  split; intros Hsize.
  { by destruct (Z.ltb_spec (u2k_buf_size ctl) 84); [|lia]. }
  destruct (Z.ltb_spec (u2k_buf_size ctl) 84); [lia|].
  rewrite Hbuf.
  set (used := if snapshot_h.lsid srec =? INVALID_LSID
               then if WALB_FAST_ALGORITHM cfg then completed (lsids wdev)
                    else written (lsids wdev)
               else snapshot_h.lsid srec).
  set (srec' := {| snapshot_h.lsid := used;
                   snapshot_h.timestamp := snapshot_h.timestamp srec;
                   snapshot_h.snapshot_id := snapshot_h.snapshot_id srec;
                   snapshot_h.name := snapshot_h.name srec |}).
  assert (Hsub :
    (if snapshot_h.lsid srec =? INVALID_LSID
     then
       let srec0 :=
         {| snapshot_h.lsid := get_completed_lsid cfg wdev;
            snapshot_h.timestamp := snapshot_h.timestamp srec;
            snapshot_h.snapshot_id := snapshot_h.snapshot_id srec;
            snapshot_h.name := snapshot_h.name srec |} in
       _ ← ASSERT cfg (Some (negb (snapshot_h.lsid srec0 =? INVALID_LSID)));
       Some srec0
     else Some srec) = Some srec').
  { unfold srec', used, get_completed_lsid, get_written_lsid.
    destruct (Z.eqb_spec (snapshot_h.lsid srec) INVALID_LSID) as [Heq|Hne].
    - simpl. unfold ASSERT. destruct (WALB_DEBUG cfg); [|done].
      specialize (Hdbg eq_refl Heq). simpl.
      destruct (Z.eqb_spec
                  (if WALB_FAST_ALGORITHM cfg then completed (lsids wdev)
                   else written (lsids wdev)) INVALID_LSID); done.
    - by destruct srec. }
  cbv zeta in Hsub. rewrite Hsub. simpl. unfold EFAULT.
  destruct (is_valid_snapshot_name hlp (snapshot_h.name srec)); simpl.
  - destruct (snapshot_add e wdev (snapshot_h.name srec) used
                (snapshot_h.timestamp srec)) as [err wdev1] eqn:Hadd.
    destruct err as [k|]; simpl.
    + eexists _, _, _. split; [done|]. simpl.
      repeat split; try done; intros; try done; lia.
    + eexists _, _, _. split; [done|]. simpl.
      repeat split; try done. intros _.
      unfold snapshot_add in Hadd.
      repeat match type of Hadd with
             | (if ?c then _ else _) = _ => destruct c; [done|]
             end.
      by inversion Hadd.
  - eexists _, _, _. split; [done|]. simpl.
    repeat split; try done; intros; try done; lia.
Qed.

Lemma create_snapshot_lsid_witness :
  let used :=
    if snapshot_h.lsid srec_s2 =? INVALID_LSID
    then if WALB_FAST_ALGORITHM cfg0 then completed (lsids wdev0)
         else written (lsids wdev0)
    else snapshot_h.lsid srec_s2 in
  let added :=
    snapshot_add env_ok wdev0 (snapshot_h.name srec_s2) used
      (snapshot_h.timestamp srec_s2) in
  (u2k_buf_size (ctl_snapshot srec_s2) < 84 →
   ioctl_wdev_create_snapshot cfg0 hlp0 env_ok wdev0 (ctl_snapshot srec_s2)
   = Some (- EFAULT, wdev0, ctl_snapshot srec_s2))
  ∧ (84 ≤ u2k_buf_size (ctl_snapshot srec_s2) →
     ∃ ret wdev' ctl',
       ioctl_wdev_create_snapshot cfg0 hlp0 env_ok wdev0 (ctl_snapshot srec_s2)
       = Some (ret, wdev', ctl')
       ∧ u2k_buf ctl'
         = Some {| snapshot_h.lsid := used;
                   snapshot_h.timestamp := snapshot_h.timestamp srec_s2;
                   snapshot_h.snapshot_id := snapshot_h.snapshot_id srec_s2;
                   snapshot_h.name := snapshot_h.name srec_s2 |}
       ∧ (is_valid_snapshot_name hlp0 (snapshot_h.name srec_s2) = false →
          ret = - EFAULT ∧ wdev' = wdev0)
       ∧ (is_valid_snapshot_name hlp0 (snapshot_h.name srec_s2) = true →
          wdev' = added.2
          ∧ error ctl'
            = match added.1 with
              | Some k => Some k
              | None => error (ctl_snapshot srec_s2)
              end
          ∧ (ret = 0 ↔ added.1 = None) ∧ (ret ≠ 0 → ret = - EFAULT))
       ∧ (ret = 0 →
          snapd wdev'
          = snapd wdev0 ++ [ {| lsid := used;
                                timestamp := snapshot_h.timestamp srec_s2;
                                snapshot_name := snapshot_h.name srec_s2 |} ])).
Proof.
  apply (create_snapshot_lsid cfg0 hlp0 env_ok wdev0 (ctl_snapshot srec_s2)
           srec_s2).
  - reflexivity.
  - intros _ _. vm_compute. discriminate.
Defined.

(** The snapshot is added at lsid 9, the completed lsid of the device, and
    the buffer goes back with that lsid; an 83-byte buffer is refused. *)
Example create_snapshot_at_completed :
  option_map (λ r, (r.1.1, snapd (r.1.2), snapshot_h.lsid <$> u2k_buf (r.2)))
    (ioctl_wdev_create_snapshot cfg0 hlp0 env_ok wdev0 (ctl_snapshot srec_s2))
  = Some (0, [ {| lsid := 0; timestamp := 100; snapshot_name := "s1" |};
               {| lsid := 9; timestamp := 5; snapshot_name := "s2" |} ],
          Some 9)
  ∧ ioctl_wdev_create_snapshot cfg0 hlp0 env_ok wdev0
      {| val_u64 := 0; val_u32 := 0; val_int := 0; error := None;
         u2k_buf_size := 83; u2k_buf := Some srec_s2 |}
    = Some (- EFAULT, wdev0,
            {| val_u64 := 0; val_u32 := 0; val_int := 0; error := None;
               u2k_buf_size := 83; u2k_buf := Some srec_s2 |}).
Proof. vm_compute. split; reflexivity. Qed.

(** ** Redo at startup *)

Lemma walb_sync_super_block_keeps (e : env) (wdev : walb_dev) :
  let r := walb_sync_super_block e wdev in
  r.1 = sync_super_ok e
  ∧ lsids (r.2) = lsids wdev
  ∧ ring_buffer_size (r.2) = ring_buffer_size wdev
  ∧ written_lsid (lsuper0 (r.2)) = written (lsids wdev)
  ∧ oldest_lsid (lsuper0 (r.2)) = oldest (lsids wdev)
  ∧ device_size (lsuper0 (r.2)) = size wdev
  ∧ (r.1 = true → super_synced (r.2)).
Proof.
  unfold walb_sync_super_block, super_synced.
  destruct (sync_super_ok e); simpl; repeat split; done.
Qed.

Lemma execute_redo_success (cfg : build) (hlp : helpers) (e : env)
    (wdev wdev' : walb_dev) :
  execute_redo cfg hlp e wdev = Some (true, wdev') →
  ∃ cursor ldev' ddev',
    redo_loop cfg hlp e (S (Z.to_nat (ring_buffer_size wdev))) (lsuper0 wdev)
      (physical_bs wdev) (log_checksum_salt wdev) (ldev wdev) (ddev wdev)
      (written (lsids wdev))
    = Some (true, (cursor, ldev', ddev'))
    ∧ lsids wdev'
      = {| latest := cursor; flush := cursor; completed := cursor;
           permanent := cursor; written := cursor;
           prev_written := prev_written (lsids wdev);
           oldest := oldest (lsids wdev) |}
    ∧ super_synced wdev'
    ∧ written_lsid (lsuper0 wdev') = cursor.
Proof.
  unfold execute_redo. intros H.
  destruct (redo_loop _ _ _ _ _ _ _ _ _ _) as [[ok [[cursor ldev'] ddev']]|];
    [|done].
  simpl in H. destruct ok; simpl in H; [|done].
  exists cursor, ldev', ddev'. split; [done|].
  match type of H with
  | Some (walb_sync_super_block e ?w) = _ =>
      pose proof (walb_sync_super_block_keeps e w) as Hk;
      destruct (walb_sync_super_block e w) as [ok w'] eqn:Hs
  end.
  simpl in Hk. destruct Hk as (Hok & Hl & _ & Hw & _ & _ & Hsync).
  inversion H; subst ok w'. clear H.
  split; [by rewrite Hl|]. split; [by apply Hsync|]. by rewrite Hw.
Qed.

(** C4.  When [prepare_wdev] returns a device, redo has completed: the
    lsids written, permanent, completed, latest and flush all equal the
    cursor at which the redo scan started from [written_lsid] stopped, and
    the super block holding that cursor has been persisted. *)
Theorem redo_sets_lsids (cfg : build) (hlp : helpers) (e : env)
    (ldev ddev : block_device) (ldev_pbs ddev_pbs : Z)
    (super : walb_super_sector) (snapd : list walb_snapshot_record)
    (wdev : walb_dev) :
  prepare_wdev cfg hlp e ldev ddev ldev_pbs ddev_pbs super snapd
  = Some (Some wdev) →
  ∃ cursor ldev' ddev',
    redo_loop cfg hlp e (S (Z.to_nat (super_ring_buffer_size super))) super
      ldev_pbs (super_log_checksum_salt super) ldev ddev (written_lsid super)
    = Some (true, (cursor, ldev', ddev'))
    ∧ written (lsids wdev) = cursor
    ∧ permanent (lsids wdev) = cursor
    ∧ completed (lsids wdev) = cursor
    ∧ latest (lsids wdev) = cursor
    ∧ flush (lsids wdev) = cursor
    ∧ written_lsid (lsuper0 wdev) = cursor
    ∧ super_synced wdev.
Proof.
  unfold prepare_wdev. intros H.
  destruct (negb (ldev_pbs =? ddev_pbs)); [done|].
  destruct (negb (sector_size super =? ldev_pbs)); [done|].
  destruct (get_ring_buffer_offset_2 cfg super) as [ring_off|]; [|done].
  simpl in H.
  destruct (nr_sects ddev <? device_size super); [done|].
  match type of H with
  | context [execute_redo cfg hlp e ?w] =>
      destruct (execute_redo cfg hlp e w) as [[retb wdev1]|] eqn:Hredo
  end; [|done].
  simpl in H. destruct retb; simpl in H; [|done].
  apply execute_redo_success in Hredo.
  destruct Hredo as (cursor & ldev' & ddev' & Hloop & Hl & Hsync & Hw).
  simpl in Hloop, Hl.
  repeat match type of H with
         | (ASSERT ?c ?b ≫= _) = _ => destruct (ASSERT c b); [simpl in H|done]
         end.
  inversion H; subst wdev1. clear H.
  exists cursor, ldev', ddev'. rewrite Hl. simpl. done.
Qed.

Lemma redo_sets_lsids_witness :
  ∃ cursor ldev' ddev',
    redo_loop cfg0 hlp0 env_ok
      (S (Z.to_nat (super_ring_buffer_size super_crashed))) super_crashed
      4096 (super_log_checksum_salt super_crashed) ldev_crashed ddev0
      (written_lsid super_crashed)
    = Some (true, (cursor, ldev', ddev'))
    ∧ written (lsids wdev_restarted) = cursor
    ∧ permanent (lsids wdev_restarted) = cursor
    ∧ completed (lsids wdev_restarted) = cursor
    ∧ latest (lsids wdev_restarted) = cursor
    ∧ flush (lsids wdev_restarted) = cursor
    ∧ written_lsid (lsuper0 wdev_restarted) = cursor
    ∧ super_synced wdev_restarted.
Proof.
  apply (redo_sets_lsids cfg0 hlp0 env_ok ldev_crashed ddev0 4096 4096
           super_crashed []).
  vm_compute. reflexivity.
Defined.

(** A super sector written for another block size: [walb_ldev_initialize]
    fails and [prepare_wdev] returns [NULL]. *)
Example prepare_wdev_block_size_differs :
  prepare_wdev cfg0 hlp0 env_ok ldev_crashed ddev0 4096 4096
    {| checksum := 0; sector_size := 512; snapshot_metadata_size := 4;
       uuid := replicate 16 1; name := "0";
       super_ring_buffer_size := 1024; oldest_lsid := 0; written_lsid := 0;
       device_size := 2048; super_log_checksum_salt := 7 |} []
  = Some None.
Proof. reflexivity. Qed.

(** Scenario S2: the pack of 1 + 8 blocks at lsid 0 is redone and
    [written] is 9. *)
Example redo_single_write :
  lsids wdev_restarted
  = {| latest := 9; flush := 9; completed := 9; permanent := 9; written := 9;
       prev_written := 0; oldest := 0 |}
  ∧ written_lsid (lsuper0 wdev_restarted) = 9.
Proof. split; reflexivity. Qed.

(** ** CLEAR_LOG *)

Lemma get_offset_of_lsid_2_ext (cfg : build) (s1 s2 : walb_super_sector)
    (lsid : Z) :
  sector_size s1 = sector_size s2 →
  snapshot_metadata_size s1 = snapshot_metadata_size s2 →
  super_ring_buffer_size s1 = super_ring_buffer_size s2 →
  get_offset_of_lsid_2 cfg s1 lsid = get_offset_of_lsid_2 cfg s2 lsid.
Proof.
  intros H1 H2 H3.
  unfold get_offset_of_lsid_2, get_ring_buffer_offset_2,
    get_super_sector1_offset_2.
  by rewrite H1, H2, H3.
Qed.

Lemma snapd_ok_all_in_range (snapd : list walb_snapshot_record) :
  snapd_ok snapd →
  List.filter (lsid_in_range 0 (to_u64 (MAX_LSID + 1))) snapd = snapd
  ∧ List.filter (λ r, negb (lsid_in_range 0 (to_u64 (MAX_LSID + 1)) r)) snapd
    = [].
Proof.
  unfold snapd_ok. induction 1 as [|r l Hr Hl [IH1 IH2]]; [done|].
  assert (Hin : lsid_in_range 0 (to_u64 (MAX_LSID + 1)) r = true).
  { unfold lsid_in_range.
    change (to_u64 (MAX_LSID + 1)) with INVALID_LSID.
    destruct (Z.leb_spec 0 (lsid r)); [|lia].
    destruct (Z.ltb_spec (lsid r) INVALID_LSID); [done|lia]. }
  simpl. rewrite Hin. simpl. by rewrite IH1, IH2.
Qed.

Lemma snapshot_del_range_all (e : env) (wdev : walb_dev) :
  snapd_ok (snapd wdev) →
  let r := snapshot_del_range e wdev 0 (to_u64 (MAX_LSID + 1)) in
  (r.1 <? 0) = false → r.2 = set_snapd [] wdev.
Proof.
  intros Hok. destruct (snapd_ok_all_in_range _ Hok) as [H1 H2].
  unfold snapshot_del_range. rewrite H1, H2.
  destruct (snapd wdev) as [|r l] eqn:E; simpl.
  - intros _. destruct wdev. simpl in E. subst. done.
  - destruct (snapshot_write_ok e); simpl; done.
Qed.

Lemma clear_log_error2_restores (wdev : walb_dev) (lsids0 : lsid_set)
    (old_ring_buffer_size : Z) :
  let r := clear_log_error2 (iocore_set_readonly wdev) lsids0
             old_ring_buffer_size in
  r.1 = - EFAULT ∧ lsids (r.2) = lsids0
  ∧ ring_buffer_size (r.2) = old_ring_buffer_size
  ∧ is_read_only (r.2) = true.
Proof. done. Qed.

Lemma clear_log_commit_error (cfg : build) (e : env) (wdev wdev' : walb_dev)
    (lsids0 : lsid_set) (old_ring_buffer_size ret : Z) :
  clear_log_commit cfg e wdev lsids0 old_ring_buffer_size = Some (ret, wdev') →
  (sync_super_ok e = false ∨ alldevs_update_uuid_ret e ≠ 0
   ∨ sector_alloc_ok e = false ∨ sector_write_ok e = false → ret ≠ 0)
  ∧ (ret ≠ 0 →
     ret = - EFAULT ∧ lsids wdev' = lsids0
     ∧ ring_buffer_size wdev' = old_ring_buffer_size
     ∧ is_read_only wdev' = true).
Proof.
  unfold clear_log_commit. intros H.
  destruct (get_offset_of_lsid_2 cfg _ 0) as [lsid0_off|]; [|done].
  simpl in H.
  destruct (walb_sync_super_block e _) as [ok w1] eqn:Hsync.
  match type of Hsync with
  | walb_sync_super_block e ?w = _ =>
      pose proof (walb_sync_super_block_keeps e w) as Hk
  end.
  rewrite Hsync in Hk. simpl in Hk. destruct Hk as (Hok & _).
  subst ok.
  destruct (sync_super_ok e); simpl in H;
    [|inversion H; split; [done|intros _; apply clear_log_error2_restores]].
  destruct (Z.eqb_spec (alldevs_update_uuid_ret e) 0) as [Hall|Hall];
    simpl in H;
    [|inversion H; split; [done|intros _; apply clear_log_error2_restores]].
  destruct (invalidate_lsid cfg e w1 0) as [[ok w2]|] eqn:Hinv; [|done].
  simpl in H.
  assert (Hinv' : ok = sector_alloc_ok e && sector_write_ok e).
  { unfold invalidate_lsid in Hinv.
    destruct (ASSERT cfg _); [|done]. simpl in Hinv.
    destruct (sector_alloc_ok e); simpl in *; [|by inversion Hinv].
    destruct (get_offset_of_lsid_2 cfg _ 0); [|done]. simpl in Hinv.
    destruct (sector_write_ok e); by inversion Hinv. }
  destruct ok; simpl in H;
    [|inversion H; split; [done|intros _; apply clear_log_error2_restores]].
  destruct (snapshot_del_range e w2 0 _) as [n w3]. 
  destruct (n <? 0); simpl in H;
    [inversion H; split; [done|intros _; apply clear_log_error2_restores]|].
  destruct (ASSERT cfg _); [|done]. simpl in H.
  inversion H. split; [|done].
  symmetry in Hinv'. apply andb_true_iff in Hinv' as [Ha Hw].
  intros [?|[?|[?|?]]]; congruence.
Qed.

Lemma clear_log_commit_success (cfg : build) (e : env) (wdev wdev' : walb_dev)
    (lsids0 : lsid_set) (old_ring_buffer_size : Z) :
  snapd_ok (snapd wdev) →
  clear_log_commit cfg e wdev lsids0 old_ring_buffer_size = Some (0, wdev') →
  lsids wdev' = lsids wdev
  ∧ uuid (lsuper0 wdev') = random_uuid e
  ∧ super_log_checksum_salt (lsuper0 wdev') = to_u32 (random_salt e)
  ∧ log_checksum_salt wdev' = to_u32 (random_salt e)
  ∧ super_synced wdev'
  ∧ ring_buffer_size wdev' = ring_buffer_size wdev
  ∧ super_ring_buffer_size (lsuper0 wdev') = ring_buffer_size wdev
  ∧ snapshot_n_records (snapd wdev') = 0
  ∧ (∃ off, get_offset_of_lsid_2 cfg (lsuper0 wdev') 0 = Some off
            ∧ bd_sectors (ldev wdev') !! off
              = Some (zero_sector (physical_bs wdev)))
  ∧ log_overflow wdev' = false
  ∧ cpd wdev' = CP_RUNNING ∧ iocore_frozen wdev' = false
  ∧ freeze_state wdev' = freeze_state wdev.
Proof.
  unfold clear_log_commit. intros Hsnap H.
  destruct (get_offset_of_lsid_2 cfg _ 0) as [lsid0_off|] eqn:Hoff; [|done].
  simpl in H. unfold walb_sync_super_block in H. simpl in H.
  destruct (sync_super_ok e); simpl in H; [|done].
  destruct (Z.eqb_spec (alldevs_update_uuid_ret e) 0) as [Hall|Hall];
    simpl in H; [|done].
  unfold invalidate_lsid in H.
  destruct (ASSERT cfg _); [|done]. simpl in H.
  destruct (sector_alloc_ok e); simpl in H; [|done].
  erewrite get_offset_of_lsid_2_ext in H; [rewrite Hoff in H|done..].
  simpl in H.
  destruct (sector_write_ok e); simpl in H; [|done].
  match type of H with
  | context [snapshot_del_range e ?w 0 ?hi] =>
      pose proof (snapshot_del_range_all e w Hsnap) as Hdel;
      destruct (snapshot_del_range e w 0 hi) as [n w3]
  end.
  simpl in Hdel.
  destruct (n <? 0); simpl in H; [done|].
  specialize (Hdel eq_refl). subst w3.
  destruct (ASSERT cfg _); [|done]. simpl in H.
  inversion H. subst wdev'. clear H. simpl. unfold super_synced. simpl.
  repeat split; try done.
  exists lsid0_off. split.
  - erewrite get_offset_of_lsid_2_ext; [exact Hoff|done..].
  - apply lookup_insert_eq.
Qed.

(** C1, amended.  After a successful CLEAR_LOG (on a snapshot store that
    holds valid lsids only) all lsids are 0; the super image carries the new
    uuid and the new salt and is synced to disk; if the log device had
    grown, [ring_buffer_size] is recomputed from its new size; the snapshot
    store is empty; the sector of lsid 0 is zeros on disk; the log overflow
    flag is cleared; checkpointing is started and the pack stage resumed.
    The freeze state is the one at entry: the device is in the melted state
    afterwards when it was before. *)
Theorem clear_log_success (cfg : build) (e : env) (wdev wdev' : walb_dev)
    (ctl : walb_ctl) :
  snapd_ok (snapd wdev) →
  ioctl_wdev_clear_log cfg e wdev ctl = Some (0, wdev') →
  clear_log_done cfg e wdev wdev' ∧ freeze_state wdev' = freeze_state wdev.
Proof.
  unfold ioctl_wdev_clear_log. intros Hsnap H. simpl in H.
  destruct (nr_sects (ldev wdev) <? ldev_size wdev); [done|].
  unfold clear_log_done.
  destruct (ldev_size wdev <? nr_sects (ldev wdev)).
  - unfold resize_disk in H.
    destruct (capacity (log_gd wdev) =? nr_sects (ldev wdev));
      [|destruct (bdget_disk_ok e); simpl in H; [|done]];
      simpl in H;
      destruct (addr_pb (physical_bs wdev) (nr_sects (ldev wdev))) as [a|];
      try done; simpl in H;
      destruct (get_ring_buffer_offset cfg (to_int (physical_bs wdev))
                  (n_snapshots wdev)) as [off|]; try done; simpl in H;
      apply clear_log_commit_success in H; try done; simpl in H;
      destruct H as (Hl & Hu & Hs1 & Hs2 & Hsync & Hr & Hsr & Hn & Hz & Ho
                     & Hc & Hi & Hf);
      unfold get_completed_lsid, get_written_lsid; rewrite Hl; simpl;
      (repeat split; try done;
       [by destruct (WALB_FAST_ALGORITHM cfg)
       |by exists a, off
       |by rewrite Hr]).
  - apply clear_log_commit_success in H; try done. simpl in H.
    destruct H as (Hl & Hu & Hs1 & Hs2 & Hsync & Hr & Hsr & Hn & Hz & Ho
                   & Hc & Hi & Hf).
    unfold get_completed_lsid, get_written_lsid. rewrite Hl. simpl.
    repeat split; try done.
    + by destruct (WALB_FAST_ALGORITHM cfg).
    + by rewrite Hr.
Qed.

Lemma clear_log_success_witness :
  clear_log_done cfg0 env_ok wdev0_grown (clear_log_result env_ok wdev0_grown).2
  ∧ freeze_state (clear_log_result env_ok wdev0_grown).2
    = freeze_state wdev0_grown.
Proof.
  apply (clear_log_success cfg0 env_ok wdev0_grown _ (ctl_u64 0)).
  - unfold snapd_ok. simpl. constructor; [|constructor].
    simpl. unfold INVALID_LSID. lia.
  - vm_compute. reflexivity.
Defined.

(** Scenario S6: after CLEAR_LOG the ring of the grown device has 4093
    blocks, the uuid and the salt are new and no snapshot is left. *)
Example clear_log_grown :
  let wdev' := (clear_log_result env_ok wdev0_grown).2 in
  ring_buffer_size wdev' = 4093
  ∧ uuid (lsuper0 wdev') = replicate 16 2
  ∧ log_checksum_salt wdev' = 99
  ∧ snapd wdev' = []
  ∧ oldest (lsids wdev') = 0 ∧ written (lsids wdev') = 0.
Proof. vm_compute. repeat split; reflexivity. Qed.

(** C1 as stated fails on a device that was frozen when CLEAR_LOG was
    issued: the request succeeds and the device is still in the frozen
    state. *)
Lemma clear_log_claim_frozen :
  ¬ clear_log_claim cfg0 env_ok wdev0_frozen (ctl_u64 0).
Proof.
  unfold clear_log_claim. intros H.
  destruct (H (clear_log_result env_ok wdev0_frozen).2) as [_ Hm].
  - vm_compute. reflexivity.
  - vm_compute in Hm. discriminate.
Qed.

(** C3.  If CLEAR_LOG gets as far as the super block sync and then fails
    (at the sync, at the uuid index, at the invalidation of lsid 0 or at
    the deletion of the snapshots), the lsids and [ring_buffer_size] are
    those at entry, the device is read-only and the error is returned. *)
Theorem clear_log_failure_restores (cfg : build) (e : env)
    (wdev wdev' : walb_dev) (ctl : walb_ctl) (ret : Z) :
  ioctl_wdev_clear_log cfg e wdev ctl = Some (ret, wdev') →
  ldev_size wdev ≤ nr_sects (ldev wdev) →
  (ldev_size wdev < nr_sects (ldev wdev) →
   (resize_disk e (log_gd wdev) (nr_sects (ldev wdev))).1 = true) →
  (sync_super_ok e = false ∨ alldevs_update_uuid_ret e ≠ 0
   ∨ sector_alloc_ok e = false ∨ sector_write_ok e = false → ret ≠ 0)
  ∧ (ret ≠ 0 →
     ret = - EFAULT ∧ lsids wdev' = lsids wdev
     ∧ ring_buffer_size wdev' = ring_buffer_size wdev
     ∧ is_read_only wdev' = true).
Proof.
  unfold ioctl_wdev_clear_log. intros H Hsize Hresize. simpl in H.
  destruct (Z.ltb_spec (nr_sects (ldev wdev)) (ldev_size wdev)); [lia|].
  destruct (Z.ltb_spec (ldev_size wdev) (nr_sects (ldev wdev))) as [Hg|_].
  - specialize (Hresize Hg).
    destruct (resize_disk e (log_gd wdev) (nr_sects (ldev wdev)))
      as [ok gd'].
    simpl in Hresize. subst ok. simpl in H.
    destruct (addr_pb (physical_bs wdev) (nr_sects (ldev wdev))) as [a|];
      [|done].
    simpl in H.
    destruct (get_ring_buffer_offset cfg (to_int (physical_bs wdev))
                (n_snapshots wdev)) as [off|]; [|done].
    simpl in H.
    by apply clear_log_commit_error in H.
  - by apply clear_log_commit_error in H.
Qed.

Lemma clear_log_failure_restores_witness :
  (sync_super_ok env_sync_fails = false
   ∨ alldevs_update_uuid_ret env_sync_fails ≠ 0
   ∨ sector_alloc_ok env_sync_fails = false
   ∨ sector_write_ok env_sync_fails = false →
   (clear_log_result env_sync_fails wdev0_grown).1 ≠ 0)
  ∧ ((clear_log_result env_sync_fails wdev0_grown).1 ≠ 0 →
     (clear_log_result env_sync_fails wdev0_grown).1 = - EFAULT
     ∧ lsids (clear_log_result env_sync_fails wdev0_grown).2
       = lsids wdev0_grown
     ∧ ring_buffer_size (clear_log_result env_sync_fails wdev0_grown).2
       = ring_buffer_size wdev0_grown
     ∧ is_read_only (clear_log_result env_sync_fails wdev0_grown).2 = true).
Proof.
  apply (clear_log_failure_restores cfg0 env_sync_fails wdev0_grown _
           (ctl_u64 0)).
  - vm_compute. reflexivity.
  - vm_compute. discriminate.
  - intros _. vm_compute. reflexivity.
Defined.

(** ** The snapshot store and the freeze states in use *)

(** The store admits valid lsids only, and deleting keeps it so. *)
Lemma snapshot_add_keeps_snapd_ok (e : env) (wdev : walb_dev) (name : string)
    (lsid timestamp : Z) :
  is_u64 lsid → snapd_ok (snapd wdev) →
  snapd_ok (snapd (snapshot_add e wdev name lsid timestamp).2).
Proof.
  unfold is_u64, snapd_ok, snapshot_add. intros Hu Hok.
  destruct (existsb _ _); [done|].
  destruct (Z.eqb_spec lsid INVALID_LSID) as [|Hne]; [done|].
  destruct (_ <=? _); [done|].
  destruct (snapshot_write_ok e); simpl; [|done].
  apply Forall_app. split; [done|].
  constructor; [|constructor]. simpl. unfold INVALID_LSID in *. lia.
Qed.

Lemma snapshot_del_range_keeps_snapd_ok (e : env) (wdev : walb_dev)
    (lsid0 lsid1 : Z) :
  snapd_ok (snapd wdev) →
  snapd_ok (snapd (snapshot_del_range e wdev lsid0 lsid1).2).
Proof.
  unfold snapd_ok, snapshot_del_range. intros Hok.
  destruct (List.filter (lsid_in_range lsid0 lsid1) (snapd wdev)); [done|].
  destruct (snapshot_write_ok e); simpl; [|done].
  apply Forall_forall. intros r Hr.
  apply list_elem_of_In, filter_In in Hr as [Hr _].
  rewrite Forall_forall in Hok. apply Hok. by apply list_elem_of_In.
Qed.

(** FREEZE without a timeout takes the example device to its frozen form,
    and MELT takes it back. *)
Example freeze_wdev0 : ioctl_wdev_freeze wdev0 (ctl_u32 0) = (0, wdev0_frozen).
Proof. reflexivity. Qed.

Example melt_wdev0_frozen : ioctl_wdev_melt wdev0_frozen (ctl_u32 0) = (0, wdev0).
Proof. reflexivity. Qed.

(** Scenario S5: FREEZE with a timeout of 2 seconds queues the melt work
    with a delay of 2000 ms; when it runs the device is melted again. *)
Example freeze_timeout_melts :
  freeze_dwork (ioctl_wdev_freeze wdev0 (ctl_u32 2)).2 = Some 2000
  ∧ task_melt (ioctl_wdev_freeze wdev0 (ctl_u32 2)).2 = wdev0.
Proof. split; reflexivity. Qed.

(** RESIZE of the example device, 2048 blocks on a data device of 4096. *)
Example resize_wdev0 :
  (ioctl_wdev_resize env_ok wdev0 (ctl_u64 1000)).1 = - EFAULT
  ∧ (ioctl_wdev_resize env_ok wdev0 (ctl_u64 5000)).1 = - EFAULT
  ∧ ioctl_wdev_resize env_ok wdev0 (ctl_u64 2048) = (0, wdev0)
  ∧ size (ioctl_wdev_resize env_ok wdev0 (ctl_u64 3000)).2 = 3000
  ∧ size (ioctl_wdev_resize env_ok wdev0 (ctl_u64 0)).2 = 4096.
Proof. repeat split; reflexivity. Qed.

(** * More properties of the code *)

(** ** Room in the snapshot metadata *)

(** X1.  The sectors [get_metadata_size] reserves have room for
    [n_snapshots] records, and one sector fewer would not: no sector for no
    snapshot. *)
Theorem metadata_sectors_hold_snapshots (cfg : build) (ssize n_snapshots : Z) :
  is_int ssize → 88 ≤ ssize → sector_size_asserted cfg ssize →
  0 ≤ n_snapshots →
  n_snapshots + max_n_snapshots_in_sector ssize ≤ INT_MAX →
  ∃ m, get_metadata_size cfg ssize n_snapshots = Some m
       ∧ 0 ≤ m
       ∧ n_snapshots ≤ m * max_n_snapshots_in_sector ssize
       ∧ (n_snapshots = 0 → m = 0)
       ∧ (0 < n_snapshots → (m - 1) * max_n_snapshots_in_sector ssize
                            < n_snapshots).
Proof.
  intros Hint Hge Hok Hn Hmax.
  pose proof (max_n_snapshots_bounds ssize Hint Hge) as Ht.
  rewrite get_metadata_size_no_overflow by done.
  set (t := max_n_snapshots_in_sector ssize) in *.
  pose proof (Z.div_mod (n_snapshots + t - 1) t ltac:(lia)) as Hq.
  pose proof (Z.mod_pos_bound (n_snapshots + t - 1) t ltac:(lia)) as Hr.
  set (m := (n_snapshots + t - 1) / t) in *.
  exists m.
  assert (0 ≤ m) by (apply Z.div_pos; lia).
  repeat split; try done; try nia.
Qed.

Lemma metadata_sectors_hold_snapshots_witness :
  ∃ m, get_metadata_size cfg0 4096 100 = Some m
       ∧ 0 ≤ m
       ∧ 100 ≤ m * max_n_snapshots_in_sector 4096
       ∧ (100 = 0 → m = 0)
       ∧ (0 < 100 → (m - 1) * max_n_snapshots_in_sector 4096 < 100).
Proof.
  apply (metadata_sectors_hold_snapshots cfg0 4096 100).
  - unfold is_int. lia.
  - lia.
  - intros _. split; [reflexivity|]. unfold cfg0, PAGE_SIZE. lia.
  - lia.
  - vm_compute. discriminate.
Defined.

(** X2.  A sector too small for the header gives 32 records, by the
    wrap-around of the unsigned subtraction; a sector with room for the
    header but for no record gives 0, and [get_metadata_size] then divides
    by zero. *)
Theorem max_n_snapshots_small_sector (ssize : Z) :
  (0 ≤ ssize < 8 → max_n_snapshots_in_sector ssize = 32)
  ∧ (8 ≤ ssize < 88 →
     max_n_snapshots_in_sector ssize = 0
     ∧ ∀ cfg n_snapshots, get_metadata_size cfg ssize n_snapshots = None).
Proof.
  split.
  - intros H.
    assert (Hc : ssize = 0 ∨ ssize = 1 ∨ ssize = 2 ∨ ssize = 3 ∨ ssize = 4
                 ∨ ssize = 5 ∨ ssize = 6 ∨ ssize = 7) by lia.
    destruct Hc as [->|[->|[->|[->|[->|[->|[->| ->]]]]]]]; reflexivity.
  - intros H.
    assert (Hz : max_n_snapshots_in_sector ssize = 0).
    { unfold max_n_snapshots_in_sector, sizeof_walb_snapshot_sector_t,
        sizeof_walb_snapshot_record_t.
      rewrite (to_u64_small ssize) by (unfold is_u64; lia).
      rewrite (to_u64_small (ssize - 8)) by (unfold is_u64; lia).
      rewrite Z.div_small by lia. reflexivity. }
    split; [done|]. intros cfg n. unfold get_metadata_size.
    rewrite Hz. destruct (ASSERT cfg _); reflexivity.
Qed.

(** X3.  On a log device whose sector size divides the page size, super0
    starts exactly [PAGE_SIZE] bytes into the device, and the reserved
    page, super0, the snapshot metadata, super1 and the ring buffer follow
    one another without gap or overlap. *)
Theorem layout_regions_consecutive (cfg : build) (super_sect : walb_super_sector) :
  build_ok cfg →
  0 < sector_size super_sect → (sector_size super_sect | PAGE_SIZE cfg) →
  is_u32 (snapshot_metadata_size super_sect) →
  ∃ super0_off metadata_off super1_off ring_off,
    get_super_sector0_offset_2 cfg super_sect = Some super0_off
    ∧ get_metadata_offset_2 cfg super_sect = Some metadata_off
    ∧ get_super_sector1_offset_2 cfg super_sect = Some super1_off
    ∧ get_ring_buffer_offset_2 cfg super_sect = Some ring_off
    ∧ super0_off * sector_size super_sect = PAGE_SIZE cfg
    ∧ metadata_off = super0_off + 1
    ∧ super1_off - metadata_off = snapshot_metadata_size super_sect
    ∧ ring_off = super1_off + 1
    ∧ 0 < super0_off < metadata_off ∧ metadata_off ≤ super1_off < ring_off.
Proof.
  intros Hcfg Hpos Hdiv Hmd. unfold is_u32 in Hmd.
  destruct (divides_page cfg _ Hcfg Hpos Hdiv) as (Hint & Hmod & Hle & Hq).
  pose proof (get_metadata_offset_divides cfg _ Hcfg Hpos Hdiv) as H1.
  pose proof (get_super_sector0_offset_divides cfg _ Hcfg Hpos Hdiv) as H0.
  exists (PAGE_SIZE cfg / sector_size super_sect),
    (PAGE_SIZE cfg / sector_size super_sect + 1),
    (PAGE_SIZE cfg / sector_size super_sect + 1
     + snapshot_metadata_size super_sect),
    (PAGE_SIZE cfg / sector_size super_sect + 1
     + snapshot_metadata_size super_sect + 1).
  unfold get_super_sector0_offset_2, get_metadata_offset_2,
    get_ring_buffer_offset_2, get_super_sector1_offset_2.
  rewrite to_int_small, H0, H1 by done. simpl.
  rewrite !to_u64_small by (unfold is_u64; lia). simpl.
  rewrite ?to_u64_small by (unfold is_u64; lia).
  repeat split; try done; try lia.
  pose proof (Z.div_mod (PAGE_SIZE cfg) (sector_size super_sect) ltac:(lia)).
  nia.
Qed.

Lemma layout_regions_consecutive_witness :
  ∃ super0_off metadata_off super1_off ring_off,
    get_super_sector0_offset_2 cfg0 super0 = Some super0_off
    ∧ get_metadata_offset_2 cfg0 super0 = Some metadata_off
    ∧ get_super_sector1_offset_2 cfg0 super0 = Some super1_off
    ∧ get_ring_buffer_offset_2 cfg0 super0 = Some ring_off
    ∧ super0_off * sector_size super0 = PAGE_SIZE cfg0
    ∧ metadata_off = super0_off + 1
    ∧ super1_off - metadata_off = snapshot_metadata_size super0
    ∧ ring_off = super1_off + 1
    ∧ 0 < super0_off < metadata_off ∧ metadata_off ≤ super1_off < ring_off.
Proof.
  apply (layout_regions_consecutive cfg0 super0).
  - unfold build_ok. simpl. lia.
  - simpl. lia.
  - exists 1. reflexivity.
  - unfold is_u32. simpl. lia.
Defined.

(** ** The freeze state and the melt work *)

(** X4.  The melt work is queued exactly while the device is frozen with
    timeout: FREEZE, MELT, the melt work itself and its cancellation all
    keep it so. *)
Theorem freeze_consistent_kept (wdev : walb_dev) (ctl : walb_ctl) :
  freeze_consistent wdev →
  freeze_consistent (ioctl_wdev_freeze wdev ctl).2
  ∧ freeze_consistent (ioctl_wdev_melt wdev ctl).2
  ∧ freeze_consistent (task_melt wdev)
  ∧ freeze_consistent (cancel_melt_work wdev).
Proof.
  unfold freeze_consistent, ioctl_wdev_freeze, ioctl_wdev_melt,
    melt_if_frozen, freeze_if_melted, task_melt, cancel_melt_work.
  destruct wdev as [? ? ? ? ? ? ? ? ? ? ? ? ? ? ? st dw ? ? ? ?].
  simpl. intros [H1 H2].
  assert (Hno : ∀ A (x : option A), x = None → ¬ is_Some x)
    by (intros A x -> [? H]; discriminate H).
  destruct st; simpl;
    repeat match goal with
           | |- context [0 <? ?t] => destruct (0 <? t); simpl
           end;
    repeat split; intros; try done; try (by eexists);
    try (by apply H1); try (by destruct (Hno _ _ eq_refl));
    try (match goal with H : is_Some _ |- _ => specialize (H1 H) end;
         discriminate H1).
Qed.

Lemma freeze_consistent_kept_witness :
  freeze_consistent (ioctl_wdev_freeze wdev0 (ctl_u32 2)).2
  ∧ freeze_consistent (ioctl_wdev_melt wdev0 (ctl_u32 2)).2
  ∧ freeze_consistent (task_melt wdev0)
  ∧ freeze_consistent (cancel_melt_work wdev0).
Proof.
  apply (freeze_consistent_kept wdev0 (ctl_u32 2)).
  unfold freeze_consistent. simpl. split; [intros [? H]|intros H]; discriminate H.
Defined.

(** X5.  IS_FROZEN answers 1 after every FREEZE and 0 after every MELT,
    and 0 again once the melt work of a device frozen with timeout has
    run; a melt work that runs in another state changes nothing but its
    own queue entry. *)
Theorem is_frozen_follows (wdev : walb_dev) (ctl ctl' : walb_ctl) :
  val_int (ioctl_wdev_is_frozen (ioctl_wdev_freeze wdev ctl).2 ctl').2 = 1
  ∧ val_int (ioctl_wdev_is_frozen (ioctl_wdev_melt wdev ctl).2 ctl').2 = 0
  ∧ (freeze_state wdev = FRZ_FREEZED_WITH_TIMEOUT →
     val_int (ioctl_wdev_is_frozen (task_melt wdev) ctl').2 = 0)
  ∧ (freeze_state wdev ≠ FRZ_FREEZED_WITH_TIMEOUT →
     task_melt wdev = set_freeze_dwork None wdev).
Proof.
  unfold ioctl_wdev_is_frozen, ioctl_wdev_freeze, ioctl_wdev_melt,
    melt_if_frozen, freeze_if_melted, task_melt, cancel_melt_work.
  destruct (freeze_state wdev) eqn:E; simpl; rewrite ?E; simpl;
    try destruct (0 <? _); simpl; rewrite ?E; repeat split; done.
Qed.

(** X6.  The last FREEZE wins: a FREEZE issued on a device that a FREEZE
    has just frozen leaves what it would have left alone, whatever the
    first one asked for; a timeout is replaced, or dropped by a FREEZE
    without timeout. *)
Theorem freeze_twice (wdev : walb_dev) (ctl1 ctl2 : walb_ctl) :
  freeze_consistent wdev →
  ioctl_wdev_freeze (ioctl_wdev_freeze wdev ctl1).2 ctl2
  = ioctl_wdev_freeze wdev ctl2.
Proof.
  unfold freeze_consistent. intros [H1 H2].
  unfold ioctl_wdev_freeze, freeze_if_melted, cancel_melt_work.
  destruct wdev as [? ? ? ? ? ? ? ? ? ? ? ? ? ? ? st dw ? ? ? ?].
  simpl in *.
  destruct st; simpl;
    repeat match goal with
           | |- context [0 <? ?t] => destruct (0 <? t); simpl
           end;
    try reflexivity;
    destruct dw as [d|]; try reflexivity;
    (specialize (H1 ltac:(by eexists)); discriminate H1).
Qed.

Lemma freeze_twice_witness :
  ioctl_wdev_freeze (ioctl_wdev_freeze wdev0 (ctl_u32 5)).2 (ctl_u32 0)
  = ioctl_wdev_freeze wdev0 (ctl_u32 0).
Proof.
  apply (freeze_twice wdev0 (ctl_u32 5) (ctl_u32 0)).
  unfold freeze_consistent. simpl. split; [intros [? H]|intros H]; discriminate H.
Defined.

(** X7.  FREEZE followed by MELT gives back the device as it was, when it
    was melted with the pack stage and checkpointing running and no melt
    work queued. *)
Theorem freeze_melt_round_trip (wdev : walb_dev) (ctl ctl' : walb_ctl) :
  freeze_state wdev = FRZ_MELTED → freeze_dwork wdev = None →
  iocore_frozen wdev = false → cpd wdev = CP_RUNNING →
  ioctl_wdev_melt (ioctl_wdev_freeze wdev ctl).2 ctl' = (0, wdev).
Proof.
  destruct wdev as [? ? ? ? ? ? ? ? ? ? ? ? ? ? ? st dw cp fr ? ?].
  simpl. intros -> -> -> ->.
  unfold ioctl_wdev_melt, ioctl_wdev_freeze, melt_if_frozen,
    freeze_if_melted, cancel_melt_work. simpl.
  repeat match goal with
         | |- context [0 <? ?t] => destruct (0 <? t); simpl
         end; reflexivity.
Qed.

Lemma freeze_melt_round_trip_witness :
  ioctl_wdev_melt (ioctl_wdev_freeze wdev0 (ctl_u32 7)).2 (ctl_u32 0)
  = (0, wdev0).
Proof.
  apply (freeze_melt_round_trip wdev0 (ctl_u32 7) (ctl_u32 0));
    reflexivity.
Defined.

(** ** The lsids over the control surface *)

(** X8.  A successful SET_OLDEST_LSID changes [oldest] and nothing else of
    the lsids, GET_OLDEST_LSID then returns the value set, and on a device
    with [oldest <= written] the oldest lsid has only advanced and has not
    passed [written]. *)
Theorem set_oldest_then_get (cfg : build) (hlp : helpers) (e : env)
    (wdev wdev' : walb_dev) (ctl ctl' : walb_ctl) :
  ioctl_wdev_set_oldest_lsid cfg hlp e wdev ctl = Some (0, wdev') →
  oldest (lsids wdev) ≤ written (lsids wdev) →
  lsids wdev' = set_oldest (val_u64 ctl) (lsids wdev)
  ∧ ioctl_wdev_get_oldest_lsid wdev' ctl' = (0, set_val_u64 (val_u64 ctl) ctl')
  ∧ oldest (lsids wdev) ≤ oldest (lsids wdev') ≤ written (lsids wdev').
Proof.
  unfold ioctl_wdev_set_oldest_lsid. intros H Hinv.
  destruct (Z.eqb_spec (val_u64 ctl) (written (lsids wdev))) as [Heq|Hne].
  - simpl in H. unfold walb_sync_super_block in H.
    destruct (sync_super_ok e); simpl in H; [|done].
    inversion H. subst wdev'. unfold ioctl_wdev_get_oldest_lsid. simpl.
    repeat split; try done; lia.
  - destruct (Z.leb_spec (oldest (lsids wdev)) (val_u64 ctl));
      destruct (Z.ltb_spec (val_u64 ctl) (written (lsids wdev)));
      simpl in H; try done.
    destruct (walb_check_lsid_valid cfg hlp e wdev (val_u64 ctl)) as [v|];
      [|done].
    simpl in H. destruct (negb (v =? 0)); simpl in H; [|done].
    unfold walb_sync_super_block in H.
    destruct (sync_super_ok e); simpl in H; [|done].
    inversion H. subst wdev'. unfold ioctl_wdev_get_oldest_lsid. simpl.
    repeat split; try done; lia.
Qed.

Lemma set_oldest_then_get_witness :
  lsids (snd (walb_sync_super_block env_ok
                (set_lsids (set_oldest 9 (lsids wdev0)) wdev0)))
  = set_oldest (val_u64 (ctl_u64 9)) (lsids wdev0)
  ∧ ioctl_wdev_get_oldest_lsid
      (snd (walb_sync_super_block env_ok
              (set_lsids (set_oldest 9 (lsids wdev0)) wdev0))) (ctl_u64 0)
    = (0, set_val_u64 (val_u64 (ctl_u64 9)) (ctl_u64 0))
  ∧ oldest (lsids wdev0)
    ≤ oldest (lsids (snd (walb_sync_super_block env_ok
                            (set_lsids (set_oldest 9 (lsids wdev0)) wdev0))))
    ≤ written (lsids (snd (walb_sync_super_block env_ok
                             (set_lsids (set_oldest 9 (lsids wdev0)) wdev0)))).
Proof.
  apply (set_oldest_then_get cfg0 hlp0 env_ok wdev0 _ (ctl_u64 9) (ctl_u64 0)).
  - vm_compute. reflexivity.
  - simpl. lia.
Defined.

(** X9.  GET_LOG_USAGE returns [latest - oldest] without wrap-around on a
    device with [oldest <= latest]; with [oldest] above [latest] a debug
    build stops at the assertion and a release build returns the
    difference wrapped into [u64]. *)
Theorem log_usage_range (cfg : build) (wdev : walb_dev) (ctl : walb_ctl) :
  lsids_u64 (lsids wdev) →
  (oldest (lsids wdev) ≤ latest (lsids wdev) →
   ioctl_wdev_get_log_usage cfg wdev ctl
   = Some (0, set_val_u64 (latest (lsids wdev) - oldest (lsids wdev)) ctl)
   ∧ 0 ≤ latest (lsids wdev) - oldest (lsids wdev) ≤ latest (lsids wdev))
  ∧ (latest (lsids wdev) < oldest (lsids wdev) →
     ioctl_wdev_get_log_usage cfg wdev ctl
     = if WALB_DEBUG cfg then None
       else Some (0, set_val_u64
                       (2 ^ 64 - (oldest (lsids wdev) - latest (lsids wdev)))
                       ctl)).
Proof.
  unfold lsids_u64, is_u64, ioctl_wdev_get_log_usage, get_log_usage, ASSERT.
  intros [Hl Ho]. split; intros H.
  - destruct (Z.leb_spec (oldest (lsids wdev)) (latest (lsids wdev))); [|lia].
    rewrite to_u64_small by (unfold is_u64; lia).
    destruct (WALB_DEBUG cfg); simpl; (split; [done|lia]).
  - destruct (Z.leb_spec (oldest (lsids wdev)) (latest (lsids wdev))); [lia|].
    destruct (WALB_DEBUG cfg); simpl; [done|].
    unfold to_u64.
    replace (latest (lsids wdev) - oldest (lsids wdev))
      with (2 ^ 64 - (oldest (lsids wdev) - latest (lsids wdev))
            + (-1) * 2 ^ 64) by lia.
    rewrite Z.mod_add by lia. rewrite Z.mod_small by lia. done.
Qed.

Lemma log_usage_range_witness :
  (oldest (lsids wdev0) ≤ latest (lsids wdev0) →
   ioctl_wdev_get_log_usage cfg0 wdev0 (ctl_u64 0)
   = Some (0, set_val_u64 (latest (lsids wdev0) - oldest (lsids wdev0))
                (ctl_u64 0))
   ∧ 0 ≤ latest (lsids wdev0) - oldest (lsids wdev0) ≤ latest (lsids wdev0))
  ∧ (latest (lsids wdev0) < oldest (lsids wdev0) →
     ioctl_wdev_get_log_usage cfg0 wdev0 (ctl_u64 0)
     = if WALB_DEBUG cfg0 then None
       else Some (0, set_val_u64
                       (2 ^ 64 - (oldest (lsids wdev0) - latest (lsids wdev0)))
                       (ctl_u64 0))).
Proof.
  apply (log_usage_range cfg0 wdev0 (ctl_u64 0)).
  unfold lsids_u64, is_u64. simpl. lia.
Defined.

(** ** The error exits of CLEAR_LOG *)

(** X10.  When the log device has shrunk, CLEAR_LOG returns the error after
    freezing the pack stage and stopping checkpointing and without resuming
    either: nothing else of the device changes, IS_FROZEN still answers as
    before, and on a device in the melted state a MELT does not resume
    them. *)
Theorem clear_log_shrunk_stays_frozen (cfg : build) (e : env)
    (wdev : walb_dev) (ctl ctl' : walb_ctl) :
  nr_sects (ldev wdev) < ldev_size wdev →
  ∃ wdev',
    ioctl_wdev_clear_log cfg e wdev ctl = Some (- EFAULT, wdev')
    ∧ wdev' = stop_checkpointing (iocore_freeze wdev)
    ∧ iocore_frozen wdev' = true ∧ cpd wdev' = CP_STOPPED
    ∧ lsids wdev' = lsids wdev ∧ is_read_only wdev' = is_read_only wdev
    ∧ ioctl_wdev_is_frozen wdev' ctl' = ioctl_wdev_is_frozen wdev ctl'
    ∧ (freeze_state wdev = FRZ_MELTED →
       ioctl_wdev_melt wdev' ctl' = (0, wdev')).
Proof.
  intros Hs. eexists. split.
  - unfold ioctl_wdev_clear_log. simpl.
    destruct (Z.ltb_spec (nr_sects (ldev wdev)) (ldev_size wdev)); [done|lia].
  - repeat split. intros Hm. by apply ioctl_wdev_melt_melted.
Qed.

Lemma clear_log_shrunk_stays_frozen_witness :
  ∃ wdev',
    ioctl_wdev_clear_log cfg0 env_ok (set_ldev_size 20000 wdev0) (ctl_u64 0)
    = Some (- EFAULT, wdev')
    ∧ wdev' = stop_checkpointing (iocore_freeze (set_ldev_size 20000 wdev0))
    ∧ iocore_frozen wdev' = true ∧ cpd wdev' = CP_STOPPED
    ∧ lsids wdev' = lsids (set_ldev_size 20000 wdev0)
    ∧ is_read_only wdev' = is_read_only (set_ldev_size 20000 wdev0)
    ∧ ioctl_wdev_is_frozen wdev' (ctl_u64 0)
      = ioctl_wdev_is_frozen (set_ldev_size 20000 wdev0) (ctl_u64 0)
    ∧ (freeze_state (set_ldev_size 20000 wdev0) = FRZ_MELTED →
       ioctl_wdev_melt wdev' (ctl_u64 0) = (0, wdev')).
Proof.
  apply (clear_log_shrunk_stays_frozen cfg0 env_ok (set_ldev_size 20000 wdev0)
           (ctl_u64 0) (ctl_u64 0)).
  simpl. lia.
Defined.

(** X11.  When the log device has grown and growing the walblog disk
    fails, CLEAR_LOG returns the error with the device read-only, the pack
    stage and checkpointing resumed, and every lsid left at 0, the
    completed lsid included: they are not restored.  The walblog disk
    already has the new capacity, the recorded log device size and the
    ring buffer size are the old ones. *)
Theorem clear_log_grow_failure (cfg : build) (e : env) (wdev : walb_dev)
    (ctl : walb_ctl) :
  ldev_size wdev < nr_sects (ldev wdev) →
  capacity (log_gd wdev) ≠ nr_sects (ldev wdev) →
  bdget_disk_ok e = false →
  ∃ wdev',
    ioctl_wdev_clear_log cfg e wdev ctl = Some (- EFAULT, wdev')
    ∧ is_read_only wdev' = true
    ∧ iocore_frozen wdev' = false ∧ cpd wdev' = CP_RUNNING
    ∧ latest (lsids wdev') = 0 ∧ flush (lsids wdev') = 0
    ∧ get_completed_lsid cfg wdev' = 0
    ∧ (WALB_FAST_ALGORITHM cfg = true → completed (lsids wdev') = 0)
    ∧ permanent (lsids wdev') = 0 ∧ written (lsids wdev') = 0
    ∧ prev_written (lsids wdev') = 0 ∧ oldest (lsids wdev') = 0
    ∧ capacity (log_gd wdev') = nr_sects (ldev wdev)
    ∧ ldev_size wdev' = ldev_size wdev
    ∧ ring_buffer_size wdev' = ring_buffer_size wdev
    ∧ lsuper0 wdev' = lsuper0 wdev ∧ ldev wdev' = ldev wdev.
Proof.
  intros Hg Hcap Hbd. eexists. split.
  - unfold ioctl_wdev_clear_log, resize_disk. simpl.
    destruct (Z.ltb_spec (nr_sects (ldev wdev)) (ldev_size wdev)); [lia|].
    destruct (Z.ltb_spec (ldev_size wdev) (nr_sects (ldev wdev))); [|lia].
    destruct (Z.eqb_spec (capacity (log_gd wdev)) (nr_sects (ldev wdev)));
      [done|].
    rewrite Hbd. simpl. reflexivity.
  - unfold get_completed_lsid, get_written_lsid. simpl.
    repeat split; try done.
    + by destruct (WALB_FAST_ALGORITHM cfg).
    + by intros ->.
Qed.

Lemma clear_log_grow_failure_witness :
  ∃ wdev',
    ioctl_wdev_clear_log cfg0
      {| sector_alloc_ok := true; sector_read_ok := true;
         sector_write_ok := true; sync_super_ok := true;
         snapshot_write_ok := true; bdget_disk_ok := false;
         alldevs_update_uuid_ret := 0; random_uuid := []; random_salt := 0 |}
      wdev0_grown (ctl_u64 0) = Some (- EFAULT, wdev')
    ∧ is_read_only wdev' = true
    ∧ iocore_frozen wdev' = false ∧ cpd wdev' = CP_RUNNING
    ∧ latest (lsids wdev') = 0 ∧ flush (lsids wdev') = 0
    ∧ get_completed_lsid cfg0 wdev' = 0
    ∧ (WALB_FAST_ALGORITHM cfg0 = true → completed (lsids wdev') = 0)
    ∧ permanent (lsids wdev') = 0 ∧ written (lsids wdev') = 0
    ∧ prev_written (lsids wdev') = 0 ∧ oldest (lsids wdev') = 0
    ∧ capacity (log_gd wdev') = nr_sects (ldev wdev0_grown)
    ∧ ldev_size wdev' = ldev_size wdev0_grown
    ∧ ring_buffer_size wdev' = ring_buffer_size wdev0_grown
    ∧ lsuper0 wdev' = lsuper0 wdev0_grown ∧ ldev wdev' = ldev wdev0_grown.
Proof.
  apply (clear_log_grow_failure cfg0 _ wdev0_grown (ctl_u64 0)).
  - simpl. lia.
  - simpl. lia.
  - reflexivity.
Defined.

Lemma clear_log_commit_sync_failure (cfg : build) (e : env)
    (wdev wdev' : walb_dev) (lsids0 : lsid_set) (old_ring_buffer_size ret : Z) :
  clear_log_commit cfg e wdev lsids0 old_ring_buffer_size = Some (ret, wdev') →
  sync_super_ok e = false →
  ret = - EFAULT
  ∧ log_checksum_salt wdev' = to_u32 (random_salt e)
  ∧ uuid (lsuper0 wdev') = random_uuid e
  ∧ super_log_checksum_salt (lsuper0 wdev') = to_u32 (random_salt e)
  ∧ ldev wdev' = ldev wdev ∧ snapd wdev' = snapd wdev
  ∧ log_gd wdev' = log_gd wdev ∧ ldev_size wdev' = ldev_size wdev.
Proof.
  unfold clear_log_commit. intros H Hs.
  destruct (get_offset_of_lsid_2 cfg _ 0) as [lsid0_off|]; [|done].
  simpl in H. unfold walb_sync_super_block in H. rewrite Hs in H.
  simpl in H. inversion H. subst ret wdev'. simpl. done.
Qed.

(** X12.  When the super block sync of CLEAR_LOG fails, the lsids come
    back but the new salt and uuid stay: the device keeps the freshly
    generated salt in memory and in its super image while the log device
    is untouched, so the salt in memory is no longer that of the super
    sector and of the packs on disk. *)
Theorem clear_log_sync_failure_keeps_salt (cfg : build) (e : env)
    (wdev wdev' : walb_dev) (ctl : walb_ctl) (ret : Z) :
  ioctl_wdev_clear_log cfg e wdev ctl = Some (ret, wdev') →
  ldev_size wdev ≤ nr_sects (ldev wdev) →
  (ldev_size wdev < nr_sects (ldev wdev) →
   (resize_disk e (log_gd wdev) (nr_sects (ldev wdev))).1 = true) →
  sync_super_ok e = false →
  ret = - EFAULT
  ∧ log_checksum_salt wdev' = to_u32 (random_salt e)
  ∧ uuid (lsuper0 wdev') = random_uuid e
  ∧ super_log_checksum_salt (lsuper0 wdev') = to_u32 (random_salt e)
  ∧ ldev wdev' = ldev wdev ∧ snapd wdev' = snapd wdev.
Proof.
  unfold ioctl_wdev_clear_log. intros H Hsize Hresize Hs. simpl in H.
  destruct (Z.ltb_spec (nr_sects (ldev wdev)) (ldev_size wdev)); [lia|].
  destruct (Z.ltb_spec (ldev_size wdev) (nr_sects (ldev wdev))) as [Hg|_].
  - specialize (Hresize Hg).
    destruct (resize_disk e (log_gd wdev) (nr_sects (ldev wdev)))
      as [ok gd'].
    simpl in Hresize. subst ok. simpl in H.
    destruct (addr_pb (physical_bs wdev) (nr_sects (ldev wdev))) as [a|];
      [|done].
    simpl in H.
    destruct (get_ring_buffer_offset cfg (to_int (physical_bs wdev))
                (n_snapshots wdev)) as [off|]; [|done].
    simpl in H.
    apply clear_log_commit_sync_failure in H; [|done]. simpl in H.
    destruct H as (? & ? & ? & ? & ? & ? & _). done.
  - apply clear_log_commit_sync_failure in H; [|done]. simpl in H.
    destruct H as (? & ? & ? & ? & ? & ? & _). done.
Qed.

Lemma clear_log_sync_failure_keeps_salt_witness :
  (clear_log_result env_sync_fails wdev0).1 = - EFAULT
  ∧ log_checksum_salt (clear_log_result env_sync_fails wdev0).2
    = to_u32 (random_salt env_sync_fails)
  ∧ uuid (lsuper0 (clear_log_result env_sync_fails wdev0).2)
    = random_uuid env_sync_fails
  ∧ super_log_checksum_salt (lsuper0 (clear_log_result env_sync_fails wdev0).2)
    = to_u32 (random_salt env_sync_fails)
  ∧ ldev (clear_log_result env_sync_fails wdev0).2 = ldev wdev0
  ∧ snapd (clear_log_result env_sync_fails wdev0).2 = snapd wdev0.
Proof.
  apply (clear_log_sync_failure_keeps_salt cfg0 env_sync_fails wdev0 _
           (ctl_u64 0)).
  - vm_compute. reflexivity.
  - simpl. lia.
  - simpl. lia.
  - reflexivity.
Defined.

(** ** Sizes and disks *)

(** X13.  After [resize_disk] the capacity is the new size whether it
    succeeded or not; it fails only when the size differs and the block
    device cannot be got, and then the inode keeps its old size; a second
    call with the same size returns true and changes nothing, so a retry
    after a failure never brings the inode size up to date. *)
Theorem resize_disk_retry (e e' : env) (gd : gendisk) (new_size : Z) :
  let r := resize_disk e gd new_size in
  capacity (r.2) = new_size
  ∧ (r.1 = false ↔ capacity gd ≠ new_size ∧ bdget_disk_ok e = false)
  ∧ (r.1 = false → i_size (r.2) = i_size gd)
  ∧ resize_disk e' (r.2) new_size = (true, r.2).
Proof.
  simpl. unfold resize_disk.
  destruct (Z.eqb_spec (capacity gd) new_size) as [Heq|Hne]; simpl.
  - destruct (Z.eqb_spec (capacity gd) new_size); [|done].
    repeat split; try done. by intros [? _].
  - destruct (bdget_disk_ok e); simpl;
      destruct (Z.eqb_spec new_size new_size); try done;
      repeat split; try done. by intros [_ ?].
Qed.

(** X14.  RESIZE keeps the capacity of the disk equal to the device size
    in every outcome, also when it returns an error after the size has
    changed, and never touches the lsids, the snapshot store or the freeze
    state. *)
Theorem resize_keeps_capacity (e : env) (wdev : walb_dev) (ctl : walb_ctl) :
  capacity (gd wdev) = size wdev →
  let r := ioctl_wdev_resize e wdev ctl in
  capacity (gd (r.2)) = size (r.2)
  ∧ lsids (r.2) = lsids wdev ∧ snapd (r.2) = snapd wdev
  ∧ freeze_state (r.2) = freeze_state wdev
  ∧ is_read_only (r.2) = is_read_only wdev.
Proof.
  intros Hcap. simpl. unfold ioctl_wdev_resize.
  set (new_size := if val_u64 ctl =? 0 then nr_sects (ddev wdev)
                   else val_u64 ctl).
  destruct (new_size <? capacity (gd wdev)); [done|].
  destruct (nr_sects (ddev wdev) <? new_size); [done|].
  destruct (new_size =? capacity (gd wdev)); [done|].
  unfold resize_disk, walb_sync_super_block. simpl.
  destruct (capacity (gd wdev) =? new_size) eqn:E; simpl.
  - apply Z.eqb_eq in E.
    destruct (sync_super_ok e); simpl; repeat split; try done; lia.
  - destruct (bdget_disk_ok e); simpl; [|done].
    destruct (sync_super_ok e); simpl; done.
Qed.

Lemma resize_keeps_capacity_witness :
  let r := ioctl_wdev_resize env_sync_fails wdev0 (ctl_u64 3000) in
  capacity (gd (r.2)) = size (r.2)
  ∧ lsids (r.2) = lsids wdev0 ∧ snapd (r.2) = snapd wdev0
  ∧ freeze_state (r.2) = freeze_state wdev0
  ∧ is_read_only (r.2) = is_read_only wdev0.
Proof.
  apply (resize_keeps_capacity env_sync_fails wdev0 (ctl_u64 3000)).
  reflexivity.
Defined.

Lemma execute_redo_keeps (cfg : build) (hlp : helpers) (e : env)
    (wdev wdev' : walb_dev) :
  execute_redo cfg hlp e wdev = Some (true, wdev') →
  physical_bs wdev' = physical_bs wdev ∧ size wdev' = size wdev
  ∧ ddev_size wdev' = ddev_size wdev ∧ ldev_size wdev' = ldev_size wdev
  ∧ gd wdev' = gd wdev ∧ log_gd wdev' = log_gd wdev
  ∧ ring_buffer_size wdev' = ring_buffer_size wdev
  ∧ ring_buffer_off wdev' = ring_buffer_off wdev
  ∧ log_checksum_salt wdev' = log_checksum_salt wdev
  ∧ oldest (lsids wdev') = oldest (lsids wdev)
  ∧ freeze_state wdev' = freeze_state wdev
  ∧ freeze_dwork wdev' = freeze_dwork wdev
  ∧ is_read_only wdev' = is_read_only wdev ∧ cpd wdev' = cpd wdev.
Proof.
  unfold execute_redo. intros H.
  destruct (redo_loop _ _ _ _ _ _ _ _ _ _) as [[ok [[cursor ldev'] ddev']]|];
    [|done].
  simpl in H. destruct ok; simpl in H; [|done].
  unfold walb_sync_super_block in H.
  destruct (sync_super_ok e); inversion H; done.
Qed.

(** X15.  A device [prepare_wdev] returns has equal block sizes on both
    devices, the size of its super sector, which is within the data
    device, disks of the device size and of the log device size, the ring
    and the salt of the super sector, the oldest lsid of the super sector;
    it is melted with no melt work queued, writable, and its
    checkpointing has not been started. *)
Theorem prepare_wdev_establishes (cfg : build) (hlp : helpers) (e : env)
    (ldev ddev : block_device) (ldev_pbs ddev_pbs : Z)
    (super : walb_super_sector) (snapd : list walb_snapshot_record)
    (wdev : walb_dev) :
  prepare_wdev cfg hlp e ldev ddev ldev_pbs ddev_pbs super snapd
  = Some (Some wdev) →
  ldev_pbs = ddev_pbs ∧ physical_bs wdev = ldev_pbs
  ∧ size wdev = device_size super ∧ size wdev ≤ ddev_size wdev
  ∧ ddev_size wdev = nr_sects ddev ∧ ldev_size wdev = nr_sects ldev
  ∧ capacity (gd wdev) = size wdev
  ∧ capacity (log_gd wdev) = ldev_size wdev
  ∧ ring_buffer_size wdev = super_ring_buffer_size super
  ∧ get_ring_buffer_offset_2 cfg super = Some (ring_buffer_off wdev)
  ∧ log_checksum_salt wdev = super_log_checksum_salt super
  ∧ oldest (lsids wdev) = oldest_lsid super
  ∧ freeze_state wdev = FRZ_MELTED ∧ freeze_dwork wdev = None
  ∧ is_read_only wdev = false ∧ cpd wdev = CP_STOPPED.
Proof.
  unfold prepare_wdev. intros H.
  destruct (Z.eqb_spec ldev_pbs ddev_pbs) as [Hpbs|]; [|done]. simpl in H.
  destruct (negb (sector_size super =? ldev_pbs)); [done|].
  destruct (get_ring_buffer_offset_2 cfg super) as [ring_off|]; [|done].
  simpl in H.
  destruct (Z.ltb_spec (nr_sects ddev) (device_size super)); [done|].
  match type of H with
  | context [execute_redo cfg hlp e ?w] =>
      destruct (execute_redo cfg hlp e w) as [[retb wdev1]|] eqn:Hredo
  end; [|done].
  simpl in H. destruct retb; simpl in H; [|done].
  apply execute_redo_keeps in Hredo. simpl in Hredo.
  repeat match type of H with
         | (ASSERT ?c ?b ≫= _) = _ => destruct (ASSERT c b); [simpl in H|done]
         end.
  inversion H. subst wdev1.
  destruct Hredo as (-> & -> & -> & -> & -> & -> & -> & -> & -> & -> & ->
                     & -> & -> & ->).
  repeat split; try done.
Qed.

Lemma prepare_wdev_establishes_witness :
  4096 = 4096 ∧ physical_bs wdev_restarted = 4096
  ∧ size wdev_restarted = device_size super_crashed
  ∧ size wdev_restarted ≤ ddev_size wdev_restarted
  ∧ ddev_size wdev_restarted = nr_sects ddev0
  ∧ ldev_size wdev_restarted = nr_sects ldev_crashed
  ∧ capacity (gd wdev_restarted) = size wdev_restarted
  ∧ capacity (log_gd wdev_restarted) = ldev_size wdev_restarted
  ∧ ring_buffer_size wdev_restarted = super_ring_buffer_size super_crashed
  ∧ get_ring_buffer_offset_2 cfg0 super_crashed
    = Some (ring_buffer_off wdev_restarted)
  ∧ log_checksum_salt wdev_restarted = super_log_checksum_salt super_crashed
  ∧ oldest (lsids wdev_restarted) = oldest_lsid super_crashed
  ∧ freeze_state wdev_restarted = FRZ_MELTED
  ∧ freeze_dwork wdev_restarted = None
  ∧ is_read_only wdev_restarted = false ∧ cpd wdev_restarted = CP_STOPPED.
Proof.
  apply (prepare_wdev_establishes cfg0 hlp0 env_ok ldev_crashed ddev0 4096
           4096 super_crashed []).
  vm_compute. reflexivity.
Defined.

(** ** TAKE_CHECKPOINT *)

(** X16.  TAKE_CHECKPOINT stops checkpointing, takes one checkpoint and
    starts checkpointing again: after a success checkpointing runs, also
    on a frozen device, whose freeze state is left alone.  After a failure
    the device is read-only, checkpointing stays stopped and the error is
    returned. *)
Theorem take_checkpoint_outcome (cfg : build) (e : env) (wdev : walb_dev)
    (ctl : walb_ctl) :
  ∃ ret wdev',
    ioctl_wdev_take_checkpoint cfg e wdev ctl = Some (ret, wdev')
    ∧ (ret = 0 ↔ sync_super_ok e = true)
    ∧ (ret = 0 →
       cpd wdev' = CP_RUNNING ∧ is_read_only wdev' = is_read_only wdev)
    ∧ (ret ≠ 0 →
       ret = - EFAULT ∧ cpd wdev' = CP_STOPPED ∧ is_read_only wdev' = true)
    ∧ freeze_state wdev' = freeze_state wdev
    ∧ iocore_frozen wdev' = iocore_frozen wdev
    ∧ lsids wdev' = lsids wdev.
Proof.
  unfold ioctl_wdev_take_checkpoint, take_checkpoint, walb_sync_super_block,
    ASSERT.
  simpl. destruct (WALB_DEBUG cfg); simpl;
    destruct (sync_super_ok e); simpl; eexists _, _; (split; [done|]);
    simpl; unfold EFAULT; repeat split; try done; intros; try done; lia.
Qed.

(** ** The geometry of the walblog device *)

Lemma land_shift_64 (x : Z) : Z.shiftr (Z.land x (Z.lnot 63)) 6 = x / 64.
Proof.
  rewrite Z.shiftr_land.
  change (Z.shiftr (Z.lnot 63) 6) with (-1).
  rewrite Z.land_m1_r. rewrite Z.shiftr_div_pow2 by lia. reflexivity.
Qed.

(** X17.  The walblog device answers HDIO_GETGEO with 4 heads, 16 sectors
    and as many cylinders as the log device has whole groups of 64
    sectors, cut to 16 bits, and any other command with -ENOTTY.  Below
    2^22 sectors the geometry covers the device but for less than one
    cylinder, and never more than the device. *)
Theorem walblog_geometry (ok : bool) (wdev : walb_dev) (cmd : Z) :
  0 ≤ ldev_size wdev < 2 ^ 63 →
  (cmd ≠ HDIO_GETGEO → walblog_ioctl ok wdev cmd = (- ENOTTY, None))
  ∧ walblog_ioctl false wdev HDIO_GETGEO = (- EFAULT, None)
  ∧ ∃ geo,
      walblog_ioctl true wdev HDIO_GETGEO = (0, Some geo)
      ∧ heads geo = 4 ∧ sectors geo = 16 ∧ start geo = 4
      ∧ cylinders geo = (ldev_size wdev / 64) mod 2 ^ 16
      ∧ cylinders geo * heads geo * sectors geo ≤ ldev_size wdev
      ∧ (ldev_size wdev < 2 ^ 22 →
         ldev_size wdev < (cylinders geo + 1) * heads geo * sectors geo).
Proof.
  intros Hsz. unfold walblog_ioctl.
  split; [intros Hc; by destruct (Z.eqb_spec cmd HDIO_GETGEO)|].
  split; [done|].
  eexists. split; [done|]. simpl.
  assert (Hi : to_i64 (ldev_size wdev) = ldev_size wdev).
  { unfold to_i64. rewrite Z.mod_small; lia. }
  rewrite Hi, land_shift_64. unfold to_u16.
  pose proof (Z.div_mod (ldev_size wdev) 64 ltac:(lia)) as Hq.
  pose proof (Z.mod_pos_bound (ldev_size wdev) 64 ltac:(lia)) as Hr.
  pose proof (Z.mod_pos_bound (ldev_size wdev / 64) (2 ^ 16) ltac:(lia)) as Hc.
  assert (0 ≤ ldev_size wdev / 64) by (apply Z.div_pos; lia).
  pose proof (Z.mod_le (ldev_size wdev / 64) (2 ^ 16) ltac:(lia) ltac:(lia)).
  repeat split; try done; try lia.
  intros Hsmall.
  rewrite Z.mod_small; [lia|].
  split; [lia|]. apply Z.div_lt_upper_bound; lia.
Qed.

Lemma walblog_geometry_witness :
  (1 ≠ HDIO_GETGEO → walblog_ioctl true wdev0 1 = (- ENOTTY, None))
  ∧ walblog_ioctl false wdev0 HDIO_GETGEO = (- EFAULT, None)
  ∧ ∃ geo,
      walblog_ioctl true wdev0 HDIO_GETGEO = (0, Some geo)
      ∧ heads geo = 4 ∧ sectors geo = 16 ∧ start geo = 4
      ∧ cylinders geo = (ldev_size wdev0 / 64) mod 2 ^ 16
      ∧ cylinders geo * heads geo * sectors geo ≤ ldev_size wdev0
      ∧ (ldev_size wdev0 < 2 ^ 22 →
         ldev_size wdev0 < (cylinders geo + 1) * heads geo * sectors geo).
Proof.
  apply (walblog_geometry true wdev0 1). simpl. lia.
Defined.

(** ** The asynchronous IO of the log tools *)

Lemma succ_mod (a m : Z) :
  0 ≤ a → 1 < m →
  (a + 1) mod m = if a mod m =? m - 1 then 0 else a mod m + 1.
Proof.
  intros Ha Hm.
  pose proof (Z.div_mod a m ltac:(lia)) as Hq.
  pose proof (Z.mod_pos_bound a m ltac:(lia)) as Hr.
  destruct (Z.eqb_spec (a mod m) (m - 1)) as [He|Hne].
  - symmetry. apply (Z.mod_unique_pos (a + 1) m (a / m + 1) 0); lia.
  - symmetry. apply (Z.mod_unique_pos (a + 1) m (a / m) (a mod m + 1)); lia.
Qed.

Lemma key_after_closed (n : nat) (k : Z) :
  1 ≤ k ≤ aio.UINT_MAX →
  aio.key_after n k = (k - 1 + Z.of_nat n) mod aio.UINT_MAX + 1.
Proof.
  unfold aio.UINT_MAX. intros Hk. induction n as [|n IH].
  - simpl. rewrite Z.add_0_r, Z.mod_small by lia. lia.
  - unfold aio.key_after in *. rewrite Nat.iter_succ, IH.
    replace (k - 1 + Z.of_nat (S n)) with (k - 1 + Z.of_nat n + 1) by lia.
    rewrite (succ_mod (k - 1 + Z.of_nat n)) by lia.
    pose proof (Z.mod_pos_bound (k - 1 + Z.of_nat n) (2 ^ 32 - 1) ltac:(lia)).
    set (r := (k - 1 + Z.of_nat n) mod (2 ^ 32 - 1)) in *.
    unfold aio.getKey, aio.UINT_MAX, to_u32. simpl.
    destruct (Z.eqb_spec (r + 1) (2 ^ 32 - 1));
      destruct (Z.eqb_spec r (2 ^ 32 - 1 - 1)); try lia.
    + replace (r + 1 + 2) with (1 + 1 * 2 ^ 32) by lia.
      rewrite Z.mod_add by lia. reflexivity.
    + rewrite Z.mod_small by lia. lia.
Qed.

(** X18.  The key counter after [n] allocations, in closed form: it runs
    through 1 .. 2^32 - 1 and steps over 0 when it wraps.  So no key is 0,
    and two IOs allocated fewer than 2^32 - 1 allocations apart have
    different keys. *)
Theorem keys_nonzero_distinct (k : Z) (i j : nat) :
  1 ≤ k ≤ aio.UINT_MAX →
  aio.key_after i k = (k - 1 + Z.of_nat i) mod aio.UINT_MAX + 1
  ∧ (aio.getKey (aio.key_after i k)).1 ≠ 0
  ∧ 1 ≤ aio.key_after i k ≤ aio.UINT_MAX
  ∧ ((i < j)%nat → Z.of_nat j - Z.of_nat i < aio.UINT_MAX →
     (aio.getKey (aio.key_after i k)).1 ≠ (aio.getKey (aio.key_after j k)).1).
Proof.
  intros Hk. unfold aio.getKey. cbn [fst].
  rewrite !key_after_closed by done.
  unfold aio.UINT_MAX in *.
  pose proof (Z.mod_pos_bound (k - 1 + Z.of_nat i) (2 ^ 32 - 1) ltac:(lia)).
  repeat split; try lia.
  intros Hij Hd Heq.
  assert (Hm : (k - 1 + Z.of_nat j) mod (2 ^ 32 - 1)
               = (k - 1 + Z.of_nat i) mod (2 ^ 32 - 1)) by lia.
  assert (Hz : (Z.of_nat j - Z.of_nat i) mod (2 ^ 32 - 1) = 0).
  { replace (Z.of_nat j - Z.of_nat i)
      with ((k - 1 + Z.of_nat j) - (k - 1 + Z.of_nat i)) by lia.
    rewrite Zminus_mod, Hm, Z.sub_diag. reflexivity. }
  rewrite Z.mod_small in Hz by lia. lia.
Qed.

Lemma keys_nonzero_distinct_witness :
  aio.key_after 0 aio.UINT_MAX
  = (aio.UINT_MAX - 1 + Z.of_nat 0) mod aio.UINT_MAX + 1
  ∧ (aio.getKey (aio.key_after 0 aio.UINT_MAX)).1 ≠ 0
  ∧ 1 ≤ aio.key_after 0 aio.UINT_MAX ≤ aio.UINT_MAX
  ∧ ((0 < 1)%nat → Z.of_nat 1 - Z.of_nat 0 < aio.UINT_MAX →
     (aio.getKey (aio.key_after 0 aio.UINT_MAX)).1
     ≠ (aio.getKey (aio.key_after 1 aio.UINT_MAX)).1).
Proof.
  apply (keys_nonzero_distinct aio.UINT_MAX 0 1).
  unfold aio.UINT_MAX. lia.
Defined.

Example key_wraps_past_zero : aio.getKey aio.UINT_MAX = (aio.UINT_MAX, 1).
Proof. reflexivity. Qed.

(** X19.  A prepare on a full submit queue returns 0 and changes nothing.
    Otherwise it returns the next key, which is not 0, and appends a new
    object with that key and the IO to the submit queue: it is not done,
    and neither the pending nor the completed IOs change. *)
Theorem prepare_full_or_queued (ndebug : bool) (ty : aio.IoType)
    (oft size buf : Z) (s : aio.Aio) :
  1 ≤ aio.key_ s ≤ aio.UINT_MAX →
  (aio.queueSize_ s ≤ Z.of_nat (length (aio.submitQueue_ s)) →
   aio.prepare ndebug ty oft size buf s = aio.Ok 0 s)
  ∧ (Z.of_nat (length (aio.submitQueue_ s)) < aio.queueSize_ s →
     ∃ s', aio.prepare ndebug ty oft size buf s = aio.Ok (aio.key_ s) s'
           ∧ aio.key_ s ≠ 0
           ∧ aio.submitQueue_ s' = aio.submitQueue_ s ++ [aio.next_ptr s]
           ∧ aio.heap s' !! aio.next_ptr s
             = Some {| aio.key := aio.key_ s; aio.type := ty;
                       aio.oft := oft; aio.size := size; aio.buf := buf;
                       aio.beginTime := 0; aio.endTime := 0;
                       aio.done := false |}
           ∧ aio.key_ s' = aio.key_after 1 (aio.key_ s)
           ∧ aio.pendingIOs_ s' = aio.pendingIOs_ s
           ∧ aio.completedIOs_ s' = aio.completedIOs_ s
           ∧ aio.queueSize_ s' = aio.queueSize_ s).
Proof.
  intros Hk. unfold aio.prepare. split; intros Hq.
  - destruct (Z.leb_spec (aio.queueSize_ s)
                (Z.of_nat (length (aio.submitQueue_ s)))); [done|lia].
  - destruct (Z.leb_spec (aio.queueSize_ s)
                (Z.of_nat (length (aio.submitQueue_ s)))); [lia|].
    unfold aio.alloc, aio.getKey. simpl.
    rewrite lookup_insert_eq. simpl.
    destruct (Z.eqb_spec (aio.key_ s) 0); [lia|].
    rewrite andb_false_r. eexists. split; [reflexivity|]. simpl.
    rewrite lookup_insert_eq. repeat split; try done.
Qed.

Lemma prepare_full_or_queued_witness :
  (aio.queueSize_ aio_new ≤ Z.of_nat (length (aio.submitQueue_ aio_new)) →
   aio.prepare false aio.IOTYPE_READ 0 512 7 aio_new = aio.Ok 0 aio_new)
  ∧ (Z.of_nat (length (aio.submitQueue_ aio_new)) < aio.queueSize_ aio_new →
     ∃ s', aio.prepare false aio.IOTYPE_READ 0 512 7 aio_new
           = aio.Ok (aio.key_ aio_new) s'
           ∧ aio.key_ aio_new ≠ 0
           ∧ aio.submitQueue_ s'
             = aio.submitQueue_ aio_new ++ [aio.next_ptr aio_new]
           ∧ aio.heap s' !! aio.next_ptr aio_new
             = Some {| aio.key := aio.key_ aio_new; aio.type := aio.IOTYPE_READ;
                       aio.oft := 0; aio.size := 512; aio.buf := 7;
                       aio.beginTime := 0; aio.endTime := 0;
                       aio.done := false |}
           ∧ aio.key_ s' = aio.key_after 1 (aio.key_ aio_new)
           ∧ aio.pendingIOs_ s' = aio.pendingIOs_ aio_new
           ∧ aio.completedIOs_ s' = aio.completedIOs_ aio_new
           ∧ aio.queueSize_ s' = aio.queueSize_ aio_new).
Proof.
  apply (prepare_full_or_queued false aio.IOTYPE_READ 0 512 7 aio_new).
  unfold aio.UINT_MAX. simpl. lia.
Defined.

Lemma keys_of_cons (s : aio.Aio) (p : nat) (q : list nat) (ks : list Z) :
  aio.keys_of s (p :: q) = Some ks →
  ∃ d ks', aio.heap s !! p = Some d ∧ aio.keys_of s q = Some ks'
           ∧ ks = aio.key d :: ks'.
Proof.
  unfold aio.keys_of. rewrite !mapM_Some. intros H.
  inversion H as [|? k ? ks' Hk Hks]; subst.
  destruct (aio.heap s !! p) as [d|] eqn:Hd; [|discriminate].
  exists d, ks'. rewrite mapM_Some. simpl in Hk. by inversion Hk.
Qed.

Lemma keys_of_length (s : aio.Aio) (q : list nat) (ks : list Z) :
  aio.keys_of s q = Some ks → length ks = length q.
Proof.
  unfold aio.keys_of. rewrite mapM_Some. intros H.
  symmetry. by eapply Forall2_length.
Qed.

Lemma keys_of_elem (s : aio.Aio) (q : list nat) (ks : list Z) (p : nat) :
  aio.keys_of s q = Some ks → p ∈ q →
  ∃ d, aio.heap s !! p = Some d ∧ aio.key d ∈ ks.
Proof.
  revert ks. induction q as [|p' q IH]; intros ks Hks Hp.
  - by apply elem_of_nil in Hp.
  - apply keys_of_cons in Hks as (d & ks' & Hd & Hks' & ->).
    apply elem_of_cons in Hp as [->|Hp].
    + exists d. split; [done|]. apply elem_of_cons. by left.
    + destruct (IH ks' Hks' Hp) as (d' & Hd' & Hin).
      exists d'. split; [done|]. apply elem_of_cons. by right.
Qed.

(** The keys of a list of objects do not depend on the times of an object. *)
Lemma keys_of_set_beginTime (s : aio.Aio) (p : nat) (d : aio.AioData) (t : Z)
    (q : list nat) (pend : gmap Z nat) :
  aio.heap s !! p = Some d →
  aio.keys_of
    (aio.set_pendingIOs_ pend
       (aio.set_heap (<[p := aio.set_beginTime t d]> (aio.heap s)) s)) q
  = aio.keys_of s q.
Proof.
  intros Hd. unfold aio.keys_of. induction q as [|p' q IH]; [done|].
  cbn [mapM]. rewrite IH. f_equal. simpl.
  destruct (decide (p' = p)) as [->|Hne].
  - by rewrite lookup_insert_eq, Hd.
  - by rewrite lookup_insert_ne.
Qed.

Lemma submit_move_spec (ndebug : bool) (t : Z) (q : list nat) :
  ∀ (s : aio.Aio) (ks : list Z),
    aio.keys_of s q = Some ks →
    NoDup ks →
    (∀ k, k ∈ ks → aio.pendingIOs_ s !! k = None) →
    ∃ s', aio.submit_move ndebug t q s = Some s'
          ∧ aio.submitQueue_ s' = []
          ∧ aio.pendingIOs_ s' = list_to_map (zip ks q) ∪ aio.pendingIOs_ s
          ∧ (∀ p, aio.heap s' !! p
                  = (if bool_decide (p ∈ q) then aio.set_beginTime t else id)
                      <$> aio.heap s !! p)
          ∧ aio.completedIOs_ s' = aio.completedIOs_ s
          ∧ aio.queueSize_ s' = aio.queueSize_ s
          ∧ aio.key_ s' = aio.key_ s
          ∧ aio.isMeasureTime_ s' = aio.isMeasureTime_ s.
Proof.
  induction q as [|p q IH]; intros s ks Hks Hnd Hfresh.
  - eexists. split; [reflexivity|]. simpl.
    unfold aio.keys_of in Hks. simpl in Hks. injection Hks as <-.
    simpl. rewrite (left_id_L ∅ (∪)). repeat split; try done.
    intros p. by destruct (aio.heap s !! p).
  - pose proof Hks as Hks0.
    apply keys_of_cons in Hks as (d & ks' & Hd & Hks' & ->).
    apply NoDup_cons in Hnd as [Hnotin Hnd'].
    cbn [aio.submit_move]. rewrite Hd. cbn [aio.pendingIOs_ aio.set_heap].
    rewrite (Hfresh (aio.key d)) by (apply elem_of_cons; by left).
    set (s1 := aio.set_pendingIOs_ _ _).
    destruct (IH s1 ks') as (s' & Hmove & Hq & Hpend & Hheap & Hrest).
    { unfold s1. simpl. by rewrite keys_of_set_beginTime. }
    { done. }
    { intros k Hk. unfold s1. simpl. rewrite lookup_insert_ne.
      - apply Hfresh, elem_of_cons. by right.
      - intros <-. done. }
    exists s'. split; [done|]. split; [done|]. split.
    { rewrite Hpend. unfold s1. simpl.
      rewrite <- insert_union_r.
      - by rewrite insert_union_l.
      - apply not_elem_of_list_to_map_1. rewrite fst_zip; [done|].
        apply keys_of_length in Hks'. lia. }
    split; [|done].
    intros x. rewrite Hheap. unfold s1. simpl.
    destruct (decide (x = p)) as [->|Hne].
    + rewrite lookup_insert_eq, Hd. simpl.
      rewrite (bool_decide_eq_true_2 (p ∈ p :: q)) by (apply elem_of_cons; by left).
      rewrite bool_decide_eq_false_2; [done|].
      intros Hin. destruct (keys_of_elem _ _ _ _ Hks' Hin) as (d' & Hd' & Hk').
      rewrite Hd in Hd'. injection Hd' as <-. done.
    + rewrite lookup_insert_ne by done.
      destruct (decide (x ∈ q)) as [Hin|Hnin].
      * rewrite (bool_decide_eq_true_2 (x ∈ q)) by done.
        rewrite (bool_decide_eq_true_2 (x ∈ p :: q)); [done|].
        apply elem_of_cons. by right.
      * rewrite (bool_decide_eq_false_2 (x ∈ q)) by done.
        rewrite (bool_decide_eq_false_2 (x ∈ p :: q)); [done|].
        intros [?|?]%elem_of_cons; done.
Qed.

Lemma submit_loop_returns (pre : list Z) :
  ∀ (post : list Z) (todo : Z) (s : aio.Aio),
    Forall (λ r, 0 ≤ r) pre → todo ≤ foldr Z.add 0 pre →
    aio.submit_loop (pre ++ post) todo s = aio.Ok tt s.
Proof.
  induction pre as [|r pre IH]; intros post todo s Hpre Hsum.
  - simpl in Hsum. destruct post; simpl;
      destruct (Z.leb_spec todo 0); done || lia.
  - apply Forall_cons in Hpre as [Hr Hpre]. simpl in Hsum. simpl.
    destruct (Z.leb_spec todo 0); [done|].
    destruct (Z.ltb_spec r 0); [lia|]. apply IH; [done|lia].
Qed.

Lemma foldr_add_nonneg (l : list Z) :
  Forall (λ r, 0 ≤ r) l → 0 ≤ foldr Z.add 0 l.
Proof.
  induction 1 as [|r l Hr Hl IH]; simpl; lia.
Qed.

Lemma submit_loop_throws (pre : list Z) :
  ∀ (err : Z) (post : list Z) (todo : Z) (s : aio.Aio),
    Forall (λ r, 0 ≤ r) pre → foldr Z.add 0 pre < todo → err < 0 →
    aio.submit_loop (pre ++ err :: post) todo s
    = aio.Throw (aio.LibcError (- err)) s.
Proof.
  induction pre as [|r pre IH]; intros err post todo s Hpre Hsum Herr.
  - simpl in Hsum. simpl. destruct (Z.leb_spec todo 0); [lia|].
    destruct (Z.ltb_spec err 0); [done|lia].
  - apply Forall_cons in Hpre as [Hr Hpre]. simpl in Hsum.
    pose proof (foldr_add_nonneg pre Hpre). simpl.
    destruct (Z.leb_spec todo 0); [lia|].
    destruct (Z.ltb_spec r 0); [lia|]. apply IH; [done|lia|done].
Qed.

Lemma submit_loop_blocks (rets : list Z) :
  ∀ (todo : Z) (s : aio.Aio),
    Forall (λ r, 0 ≤ r) rets → foldr Z.add 0 rets < todo →
    aio.submit_loop rets todo s = aio.Blocked s.
Proof.
  induction rets as [|r rets IH]; intros todo s Hrets Hsum.
  - simpl in Hsum. simpl. by destruct (Z.leb_spec todo 0); [lia|].
  - apply Forall_cons in Hrets as [Hr Hrets]. simpl in Hsum.
    pose proof (foldr_add_nonneg rets Hrets). simpl.
    destruct (Z.leb_spec todo 0); [lia|].
    destruct (Z.ltb_spec r 0); [lia|]. apply IH; [done|lia].
Qed.

(** X20.  [submit] makes every prepared IO pending and empties the submit
    queue before it calls [io_submit], and an error of [io_submit] does not
    undo that: whether [submit] returns, throws [LibcError] or does not
    come back, the state is the same, with the submit queue empty and every
    prepared IO among the pending IOs, its begin time set.  It calls
    [io_submit] until the numbers returned add up to the number of IOs, and
    returns then; it throws [LibcError] at the first call, whichever it
    is, that returns an error before that; while the calls return too
    little it does not come back. *)
Theorem submit_moves_all (ndebug : bool) (now : Z) (rets : list Z)
    (s : aio.Aio) (ks : list Z) :
  aio.keys_of s (aio.submitQueue_ s) = Some ks →
  NoDup ks →
  (∀ k, k ∈ ks → aio.pendingIOs_ s !! k = None) →
  (0 < length (aio.submitQueue_ s))%nat →
  Z.of_nat (length (aio.submitQueue_ s)) ≤ aio.queueSize_ s →
  let nr := Z.of_nat (length (aio.submitQueue_ s)) in
  ∃ s',
    aio.submitQueue_ s' = []
    ∧ aio.pendingIOs_ s'
      = list_to_map (zip ks (aio.submitQueue_ s)) ∪ aio.pendingIOs_ s
    ∧ (∀ p, aio.heap s' !! p
            = (if bool_decide (p ∈ aio.submitQueue_ s)
               then aio.set_beginTime (if aio.isMeasureTime_ s then now else 0)
               else id) <$> aio.heap s !! p)
    ∧ aio.completedIOs_ s' = aio.completedIOs_ s
    ∧ (∀ pre post, rets = pre ++ post →
       Forall (λ r, 0 ≤ r) pre → nr ≤ foldr Z.add 0 pre →
       aio.submit ndebug now rets s = aio.Ok tt s')
    ∧ (∀ pre err post, rets = pre ++ err :: post →
       Forall (λ r, 0 ≤ r) pre → foldr Z.add 0 pre < nr → err < 0 →
       aio.submit ndebug now rets s = aio.Throw (aio.LibcError (- err)) s')
    ∧ (Forall (λ r, 0 ≤ r) rets → foldr Z.add 0 rets < nr →
       aio.submit ndebug now rets s = aio.Blocked s').
Proof.
  intros Hks Hnd Hfresh Hpos Hsize nr.
  destruct (submit_move_spec ndebug (if aio.isMeasureTime_ s then now else 0)
              (aio.submitQueue_ s) s ks Hks Hnd Hfresh)
    as (s' & Hmove & Hq & Hpend & Hheap & Hcompl & _).
  exists s'. split; [done|]. split; [done|]. split; [done|]. split; [done|].
  unfold aio.submit. fold nr.
  destruct (Z.eqb_spec nr 0); [unfold nr in *; lia|].
  destruct (Z.ltb_spec (aio.queueSize_ s) nr); [unfold nr in *; lia|].
  rewrite andb_false_r. cbv zeta. rewrite Hmove.
  split; [|split].
  - intros pre post -> Hpre Hsum. by apply submit_loop_returns.
  - intros pre err post -> Hpre Hsum Herr. by apply submit_loop_throws.
  - intros Hrets Hsum. by apply submit_loop_blocks.
Qed.

Lemma submit_moves_all_witness :
  let nr := Z.of_nat (length (aio.submitQueue_ aio_prepared)) in
  ∃ s',
    aio.submitQueue_ s' = []
    ∧ aio.pendingIOs_ s'
      = list_to_map (zip [1; 2; 3] (aio.submitQueue_ aio_prepared))
        ∪ aio.pendingIOs_ aio_prepared
    ∧ (∀ p, aio.heap s' !! p
            = (if bool_decide (p ∈ aio.submitQueue_ aio_prepared)
               then aio.set_beginTime
                      (if aio.isMeasureTime_ aio_prepared then 0 else 0)
               else id) <$> aio.heap aio_prepared !! p)
    ∧ aio.completedIOs_ s' = aio.completedIOs_ aio_prepared
    ∧ (∀ pre post, [1; -5; 2] = pre ++ post →
       Forall (λ r, 0 ≤ r) pre → nr ≤ foldr Z.add 0 pre →
       aio.submit false 0 [1; -5; 2] aio_prepared = aio.Ok tt s')
    ∧ (∀ pre err post, [1; -5; 2] = pre ++ err :: post →
       Forall (λ r, 0 ≤ r) pre → foldr Z.add 0 pre < nr → err < 0 →
       aio.submit false 0 [1; -5; 2] aio_prepared
       = aio.Throw (aio.LibcError (- err)) s')
    ∧ (Forall (λ r, 0 ≤ r) [1; -5; 2] → foldr Z.add 0 [1; -5; 2] < nr →
       aio.submit false 0 [1; -5; 2] aio_prepared = aio.Blocked s').
Proof.
  apply (submit_moves_all false 0 [1; -5; 2] aio_prepared [1; 2; 3]).
  - vm_compute. reflexivity.
  - compute_done.
  - intros k _. vm_compute. reflexivity.
  - vm_compute. lia.
  - vm_compute. discriminate.
Defined.

(** Three IOs: [io_submit] takes one, then fails with EIO, and [submit]
    throws at the second call with all three IOs pending; when it takes
    one and then two, [submit] returns; when it takes one and one, [submit]
    calls again. *)
Example submit_throws_at_second_call :
  aio.submit false 0 [1; -5; 2] aio_prepared
  = aio.Throw (aio.LibcError 5) aio_submitted
  ∧ aio.submit false 0 [1; 2] aio_prepared = aio.Ok tt aio_submitted
  ∧ aio.submit false 0 [1; 1] aio_prepared = aio.Blocked aio_submitted.
Proof. vm_compute. done. Qed.

Lemma wait_completed_take (ndebug : bool) (cs : list nat) :
  ∀ (s : aio.Aio) (ks : list Z) (n fuel : nat) (queue : list Z),
    aio.completedIOs_ s = cs →
    aio.keys_of s cs = Some ks →
    NoDup ks →
    (∀ k, k ∈ ks → is_Some (aio.pendingIOs_ s !! k)) →
    (n ≤ length cs)%nat → (n ≤ fuel)%nat →
    ∃ s', aio.wait_completed ndebug fuel (Z.of_nat n) queue s
          = Some (0, queue ++ take n ks, s')
          ∧ aio.completedIOs_ s' = drop n cs
          ∧ aio.heap s' = aio.heap s
          ∧ (∀ k, aio.pendingIOs_ s' !! k
                  = if bool_decide (k ∈ take n ks) then None
                    else aio.pendingIOs_ s !! k)
          ∧ aio.submitQueue_ s' = aio.submitQueue_ s.
Proof.
  induction cs as [|p rest IH]; intros s ks n fuel queue Hcs Hks Hnd Hpend Hn Hf.
  - assert (n = O) as -> by (simpl in Hn; lia).
    exists s. rewrite take_0, app_nil_r, drop_0. split.
    + by destruct fuel.
    + repeat split; try done; intros k;
        by rewrite bool_decide_eq_false_2 by apply not_elem_of_nil.
  - destruct n as [|n].
    { exists s. rewrite take_0, app_nil_r, drop_0. split.
      - by destruct fuel.
      - repeat split; try done; intros k;
          by rewrite bool_decide_eq_false_2 by apply not_elem_of_nil. }
    destruct fuel as [|fuel]; [lia|].
    apply keys_of_cons in Hks as (d & ks' & Hd & Hks' & ->).
    apply NoDup_cons in Hnd as [Hnotin Hnd'].
    cbn [aio.wait_completed].
    destruct (Z.leb_spec (Z.of_nat (S n)) 0); [lia|].
    rewrite Hcs. unfold aio.pop_completed. rewrite Hd.
    rewrite (bool_decide_eq_true_2 (is_Some (aio.pendingIOs_ s !! aio.key d)))
      by (apply Hpend, elem_of_cons; by left).
    rewrite andb_false_r.
    replace (Z.of_nat (S n) - 1) with (Z.of_nat n) by lia.
    set (s1 := aio.set_pendingIOs_ _ _).
    destruct (IH s1 ks' n fuel (queue ++ [aio.key d]))
      as (s' & Hw & Hc & Hh & Hp & Hq).
    { done. }
    { done. }
    { done. }
    { intros k Hk. unfold s1. simpl. rewrite lookup_delete_ne.
      - apply Hpend, elem_of_cons. by right.
      - intros <-. done. }
    { simpl in Hn. lia. }
    { lia. }
    exists s'. rewrite Hw, <- app_assoc. split; [done|]. split; [done|].
    split; [by rewrite Hh|]. split; [|by rewrite Hq].
    intros k. rewrite Hp. cbn [take]. unfold s1. simpl.
    destruct (decide (k = aio.key d)) as [->|Hne].
    + rewrite (bool_decide_eq_true_2 (aio.key d ∈ aio.key d :: take n ks'))
        by (apply elem_of_cons; by left).
      rewrite lookup_delete_eq. by destruct (bool_decide _).
    + rewrite lookup_delete_ne by done.
      destruct (decide (k ∈ take n ks')) as [Hin|Hnin].
      * rewrite (bool_decide_eq_true_2 (k ∈ take n ks')) by done.
        rewrite bool_decide_eq_true_2; [done|]. apply elem_of_cons. by right.
      * rewrite (bool_decide_eq_false_2 (k ∈ take n ks')) by done.
        rewrite bool_decide_eq_false_2; [done|].
        intros [?|?]%elem_of_cons; done.
Qed.

(** X21.  [wait] serves the IOs that [waitFor] found completed first, in
    the order of their completion: when at least [n] of them are there,
    [wait(n)] pushes the keys of the first [n] to the queue of the caller,
    erases them from the pending IOs and asks the kernel for nothing. *)
Theorem wait_takes_completed_first (ndebug : bool) (n : nat) (queue : list Z)
    (rs : list aio.getevents) (s : aio.Aio) (ks : list Z) :
  aio.keys_of s (aio.completedIOs_ s) = Some ks →
  NoDup ks →
  (∀ k, k ∈ ks → is_Some (aio.pendingIOs_ s !! k)) →
  (n ≤ length (aio.completedIOs_ s))%nat →
  ∃ s', aio.wait ndebug (Z.of_nat n) queue rs s
        = (queue ++ take n ks, aio.Ok tt s')
        ∧ aio.completedIOs_ s' = drop n (aio.completedIOs_ s)
        ∧ (∀ k, aio.pendingIOs_ s' !! k
                = if bool_decide (k ∈ take n ks) then None
                  else aio.pendingIOs_ s !! k)
        ∧ aio.heap s' = aio.heap s
        ∧ aio.submitQueue_ s' = aio.submitQueue_ s.
Proof.
  intros Hks Hnd Hpend Hn.
  destruct (wait_completed_take ndebug (aio.completedIOs_ s) s ks n
              (length (aio.completedIOs_ s)) queue)
    as (s' & Hw & Hc & Hh & Hp & Hq); try done.
  exists s'. unfold aio.wait. rewrite Hw. simpl. done.
Qed.

Lemma wait_takes_completed_first_witness :
  ∃ s', aio.wait false (Z.of_nat 1) [] [] aio_waited
        = ([] ++ take 1 [1; 2], aio.Ok tt s')
        ∧ aio.completedIOs_ s' = drop 1 (aio.completedIOs_ aio_waited)
        ∧ (∀ k, aio.pendingIOs_ s' !! k
                = if bool_decide (k ∈ take 1 [1; 2]) then None
                  else aio.pendingIOs_ aio_waited !! k)
        ∧ aio.heap s' = aio.heap aio_waited
        ∧ aio.submitQueue_ s' = aio.submitQueue_ aio_waited.
Proof.
  apply (wait_takes_completed_first false 1 [] [] aio_waited [1; 2]).
  - vm_compute. reflexivity.
  - compute_done.
  - intros k Hk.
    apply elem_of_cons in Hk as [->|Hk]; [compute_done|].
    apply list_elem_of_singleton in Hk as ->. compute_done.
  - vm_compute. lia.
Defined.

(** X22.  A key that [waitOne] returned is unknown afterwards:
    [isCompleted], [cancel] and [waitFor] throw [std::runtime_error]
    for it. *)
Theorem waitOne_forgets_key (ndebug : bool) (rs : list aio.getevents)
    (s s' : aio.Aio) (k : Z) :
  aio.pending_consistent s →
  aio.waitOne ndebug rs s = aio.Ok k s' →
  aio.pendingIOs_ s' !! k = None
  ∧ aio.isCompleted k s' = aio.Throw aio.RuntimeError s'
  ∧ (∀ err, aio.cancel k err s' = aio.Throw aio.RuntimeError s')
  ∧ (∀ rs', aio.waitFor ndebug k rs' s' = aio.Throw aio.RuntimeError s').
Proof.
  intros Hcons Hw.
  assert (Hnone : aio.pendingIOs_ s' !! k = None).
  { unfold aio.waitOne in Hw.
    destruct (aio.completedIOs_ s) as [|p rest].
    - destruct rs as [|r rs]; [discriminate|].
      unfold aio.waitOne_ in Hw.
      destruct (aio.ge_ret r) as [err|[|event [|]]];
        try (destruct (err <? 0)); try discriminate.
      destruct (aio.heap s !! aio.obj event) as [iocb|]; [|discriminate].
      destruct (aio.res event =? 0); [discriminate|].
      destruct (negb _); [discriminate|].
      unfold aio.complete in Hw.
      destruct (aio.pendingIOs_ s !! aio.key iocb) as [ptr|] eqn:Hptr;
        [|discriminate].
      pose proof (Hcons _ _ Hptr) as Hkey. simpl in Hkey.
      destruct (aio.heap s !! ptr) as [d|]; [|discriminate].
      injection Hkey as Hkey.
      destruct (negb ndebug && aio.done d); [discriminate|].
      simpl in Hw. rewrite lookup_insert_eq in Hw. simpl in Hw.
      injection Hw as <- <-. simpl. rewrite Hkey. apply lookup_delete_eq.
    - unfold aio.pop_completed in Hw.
      destruct (aio.heap s !! p) as [d|]; [|discriminate].
      destruct (negb ndebug && _); [discriminate|].
      injection Hw as <- <-. simpl. apply lookup_delete_eq. }
  unfold aio.isCompleted, aio.cancel, aio.waitFor. rewrite Hnone. done.
Qed.

Lemma waitOne_forgets_key_witness :
  let s' := aio.state_of (aio.waitOne false [aio_event 1 512] aio_submitted)
              aio_new in
  aio.pendingIOs_ s' !! 2 = None
  ∧ aio.isCompleted 2 s' = aio.Throw aio.RuntimeError s'
  ∧ (∀ err, aio.cancel 2 err s' = aio.Throw aio.RuntimeError s')
  ∧ (∀ rs', aio.waitFor false 2 rs' s' = aio.Throw aio.RuntimeError s').
Proof.
  apply (waitOne_forgets_key false [aio_event 1 512] aio_submitted).
  - compute_done.
  - vm_compute. reflexivity.
Defined.

Lemma wait_loop_done (ndebug isDelete : bool) (rs : list aio.getevents)
    (todo : Z) (queue : list nat) (isEofError isOtherError : bool)
    (s : aio.Aio) :
  todo ≤ 0 →
  aio.wait_loop ndebug isDelete rs todo (queue, isEofError, isOtherError) s
  = if isOtherError then aio.Throw aio.RuntimeError s
    else if isEofError then aio.Throw aio.EofError s
    else aio.Ok queue s.
Proof.
  intros Htodo.
  destruct rs; simpl; destruct (Z.leb_spec todo 0); done || lia.
Qed.

(** X23.  An IO that ends at the end of the file (its result is 0) is
    handled in two ways.  [waitOne] throws [EofError] before it touches the
    IO, which stays pending and not done.  [wait] marks the IO done and
    erases it from the pending IOs, and throws [EofError] afterwards: the
    queue of the caller does not get the key, and the key is unknown from
    then on. *)
Theorem eof_waitOne_keeps_wait_drops (ndebug : bool) (t : Z)
    (rs : list aio.getevents) (queue : list Z) (s : aio.Aio)
    (k : Z) (p : nat) (d : aio.AioData) :
  aio.completedIOs_ s = [] →
  aio.pendingIOs_ s !! k = Some p →
  aio.heap s !! p = Some d →
  aio.key d = k →
  aio.done d = false →
  let r := {| aio.ge_time := t;
              aio.ge_ret := inr [{| aio.obj := p; aio.res := 0 |}] |} in
  aio.waitOne ndebug (r :: rs) s = aio.Throw aio.EofError s
  ∧ ∃ s', aio.wait ndebug 1 queue (r :: rs) s
          = (queue, aio.Throw aio.EofError s')
          ∧ aio.pendingIOs_ s' = delete k (aio.pendingIOs_ s)
          ∧ aio.heap s'
            = <[p := aio.set_done true (if aio.isMeasureTime_ s then t else 0) d]>
                (aio.heap s)
          ∧ aio.isCompleted k s' = aio.Throw aio.RuntimeError s'.
Proof.
  intros Hc Hp Hd Hk Hdone r. split.
  - unfold aio.waitOne. rewrite Hc. unfold aio.waitOne_. simpl. by rewrite Hd.
  - eexists. unfold aio.wait. rewrite Hc. cbn [length aio.wait_completed].
    cbn [Z.ltb Z.compare]. unfold aio.wait_.
    cbn [aio.wait_loop Z.leb Z.compare aio.ge_ret r aio.wait_events aio.obj
         aio.res Z.eqb orb andb negb length].
    rewrite Hd. unfold aio.complete. rewrite Hk, Hp, Hd, Hdone, andb_false_r.
    cbn [aio.wait_events]. rewrite wait_loop_done by (simpl; lia).
    split; [reflexivity|]. simpl. split; [done|]. split; [done|].
    unfold aio.isCompleted. simpl. by rewrite lookup_delete_eq.
Qed.

Lemma eof_waitOne_keeps_wait_drops_witness :
  let d := {| aio.key := 1; aio.type := aio.IOTYPE_WRITE; aio.oft := 0;
              aio.size := 512; aio.buf := 100; aio.beginTime := 0;
              aio.endTime := 0; aio.done := false |} in
  let r := {| aio.ge_time := 7;
              aio.ge_ret := inr [{| aio.obj := O; aio.res := 0 |}] |} in
  aio.waitOne false (r :: []) aio_submitted
  = aio.Throw aio.EofError aio_submitted
  ∧ ∃ s', aio.wait false 1 [] (r :: []) aio_submitted
          = ([], aio.Throw aio.EofError s')
          ∧ aio.pendingIOs_ s' = delete 1 (aio.pendingIOs_ aio_submitted)
          ∧ aio.heap s'
            = <[O := aio.set_done true
                       (if aio.isMeasureTime_ aio_submitted then 7 else 0) d]>
                (aio.heap aio_submitted)
          ∧ aio.isCompleted 1 s' = aio.Throw aio.RuntimeError s'.
Proof.
  intros d r.
  apply (eof_waitOne_keeps_wait_drops false 7 [] [] aio_submitted 1 O d);
    vm_compute; reflexivity.
Defined.

(** X24.  [waitFor] on an IO that an earlier [waitFor] found completed
    returns at once and erases the key from the pending IOs, but leaves the
    IO among the completed ones.  The next [waitOne] then finds an IO that
    is not pending: it fails its assertion, and without assertions it
    returns the key of the IO that [waitFor] had already served. *)
Theorem waitFor_completed_then_waitOne (rs rs' : list aio.getevents)
    (s : aio.Aio) (k : Z) (p : nat) (rest : list nat) (d : aio.AioData) :
  aio.pendingIOs_ s !! k = Some p →
  aio.heap s !! p = Some d →
  aio.key d = k →
  aio.done d = true →
  aio.completedIOs_ s = p :: rest →
  let s' := aio.set_pendingIOs_ (delete k (aio.pendingIOs_ s)) s in
  (∀ ndebug, aio.waitFor ndebug k rs s = aio.Ok tt s')
  ∧ aio.completedIOs_ s' = p :: rest
  ∧ aio.waitOne false rs' s' = aio.Abort
  ∧ aio.waitOne true rs' s' = aio.Ok k (aio.set_completedIOs_ rest s').
Proof.
  intros Hp Hd Hk Hdone Hc s'. split; [|split; [done|split]].
  - intros ndebug. unfold aio.waitFor. rewrite Hp.
    destruct rs; simpl; by rewrite Hd, Hdone.
  - unfold aio.waitOne, s'. simpl. rewrite Hc. unfold aio.pop_completed.
    simpl. rewrite Hd, Hk, lookup_delete_eq.
    rewrite bool_decide_eq_false_2; [done|]. by intros [? ?].
  - unfold aio.waitOne, s'. simpl. rewrite Hc. unfold aio.pop_completed.
    simpl. rewrite Hd, Hk. simpl. do 2 f_equal.
    unfold aio.set_pendingIOs_, aio.set_completedIOs_. simpl.
    f_equal. apply delete_delete_eq.
Qed.

Lemma waitFor_completed_then_waitOne_witness :
  let s' := aio.set_pendingIOs_ (delete 1 (aio.pendingIOs_ aio_waited))
              aio_waited in
  (∀ ndebug, aio.waitFor ndebug 1 [] aio_waited = aio.Ok tt s')
  ∧ aio.completedIOs_ s' = [0%nat; 1%nat]
  ∧ aio.waitOne false [] s' = aio.Abort
  ∧ aio.waitOne true [] s' = aio.Ok 1 (aio.set_completedIOs_ [1%nat] s').
Proof.
  apply (waitFor_completed_then_waitOne [] [] aio_waited 1 O [1%nat]
           {| aio.key := 1; aio.type := aio.IOTYPE_WRITE; aio.oft := 0;
              aio.size := 512; aio.buf := 100; aio.beginTime := 0;
              aio.endTime := 0; aio.done := true |});
    vm_compute; reflexivity.
Defined.

Lemma waitFor_loop_step (ndebug : bool) (p0 p1 : nat) (r : aio.getevents)
    (rs : list aio.getevents) (s : aio.Aio) (d0 : aio.AioData) :
  aio.heap s !! p0 = Some d0 →
  aio.done d0 = false →
  aio.completes s r p1 →
  ∃ d1 t,
    aio.heap s !! p1 = Some d1
    ∧ aio.waitFor_loop ndebug p0 (r :: rs) s
      = aio.waitFor_loop ndebug p0 rs
          (let s1 := aio.set_heap (<[p1 := aio.set_done true t d1]> (aio.heap s)) s in
           if negb (Nat.eqb p0 p1)
           then aio.set_completedIOs_ (aio.completedIOs_ s ++ [p1]) s1
           else s1).
Proof.
  intros Hd0 Hdone0 (d1 & Hd1 & Hdone1 & Hpend & Hsize & Hret).
  exists d1, (if aio.isMeasureTime_ s then aio.ge_time r else 0).
  split; [done|].
  cbn [aio.waitFor_loop]. rewrite Hd0, Hdone0.
  unfold aio.waitOne_. rewrite Hret. cbn [aio.obj aio.res]. rewrite Hd1.
  destruct (Z.eqb_spec (aio.size d1) 0); [done|].
  rewrite Z.eqb_refl. cbn [negb].
  unfold aio.complete. rewrite Hpend, Hd1, Hdone1, andb_false_r.
  cbn [aio.heap aio.set_heap]. rewrite lookup_insert_eq.
  cbn [aio.completedIOs_ aio.set_heap aio.heap].
  rewrite insert_insert_eq.
  destruct (negb (p0 =? p1)%nat); reflexivity.
Qed.

Lemma completes_other (s s1 : aio.Aio) (r : aio.getevents) (p p1 : nat)
    (d : aio.AioData) :
  p ≠ p1 →
  aio.heap s1 = <[p1 := d]> (aio.heap s) →
  aio.pendingIOs_ s1 = aio.pendingIOs_ s →
  aio.completes s r p → aio.completes s1 r p.
Proof.
  intros Hne Hh Hp (d' & Hd & Hdone & Hpend & Hsize & Hret).
  exists d'. rewrite Hh, Hp, lookup_insert_ne by done. done.
Qed.

Lemma completes_others (s s1 : aio.Aio) (p1 : nat) (d : aio.AioData)
    (rs : list aio.getevents) (ps : list nat) :
  aio.heap s1 = <[p1 := d]> (aio.heap s) →
  aio.pendingIOs_ s1 = aio.pendingIOs_ s →
  p1 ∉ ps →
  Forall2 (aio.completes s) rs ps → Forall2 (aio.completes s1) rs ps.
Proof.
  intros Hh Hp Hnotin H. induction H as [|r p rs ps Hr Hrs IH]; constructor.
  - eapply completes_other; [|done|done|done].
    intros ->. apply Hnotin, elem_of_cons. by left.
  - apply IH. intros Hin. apply Hnotin, elem_of_cons. by right.
Qed.

Lemma waitFor_loop_spec (ndebug : bool) (p0 : nat) (r0 : aio.getevents)
    (rs' : list aio.getevents) (ps : list nat) :
  ∀ (rs : list aio.getevents) (s : aio.Aio),
    NoDup (ps ++ [p0]) →
    Forall2 (aio.completes s) rs ps →
    aio.completes s r0 p0 →
    ∃ s', aio.waitFor_loop ndebug p0 (rs ++ r0 :: rs') s = aio.Ok tt s'
          ∧ aio.completedIOs_ s' = aio.completedIOs_ s ++ ps
          ∧ aio.pendingIOs_ s' = aio.pendingIOs_ s
          ∧ aio.submitQueue_ s' = aio.submitQueue_ s
          ∧ (∀ p, p ∈ ps ++ [p0] →
               ∃ d t, aio.heap s !! p = Some d
                      ∧ aio.heap s' !! p = Some (aio.set_done true t d))
          ∧ (∀ p, p ∉ ps ++ [p0] → aio.heap s' !! p = aio.heap s !! p).
Proof.
  induction ps as [|p1 ps IH]; intros rs s Hnd Hrs Hr0.
  - apply Forall2_nil_inv_r in Hrs as ->. cbn [app].
    pose proof Hr0 as (d0 & Hd0 & Hdone0 & _).
    destruct (waitFor_loop_step ndebug p0 p0 r0 rs' s d0 Hd0 Hdone0 Hr0)
      as (d1 & t & Hd1 & Hstep).
    rewrite Hd0 in Hd1. injection Hd1 as <-.
    rewrite Nat.eqb_refl in Hstep. cbn [negb] in Hstep. cbv zeta in Hstep.
    eexists. split.
    { rewrite Hstep. destruct rs'; simpl; by rewrite lookup_insert_eq. }
    simpl. rewrite app_nil_r. repeat split; try done.
    + intros p ->%list_elem_of_singleton. exists d0, t.
      by rewrite lookup_insert_eq.
    + intros p Hp. rewrite lookup_insert_ne; [done|].
      intros <-. apply Hp, list_elem_of_singleton. done.
  - apply Forall2_cons_inv_r in Hrs as (r1 & rs1 & Hr1 & Hrs1 & ->).
    cbn [app] in Hnd. apply NoDup_cons in Hnd as [Hnotin Hnd].
    assert (Hne : p0 ≠ p1).
    { intros <-. apply Hnotin, elem_of_app. right.
      by apply list_elem_of_singleton. }
    pose proof Hr0 as (d0 & Hd0 & Hdone0 & _).
    destruct (waitFor_loop_step ndebug p0 p1 r1 (rs1 ++ r0 :: rs') s d0
                Hd0 Hdone0 Hr1) as (d1 & t & Hd1 & Hstep).
    apply Nat.eqb_neq in Hne as Hneb. rewrite Hneb in Hstep.
    cbn [negb] in Hstep. cbv zeta in Hstep.
    set (s1 := aio.set_completedIOs_ _ _) in Hstep.
    destruct (IH rs1 s1 Hnd) as (s' & Hloop & Hc & Hp & Hq & Hin & Hout).
    { eapply completes_others; [reflexivity|reflexivity| |done].
      intros Hin. apply Hnotin, elem_of_app. by left. }
    { eapply completes_other; [done|reflexivity|reflexivity|done]. }
    exists s'. split.
    { cbn [app]. by rewrite Hstep. }
    split.
    { rewrite Hc. unfold s1. simpl. by rewrite <- app_assoc. }
    split; [by rewrite Hp|]. split; [by rewrite Hq|]. split.
    + intros p [->|Hin']%elem_of_cons.
      * exists d1, t. split; [done|]. rewrite Hout by done.
        unfold s1. simpl. by rewrite lookup_insert_eq.
      * destruct (Hin p Hin') as (d & t' & Hd & Hd').
        exists d, t'. split; [|done]. rewrite <- Hd. unfold s1. simpl.
        rewrite lookup_insert_ne; [done|]. by intros <-.
    + intros p Hp'. rewrite Hout.
      * unfold s1. simpl. rewrite lookup_insert_ne; [done|].
        intros <-. apply Hp', elem_of_cons. by left.
      * intros Hin'. apply Hp', elem_of_cons. by right.
Qed.

(** X25.  [waitFor] takes the events as they come until the one of its
    own IO: every other IO that completes meanwhile is marked done, stays
    pending, and is appended to the completed IOs in the order of the
    events; the IO waited for is marked done and erased from the pending
    IOs, and it does not enter the completed IOs. *)
Theorem waitFor_queues_others (ndebug : bool) (k : Z) (p0 : nat)
    (ps : list nat) (rs : list aio.getevents) (r0 : aio.getevents)
    (rs' : list aio.getevents) (s : aio.Aio) :
  aio.pendingIOs_ s !! k = Some p0 →
  NoDup (ps ++ [p0]) →
  Forall2 (aio.completes s) rs ps →
  aio.completes s r0 p0 →
  ∃ s', aio.waitFor ndebug k (rs ++ r0 :: rs') s = aio.Ok tt s'
        ∧ aio.completedIOs_ s' = aio.completedIOs_ s ++ ps
        ∧ aio.pendingIOs_ s' = delete k (aio.pendingIOs_ s)
        ∧ aio.submitQueue_ s' = aio.submitQueue_ s
        ∧ (∀ p, p ∈ ps ++ [p0] →
             ∃ d t, aio.heap s !! p = Some d
                    ∧ aio.heap s' !! p = Some (aio.set_done true t d))
        ∧ (∀ p, p ∉ ps ++ [p0] → aio.heap s' !! p = aio.heap s !! p).
Proof.
  intros Hk Hnd Hrs Hr0.
  destruct (waitFor_loop_spec ndebug p0 r0 rs' ps rs s Hnd Hrs Hr0)
    as (s' & Hloop & Hc & Hp & Hq & Hin & Hout).
  eexists. unfold aio.waitFor. rewrite Hk, Hloop.
  split; [reflexivity|]. simpl. by rewrite Hp.
Qed.

Lemma waitFor_queues_others_witness :
  ∃ s', aio.waitFor false 3
          ([aio_event 0 512; aio_event 1 512] ++ aio_event 2 512 :: [])
          aio_submitted
        = aio.Ok tt s'
        ∧ aio.completedIOs_ s'
          = aio.completedIOs_ aio_submitted ++ [0%nat; 1%nat]
        ∧ aio.pendingIOs_ s' = delete 3 (aio.pendingIOs_ aio_submitted)
        ∧ aio.submitQueue_ s' = aio.submitQueue_ aio_submitted
        ∧ (∀ p, p ∈ [0%nat; 1%nat] ++ [2%nat] →
             ∃ d t, aio.heap aio_submitted !! p = Some d
                    ∧ aio.heap s' !! p = Some (aio.set_done true t d))
        ∧ (∀ p, p ∉ [0%nat; 1%nat] ++ [2%nat] →
             aio.heap s' !! p = aio.heap aio_submitted !! p).
Proof.
  apply (waitFor_queues_others false 3 2%nat [0%nat; 1%nat]
           [aio_event 0 512; aio_event 1 512] (aio_event 2 512) []
           aio_submitted).
  - vm_compute. reflexivity.
  - compute_done.
  - repeat constructor.
    + eexists. split; [vm_compute; reflexivity|]. vm_compute.
      repeat split; discriminate.
    + eexists. split; [vm_compute; reflexivity|]. vm_compute.
      repeat split; discriminate.
  - eexists. split; [vm_compute; reflexivity|]. vm_compute.
    repeat split; discriminate.
Defined.

(** The scenario of the examples, step by step. *)
Example Aio_new_gives : aio.Aio_new false 3 4 false 0 = Some (inr aio_new).
Proof. reflexivity. Qed.

Example aio_submitted_state :
  aio.submit false 0 [3] aio_prepared = aio.Ok tt aio_submitted
  ∧ aio.submitQueue_ aio_submitted = []
  ∧ aio.pendingIOs_ aio_submitted
    = <[3 := 2%nat]> (<[2 := 1%nat]> (<[1 := 0%nat]> ∅)).
Proof. vm_compute. done. Qed.

Example aio_waited_state :
  aio.waitFor false 3 [aio_event 0 512; aio_event 1 512; aio_event 2 512]
    aio_submitted
  = aio.Ok tt aio_waited
  ∧ aio.completedIOs_ aio_waited = [0%nat; 1%nat]
  ∧ aio.pendingIOs_ aio_waited = <[2 := 1%nat]> (<[1 := 0%nat]> ∅).
Proof. vm_compute. done. Qed.
